(** * semantic-mcp: the MCP runtime's tool surface, start-up configuration,
      router, content store, task executor and session registry.

    The first half of the file embeds the program; the second half states
    and proves its properties.

    Source files embedded:
    - [src/mcp_runtime/models.py]        (module [Models])
    - [src/mcp_runtime/mcp_server.py]    (module [Handlers])
    - [src/mcpruntime/tools/poll_task.py] (module [PollTool])
    - [src/mcpruntime/mcp_server.py]     (module [Router])

    [runtime_engine.py] and [services/content_manager.py] are imported by
    these files but are not part of the sources at hand; the modules
    [ContentStore], [TaskExecutor] and [SessionRegistry] model them from the
    written specification and say so in their doc comments. *)

From Stdlib Require Import ZArith QArith String Ascii List Lia.
From stdpp Require Import gmap strings list fin_maps pretty sorting.

Open Scope string_scope.
Set Warnings "-register-all".

(* ===================================================================== *)
(** * Python values, exceptions and the handler monad *)
(* ===================================================================== *)

Module Py.

(** JSON-like Python values, as the handlers build and return them.  A
    [dict] literal keeps its insertion order, hence the association list. *)
Inductive value : Type :=
| VNone
| VBool (b : bool)
| VInt (z : Z)
| VStr (s : string)
| VList (l : list value)
| VDict (d : list (string * value)).

(** [Optional[str]] passed to a Python value. *)
Definition of_opt_str (o : option string) : value :=
  match o with Some s => VStr s | None => VNone end.

Definition of_opt (o : option value) : value :=
  match o with Some v => v | None => VNone end.

(** Truthiness of an [Optional[str]]: [None] and the empty string are falsy. *)
Definition truthy_str (o : option string) : bool :=
  match o with
  | Some s => negb (s =? EmptyString)
  | None => false
  end.

(** What can be raised.  [except Exception] catches the instances of
    [Exception]; [KeyboardInterrupt], [SystemExit], [GeneratorExit] and
    [asyncio.CancelledError] derive from [BaseException] only and pass
    through such a clause. *)
Record exn : Type := Exn { exn_type : string; exn_str : string }.

Inductive raised : Type :=
| Error (e : exn)        (* an instance of [Exception] *)
| Signal (name : string) (* a [BaseException] outside [Exception] *).

Inductive outcome (A : Type) : Type :=
| Returned (a : A)
| Raised (r : raised).
Arguments Returned {A} a.
Arguments Raised {A} r.

(** Handlers run against the module-level engine: state [G] threaded
    through, exceptions short-circuiting. *)
Definition M (G A : Type) : Type := G -> outcome A * G.

Definition ret {G A} (a : A) : M G A := fun g => (Returned a, g).

Definition raise {G A} (r : raised) : M G A := fun g => (Raised r, g).

Definition bind {G A B} (m : M G A) (k : A -> M G B) : M G B :=
  fun g =>
    match m g with
    | (Returned a, g') => k a g'
    | (Raised r, g') => (Raised r, g')
    end.

(** [try: body except Exception as e: handler(e)] *)
Definition try_except {G A} (body : M G A) (handler : exn -> M G A) : M G A :=
  fun g =>
    match body g with
    | (Returned a, g') => (Returned a, g')
    | (Raised (Error e), g') => handler e g'
    | (Raised (Signal s), g') => (Raised (Signal s), g')
    end.

End Py.

Import Py.

#[global] Instance M_ret {G} : MRet (M G) := fun A => @ret G A.
#[global] Instance M_bind {G} : MBind (M G) := fun A B k m => @bind G A B m k.

(* ===================================================================== *)
(** * [models.py]: the start-up configuration *)
(* ===================================================================== *)

Module Models.

(** [class McpStartupConfig(BaseModel)] *)
Record McpStartupConfig : Type := {
  server_name : string;
  transport : string;
  command : option string;
  args : list string;
  env : gmap string string;
  url : option string;
  headers : gmap string string;
  timeout : Q
}.

(** [validate_transport], the [model_validator(mode='after')]: it raises
    [ValueError] or returns [self]. *)
Definition validate_transport (self : McpStartupConfig)
  : string + McpStartupConfig :=
  if (transport self =? "stdio") && negb (truthy_str (command self))
  then inl "stdio transport requires 'command'"
  else if (transport self =? "http") && negb (truthy_str (url self))
  then inl "http transport requires 'url'"
  else inr self.

(** What pydantic raises when a model cannot be built.  The [ValueError]
    of an [after] validator becomes the one line error of a
    [ValidationError]: its type is ["value_error"] and its message is
    ["Value error, "] followed by the text of the [ValueError]; the string
    of the exception wraps that line between a header naming the model and
    a trailer naming the input. *)
Record ValidationError : Type := {
  ve_title : string;
  ve_type : string;
  ve_msg : string
}.

Definition value_error (title message : string) : ValidationError :=
  {| ve_title := title;
     ve_type := "value_error";
     ve_msg := "Value error, " +:+ message |}.

(** Building the model: every field but [server_name] has a default, and
    the validator runs on the populated instance; its [ValueError] reaches
    the caller as a [ValidationError]. *)
Definition McpStartupConfig_new
    (server_name : string)
    (transport : option string)
    (command : option string)
    (args : option (list string))
    (env : option (gmap string string))
    (url : option string)
    (headers : option (gmap string string))
    (timeout : option Q) : ValidationError + McpStartupConfig :=
  match validate_transport
          {| server_name := server_name;
             transport := default "stdio" transport;
             command := command;
             args := default [] args;
             env := default ∅ env;
             url := url;
             headers := default ∅ headers;
             timeout := default (30 # 1)%Q timeout |} with
  | inl message => inl (value_error "McpStartupConfig" message)
  | inr self => inr self
  end.

End Models.

(* ===================================================================== *)
(** * [mcp_runtime/mcp_server.py]: the tool-surface handlers *)
(* ===================================================================== *)

Module Handlers.

(** The interface of [RuntimeEngine] as the handlers use it.  [S] is the
    engine's state; every method may raise. *)
Class RuntimeEngine (S : Type) : Type := {
  start_mcp_server : string -> M S (bool * string);
  shutdown_mcp_server : string -> M S (bool * string);
  list_running_servers : M S (list string);
  (* server_name, tool_name, arguments, timeout, in_background, priority *)
  execute_tool :
    string -> string -> option value -> Q -> bool -> Z -> M S value;
  (* is_done, result, error *)
  poll_task_result : string -> M S (bool * option value * option string);
  (* content_manager.get_content(ref_id, chunk_index) *)
  content_get_content : string -> option Z -> M S value
}.

Section WithEngine.
Context {S : Type} `{RuntimeEngine S}.

(** [runtime_engine: Optional[RuntimeEngine] = None] is a module-level
    global, set by [lifespan].  A method call on [None] raises
    [AttributeError]. *)
Definition attribute_error (attr : string) : exn :=
  Exn "AttributeError"
      ("'NoneType' object has no attribute '" +:+ attr +:+ "'").

Definition on_engine {A} (attr : string) (m : M S A) : M (option S) A :=
  fun g =>
    match g with
    | None => (Raised (Error (attribute_error attr)), None)
    | Some s => let '(r, s') := m s in (r, Some s')
    end.

(** [async def manage_server(server_name, action)] *)
Definition manage_server (server_name action : string)
  : M (option S) value :=
  if action =? "start" then
    ('(success, message) ←
       on_engine "start_mcp_server" (start_mcp_server server_name);
     ret (VDict [("success", VBool success); ("message", VStr message)]))
  else if action =? "shutdown" then
    ('(success, message) ←
       on_engine "shutdown_mcp_server" (shutdown_mcp_server server_name);
     ret (VDict [("success", VBool success); ("message", VStr message)]))
  else
    ret (VDict [("success", VBool false);
                ("message",
                 VStr ("Invalid action: " +:+ action
                       +:+ ". Use 'start' or 'shutdown'"))]).

(** [async def execute_tool(...)] *)
Definition execute_tool_handler
    (server_name tool_name : string) (arguments : option value)
    (timeout : Q) (in_background : bool) (priority : Z)
  : M (option S) value :=
  try_except
    (result ←
       on_engine "execute_tool"
         (execute_tool server_name tool_name arguments timeout
                       in_background priority);
     ret (VDict [("success", VBool true); ("result", result)]))
    (fun e => ret (VDict [("success", VBool false);
                          ("error", VStr (exn_str e))])).

(** [async def poll_task_result(task_id)] *)
Definition poll_task_result_handler (task_id : string)
  : M (option S) value :=
  ('(is_done, result, error) ←
     on_engine "poll_task_result" (poll_task_result task_id);
   if truthy_str error then
     ret (VDict [("status", VStr "error"); ("error", of_opt_str error)])
   else if (is_done : bool) then
     ret (VDict [("status", VStr "completed"); ("result", of_opt result)])
   else
     ret (VDict [("status", VStr "running")])).

(** [async def get_content(ref_id, chunk_index=None)] *)
Definition get_content_handler (ref_id : string) (chunk_index : option Z)
  : M (option S) value :=
  try_except
    (content ←
       on_engine "content_manager"
         (content_get_content ref_id chunk_index);
     ret (VDict [("success", VBool true); ("content", content)]))
    (fun e => ret (VDict [("success", VBool false);
                          ("error", VStr (exn_str e))])).

(** [async def list_running_servers()] *)
Definition list_running_servers_handler : M (option S) (list string) :=
  on_engine "list_running_servers" list_running_servers.

End WithEngine.

End Handlers.

(* ===================================================================== *)
(** * [mcpruntime/tools/poll_task.py]: [PollTaskResultTool] *)
(* ===================================================================== *)

Module PollTool.

(** [ToolResult(content=[TextContent(type="text", text=...), ...])]: the
    texts of the content blocks, in order. *)
Definition ToolResult : Type := list string.

(** [json.dumps(..., indent=2)] is the JSON library's; the tool only
    passes the dictionary to it. *)
Section WithJson.
Context {S : Type} `{Handlers.RuntimeEngine S}.
Variable json_dumps : value -> string.

(** [PollTaskResultTool.__call__(task_id)]; [self.engine] is set at
    construction, so there is no [None] case here. *)
Definition poll_task_call (task_id : string) : M S ToolResult :=
  try_except
    ('(is_done, result, error) ← Handlers.poll_task_result task_id;
     if truthy_str error then
       ret ["Task error: " +:+ default EmptyString error]
     else if (is_done : bool) then
       ret ["Task '" +:+ task_id +:+ "' completed";
            json_dumps (VDict [("status", VStr "completed");
                               ("result", of_opt result)])]
     else
       ret ["Task '" +:+ task_id +:+ "' still running";
            json_dumps (VDict [("status", VStr "running")]);
            "Next: Poll again after a short delay"])
    (fun e => ret ["Failed to poll task: " +:+ exn_str e]).

End WithJson.

End PollTool.

(* ===================================================================== *)
(** * [mcpruntime/mcp_server.py]: [semantic_router] *)
(* ===================================================================== *)

Module Router.

Import PollTool.

(** The parameters of [semantic_router] with their declared defaults. *)
Record RouterArgs : Type := {
  operation : string;
  query : option string;
  limit : Z;
  min_score : Q;
  server_name : option string;
  server_names : option (list string);
  tool_name : option string;
  tool_type : option string;
  enabled : bool;
  offset : Z;
  action : string;
  arguments : option value;
  timeout : Q;
  in_background : bool;
  priority : Z;
  task_id : option string;
  ref_id : option string;
  chunk_index : option Z
}.

Definition default_args (operation : string) : RouterArgs :=
  {| operation := operation;
     query := None;
     limit := 10;
     min_score := (3 # 10)%Q;
     server_name := None;
     server_names := None;
     tool_name := None;
     tool_type := None;
     enabled := true;
     offset := 0;
     action := "start";
     arguments := None;
     timeout := (60 # 1)%Q;
     in_background := false;
     priority := 1;
     task_id := None;
     ref_id := None;
     chunk_index := None |}.

(** The calls the router makes on the registered tool objects, with the
    keyword arguments it passes. *)
Inductive ToolCall : Type :=
| CallSearchTools (query : string) (limit : Z) (min_score : Q)
    (server_names : option (list string)) (tool_type : option string)
    (enabled : bool)
| CallSearchServers (query : string) (limit : Z) (min_score : Q)
| CallGetServerInfo (server_name : string)
| CallGetServerTools (server_name : string) (limit : Z) (offset : Z)
| CallGetToolDetails (server_name tool_name : string)
| CallListServers (limit : Z) (offset : Z)
| CallManageServer (server_name action : string)
| CallListRunningServers
| CallExecuteTool (server_name tool_name : string)
    (arguments : option value) (timeout : Q) (in_background : bool)
    (priority : Z)
| CallPollTaskResult (task_id : string)
| CallGetContent (ref_id : string) (chunk_index : option Z)
| CallGetStatistics.

(** One pass through the [match operation:] statement: either an
    immediate [ToolResult] or the tool call whose result is returned. *)
Inductive Dispatch : Type :=
| Respond (r : ToolResult)
| Delegate (c : ToolCall).

(** [limit if limit != 10 else 50], as both listing branches write it. *)
Definition listing_limit (limit : Z) : Z :=
  if negb (limit =? 10)%Z then limit else 50.

Definition required (what : string) (op : string) : Dispatch :=
  Respond ["Error: " +:+ what +:+ " for " +:+ op].

Definition dispatch (a : RouterArgs) : Dispatch :=
  let op := operation a in
  if op =? "search_tools" then
    match query a with
    | None => required "'query' is required" op
    | Some q =>
        Delegate (CallSearchTools q (limit a) (min_score a)
                    (server_names a) (tool_type a) (enabled a))
    end
  else if op =? "search_servers" then
    match query a with
    | None => required "'query' is required" op
    | Some q => Delegate (CallSearchServers q (limit a) (min_score a))
    end
  else if op =? "get_server_info" then
    match server_name a with
    | None => required "'server_name' is required" op
    | Some s => Delegate (CallGetServerInfo s)
    end
  else if op =? "get_server_tools" then
    match server_name a with
    | None => required "'server_name' is required" op
    | Some s =>
        Delegate (CallGetServerTools s (listing_limit (limit a)) (offset a))
    end
  else if op =? "get_tool_details" then
    match server_name a, tool_name a with
    | Some s, Some t => Delegate (CallGetToolDetails s t)
    | _, _ => required "'server_name' and 'tool_name' are required" op
    end
  else if op =? "list_servers" then
    Delegate (CallListServers (listing_limit (limit a)) (offset a))
  else if op =? "manage_server" then
    match server_name a with
    | None => required "'server_name' is required" op
    | Some s => Delegate (CallManageServer s (action a))
    end
  else if op =? "list_running_servers" then
    Delegate CallListRunningServers
  else if op =? "execute_tool" then
    match server_name a, tool_name a with
    | Some s, Some t =>
        Delegate (CallExecuteTool s t (arguments a) (timeout a)
                    (in_background a) (priority a))
    | _, _ => required "'server_name' and 'tool_name' are required" op
    end
  else if op =? "poll_task_result" then
    match task_id a with
    | None => required "'task_id' is required" op
    | Some t => Delegate (CallPollTaskResult t)
    end
  else if op =? "get_content" then
    match ref_id a with
    | None => required "'ref_id' is required" op
    | Some r => Delegate (CallGetContent r (chunk_index a))
    end
  else if op =? "get_statistics" then
    Delegate CallGetStatistics
  else
    Respond ["Unknown operation: " +:+ op].

Section WithTools.
Context {S : Type}.
(** The tool objects built by [register_tools], as one callable. *)
Variable call_tool : ToolCall -> M S ToolResult.

(** [async def semantic_router(...)]: the dispatch inside
    [try: ... except Exception as e:]. *)
Definition semantic_router (a : RouterArgs) : M S ToolResult :=
  try_except
    (match dispatch a with
     | Respond r => ret r
     | Delegate c => call_tool c
     end)
    (fun e => ret ["Router failed: " +:+ exn_str e]).

End WithTools.

End Router.

(* ===================================================================== *)
(** * The Content Store ([services/content_manager.py]) *)
(* ===================================================================== *)

Module ContentStore.

(** A content block of a tool result: [{"type": "text", "text": ...}],
    [{"type": "image", "data": ..., "mimeType": ...}] or the same with
    ["audio"], as [tests/test_content_manager.py] builds them. *)
Inductive ContentBlock : Type :=
| TextBlock (text : string)
| ImageBlock (data mimeType : string)
| AudioBlock (data mimeType : string).

Inductive Kind : Type := KText | KImage | KAudio.

(** Modelled from the spec: the [ContentEntry] record of the content
    manager, which is not among the sources.  It holds a kind, the ordered
    chunks (index 0 first), a MIME type and the creation time. *)
Record ContentEntry : Type := {
  kind : Kind;
  chunks : list string;
  mime : string;
  created : nat
}.

(** The store: entries keyed by reference id. *)
Abbreviation Store := (gmap string ContentEntry).

Inductive ContentError : Type :=
| ReferenceNotFound (ref_id : string)
| ChunkIndexOutOfRange (ref_id : string) (chunk_index : Z) (total : nat).

(** The first [n] characters of a text, and the rest. *)
Fixpoint str_take (n : nat) (s : string) : string :=
  match n, s with
  | S n', String c s' => String c (str_take n' s')
  | _, _ => EmptyString
  end.

Fixpoint str_drop (n : nat) (s : string) : string :=
  match n, s with
  | S n', String _ s' => str_drop n' s'
  | _, _ => s
  end.

(** Modelled from the spec: the size estimate of a text block, which the
    content manager computes and the sources do not show.  The spec allows
    an estimate derived from the character count; this is that count. *)
Definition estimate_size (text : string) : nat := String.length text.

(** Splitting proper: slices of [step] characters, in order, until the
    text is used up.  [fuel] bounds the number of slices. *)
Fixpoint split_fuel (fuel step : nat) (s : string) : list string :=
  match fuel with
  | O => []
  | S fuel' =>
      match s with
      | EmptyString => []
      | _ => str_take step s :: split_fuel fuel' step (str_drop step s)
      end
  end.

(** Modelled from the spec: the splitting of an over-budget text into
    ordered chunks, each sized at or under the budget (the content
    manager's own routine is not among the sources).  A budget of zero
    admits no character at all; slices then advance by one character so
    that no text is dropped. *)
Definition split_text (budget : nat) (s : string) : list string :=
  split_fuel (String.length s) (Nat.max 1 budget) s.


(** The reference marker, as the tests look for it: [[Reference: <id>]]. *)
Definition reference_tag (ref_id : string) : string :=
  "[Reference: " +:+ ref_id +:+ "]".

(** The truncation note: original size and chunk count. *)
Definition truncation_summary (size n : nat) : string :=
  "[Content truncated: " +:+ pretty size +:+ " tokens, "
    +:+ pretty n +:+ " chunks]".

(** Modelled from the spec: the marker that replaces an offloaded text
    block; it states the reference id and the truncation summary (original
    size, chunk count). *)
Definition truncation_marker (ref_id : string) (size n : nat) : string :=
  truncation_summary size n +:+ " " +:+ reference_tag ref_id.

(** The kind note of an image or audio marker. *)
Definition media_summary (k : Kind) (mimeType : string)
    (caption : option string) : string :=
  let tag := match k with
             | KImage => "[Image: "
             | KAudio => "[Audio: "
             | KText => "[Text: "
             end in
  let body := match caption with
              | Some d => mimeType +:+ ", " +:+ d
              | None => mimeType
              end in
  tag +:+ body +:+ "]".

(** Modelled from the spec: the marker that replaces an image or audio
    block; it states the content kind and the reference id, and embeds
    the caption when one was supplied. *)
Definition media_marker (k : Kind) (mimeType : string)
    (caption : option string) (ref_id : string) : string :=
  media_summary k mimeType caption +:+ " " +:+ reference_tag ref_id.

(** [sub] occurs in [s]. *)
Definition mentions (s sub : string) : Prop :=
  exists pre suf, s = pre +:+ sub +:+ suf.

(** For a multi-chunk entry read without an index the spec leaves two
    contracts open; both are modelled. *)
Inductive Canonical : Type := FirstChunk | AllChunks.

Definition canonical_payload (policy : Canonical) (cs : list string)
  : string :=
  match policy with
  | FirstChunk => default EmptyString (head cs)
  | AllChunks => String.concat EmptyString cs
  end.

Definition block_of (e : ContentEntry) (payload : string) : ContentBlock :=
  match kind e with
  | KText => TextBlock payload
  | KImage => ImageBlock payload (mime e)
  | KAudio => AudioBlock payload (mime e)
  end.

(** The payload a block carries, and the block with another payload. *)
Definition payload (b : ContentBlock) : string :=
  match b with
  | TextBlock s => s
  | ImageBlock d _ | AudioBlock d _ => d
  end.

Definition rebuild (b : ContentBlock) (c : string) : ContentBlock :=
  match b with
  | TextBlock _ => TextBlock c
  | ImageBlock _ m => ImageBlock c m
  | AudioBlock _ m => AudioBlock c m
  end.

(** What is written for a block when it is offloaded. *)
Definition stored_chunks (budget : nat) (b : ContentBlock) : list string :=
  match b with
  | TextBlock s => split_text budget s
  | ImageBlock d _ | AudioBlock d _ => [d]
  end.

Section WithCaptioning.
(** The external captioning collaborator: image data and MIME type to an
    optional description. *)
Variable describe : string -> string -> option string.

(** Modelled from the spec: the per-block step of [process_content]
    (section 4.3), absent from the sources.  It returns the rewritten
    block, the reference id allocated for it (if any) and the store. *)
Definition process_block (budget : nat) (describe_images : bool)
    (now : nat) (b : ContentBlock) (st : Store)
  : ContentBlock * option string * Store :=
  match b with
  | TextBlock s =>
      if (estimate_size s <=? budget)%nat then (TextBlock s, None, st)
      else
        let cs := split_text budget s in
        let r := fresh (dom st) in
        (TextBlock (truncation_marker r (estimate_size s) (length cs)),
         Some r,
         <[r := {| kind := KText; chunks := cs; mime := "text/plain";
                   created := now |}]> st)
  | ImageBlock d m =>
      let r := fresh (dom st) in
      let caption := if describe_images then describe d m else None in
      (TextBlock (media_marker KImage m caption r),
       Some r,
       <[r := {| kind := KImage; chunks := [d]; mime := m;
                 created := now |}]> st)
  | AudioBlock d m =>
      let r := fresh (dom st) in
      (TextBlock (media_marker KAudio m None r),
       Some r,
       <[r := {| kind := KAudio; chunks := [d]; mime := m;
                 created := now |}]> st)
  end.

(** Modelled from the spec: [process_content(blocks, budget,
    describe_images)] of the absent content manager, left to right over
    the blocks; each output block is paired with the reference id
    allocated for it. *)
Fixpoint process_content_trace (budget : nat) (describe_images : bool)
    (now : nat) (blocks : list ContentBlock) (st : Store)
  : list (ContentBlock * option string) * Store :=
  match blocks with
  | [] => ([], st)
  | b :: rest =>
      let '(b', r, st1) := process_block budget describe_images now b st in
      let '(out, st2) :=
        process_content_trace budget describe_images now rest st1 in
      ((b', r) :: out, st2)
  end.

Definition process_content (budget : nat) (describe_images : bool)
    (now : nat) (blocks : list ContentBlock) (st : Store)
  : list ContentBlock * Store :=
  let '(out, st') :=
    process_content_trace budget describe_images now blocks st in
  (out.*1, st').

End WithCaptioning.

(** Modelled from the spec: [get_content(ref_id, chunk_index=None)] of
    the absent content manager (section 4.3). *)
Definition get_content (policy : Canonical) (st : Store)
    (ref_id : string) (chunk_index : option Z)
  : ContentError + ContentBlock :=
  match st !! ref_id with
  | None => inl (ReferenceNotFound ref_id)
  | Some e =>
      match chunk_index with
      | None => inr (block_of e (canonical_payload policy (chunks e)))
      | Some i =>
          if (0 <=? i)%Z && (i <? Z.of_nat (length (chunks e)))%Z then
            match chunks e !! Z.to_nat i with
            | Some c => inr (block_of e c)
            | None =>
                inl (ChunkIndexOutOfRange ref_id i (length (chunks e)))
            end
          else inl (ChunkIndexOutOfRange ref_id i (length (chunks e)))
      end
  end.

End ContentStore.

(* ===================================================================== *)
(** * The Task Executor (part of [runtime_engine.py]) *)
(* ===================================================================== *)

Module TaskExecutor.

Inductive Status : Type := Queued | Running | Completed | Failed.

#[global] Instance Status_eq_dec : EqDecision Status.
Proof. solve_decision. Defined.

(** Modelled from the spec: the [Task] record of the runtime engine,
    which is not among the sources (section 3).  [seq] is the position in
    the order of submission; the timestamps carry no behaviour and are
    left out. *)
Record Task : Type := {
  server_name : string;
  tool_name : string;
  arguments : option value;
  priority : Z;
  seq : nat;
  status : Status;
  result : option value;
  error : option string
}.

(** A queue entry: priority, submission number, task id. *)
Definition Entry : Type := Z * nat * string.

Definition entry_priority (e : Entry) : Z := e.1.1.
Definition entry_seq (e : Entry) : nat := e.1.2.
Definition entry_id (e : Entry) : string := e.2.

(** Ascending priority, ties broken by submission order. *)
Definition key_lt (a b : Entry) : Prop :=
  (entry_priority a < entry_priority b)%Z
  \/ (entry_priority a = entry_priority b /\ entry_seq a < entry_seq b).

Definition key_ltb (a b : Entry) : bool :=
  (entry_priority a <? entry_priority b)%Z
  || ((entry_priority a =? entry_priority b)%Z
      && (entry_seq a <? entry_seq b)%nat).

(** Modelled from the spec: the priority queue of the runtime engine
    (section 4.2), kept in dequeue order; the head is dequeued next. *)
Fixpoint enqueue (e : Entry) (q : list Entry) : list Entry :=
  match q with
  | [] => [e]
  | h :: t => if key_ltb e h then e :: h :: t else h :: enqueue e t
  end.

(** Modelled from the spec: the state the Task Executor owns — the
    ledger of tasks, the queue, the tasks held by the workers of the
    fixed-size pool, and the order in which tasks reached a terminal
    state. *)
Record Executor : Type := {
  pool_size : nat;
  tasks : gmap string Task;
  queue : list Entry;
  running : list string;
  finished : list string;
  next_seq : nat
}.

Definition init (pool : nat) : Executor :=
  {| pool_size := pool; tasks := ∅; queue := []; running := [];
     finished := []; next_seq := 0 |}.

Inductive Outcome : Type :=
| Succeeded (r : value)
| Errored (message : string).

Definition set_running (t : Task) : Task :=
  {| server_name := server_name t; tool_name := tool_name t;
     arguments := arguments t; priority := priority t; seq := seq t;
     status := Running; result := result t; error := error t |}.

Definition settle (o : Outcome) (t : Task) : Task :=
  match o with
  | Succeeded r =>
      {| server_name := server_name t; tool_name := tool_name t;
         arguments := arguments t; priority := priority t; seq := seq t;
         status := Completed; result := Some r; error := None |}
  | Errored m =>
      {| server_name := server_name t; tool_name := tool_name t;
         arguments := arguments t; priority := priority t; seq := seq t;
         status := Failed; result := None; error := Some m |}
  end.

(** Modelled from the spec: the background path of [execute] — a task
    record in [Queued] state under a fresh id, enqueued, the id returned
    at once. *)
Definition submit (server tool : string) (args : option value) (p : Z)
    (st : Executor) : string * Executor :=
  let id := fresh (dom (tasks st)) in
  (id,
   {| pool_size := pool_size st;
      tasks := <[id := {| server_name := server; tool_name := tool;
                          arguments := args; priority := p;
                          seq := next_seq st; status := Queued;
                          result := None; error := None |}]> (tasks st);
      queue := enqueue (p, next_seq st, id) (queue st);
      running := running st;
      finished := finished st;
      next_seq := S (next_seq st) |}).

(** Modelled from the spec: a free worker dequeues the head of the queue
    and moves the task to [Running]. *)
Definition dispatch (st : Executor) : option Executor :=
  if (length (running st) <? pool_size st)%nat then
    match queue st with
    | [] => None
    | e :: q =>
        Some {| pool_size := pool_size st;
                tasks := alter set_running (entry_id e) (tasks st);
                queue := q;
                running := running st ++ [entry_id e];
                finished := finished st;
                next_seq := next_seq st |}
    end
  else None.

(** Modelled from the spec: a worker's call returns; the outcome is
    stored in the record, which becomes [Completed] or [Failed]. *)
Definition finish (id : string) (o : Outcome) (st : Executor)
  : option Executor :=
  if bool_decide (id ∈ running st) then
    Some {| pool_size := pool_size st;
            tasks := alter (settle o) id (tasks st);
            queue := queue st;
            running := filter (fun x => x ≠ id) (running st);
            finished := finished st ++ [id];
            next_seq := next_seq st |}
  else None.

(** What can happen to the executor. *)
Inductive Event : Type :=
| Submit (server tool : string) (args : option value) (p : Z)
| Dispatch
| Finish (id : string) (o : Outcome).

Definition step (ev : Event) (st : Executor) : option Executor :=
  match ev with
  | Submit server tool args p => Some (submit server tool args p st).2
  | Dispatch => dispatch st
  | Finish id o => finish id o st
  end.

Fixpoint run (evs : list Event) (st : Executor) : option Executor :=
  match evs with
  | [] => Some st
  | ev :: rest =>
      match step ev st with
      | Some st' => run rest st'
      | None => None
      end
  end.

Definition is_terminal (s : Status) : bool :=
  match s with
  | Completed | Failed => true
  | Queued | Running => false
  end.

Inductive PollError : Type := TaskNotFound (task_id : string).

(** Modelled from the spec: [poll(task_id)] of the runtime engine
    (section 4.2), returning the triple the handlers unpack:
    [is_done, result, error]. *)
Definition poll (st : Executor) (task_id : string)
  : PollError + (bool * option value * option string) :=
  match tasks st !! task_id with
  | None => inl (TaskNotFound task_id)
  | Some t => inr (is_terminal (status t), result t, error t)
  end.

(** All workers hold a task. *)
Definition all_busy (st : Executor) : Prop :=
  length (running st) = pool_size st.

(** Position of the first occurrence. *)
Fixpoint index_of (x : string) (l : list string) : option nat :=
  match l with
  | [] => None
  | y :: l' => if x =? y then Some 0 else S <$> index_of x l'
  end.

(** Both tasks reached a terminal state, [a] first. *)
Definition completes_before (st : Executor) (a b : string) : Prop :=
  match index_of a (finished st), index_of b (finished st) with
  | Some i, Some j => i < j
  | _, _ => False
  end.

(** The record of a task agrees with its status: no result and no error
    before the end, a result after success, a message after failure. *)
Definition settled (t : Task) : Prop :=
  match status t with
  | Queued | Running => result t = None /\ error t = None
  | Completed => (exists r, result t = Some r) /\ error t = None
  | Failed => result t = None /\ exists m, error t = Some m
  end.

(** What holds of every state the executor reaches. *)
Record consistent (st : Executor) : Prop := {
  c_sorted : StronglySorted key_lt (queue st);
  c_seq : forall e, e ∈ queue st -> entry_seq e < next_seq st;
  c_ids : NoDup (entry_id <$> queue st);
  c_queued : forall e, e ∈ queue st ->
             exists t, tasks st !! entry_id e = Some t /\ status t = Queued;
  c_running : forall id, id ∈ running st ->
              exists t, tasks st !! id = Some t /\ status t = Running;
  c_finished : forall id, id ∈ finished st ->
               exists t, tasks st !! id = Some t
                         /\ is_terminal (status t) = true;
  c_settled : forall id t, tasks st !! id = Some t -> settled t
}.

(** What holds from the moment both entries wait in the queue. *)
Record ordered (e1 e2 : Entry) (st : Executor) : Prop := {
  o_consistent : consistent st;
  o_seq1 : entry_seq e1 < next_seq st;
  o_wait : e1 ∈ queue st -> e2 ∈ queue st;
  o_place1 : e1 ∈ queue st \/ entry_id e1 ∈ running st
             \/ entry_id e1 ∈ finished st;
  o_place2 : e2 ∈ queue st \/ entry_id e2 ∈ running st
             \/ entry_id e2 ∈ finished st;
  o_single : pool_size st = 1 ->
             (entry_id e2 ∈ running st -> entry_id e1 ∈ finished st)
             /\ (entry_id e2 ∈ finished st ->
                 completes_before st (entry_id e1) (entry_id e2))
}.

(** The priority ordering as the specification words it for completion:
    of two tasks that wait in the queue while all workers are busy, the one
    with the smaller key reaches its terminal state first. *)
Definition priority_completion_law (pool : nat) : Prop :=
  forall evs1 evs2 st st' e1 e2,
    run evs1 (init pool) = Some st ->
    all_busy st ->
    e1 ∈ queue st -> e2 ∈ queue st -> key_lt e1 e2 ->
    run evs2 st = Some st' ->
    entry_id e2 ∈ finished st' ->
    completes_before st' (entry_id e1) (entry_id e2).

End TaskExecutor.

(* ===================================================================== *)
(** * The Session Registry (part of [runtime_engine.py]) *)
(* ===================================================================== *)

Module SessionRegistry.

Import Models.

Inductive SessionStatus : Type := Starting | Running | Failed | Stopped.

#[global] Instance SessionStatus_eq_dec : EqDecision SessionStatus.
Proof. solve_decision. Defined.

(** Modelled from the spec: the [ServerSession] record of the runtime
    engine, which is not among the sources (section 3): transport
    descriptor, connection handle, status, start time, and the message
    captured when the start failed. *)
Record ServerSession : Type := {
  descriptor : option McpStartupConfig;
  handle : option nat;
  status : SessionStatus;
  started_at : nat;
  failure : option string
}.

(** Modelled from the spec: the registry's state — one session at most
    per server name — together with the log of the transports spawned
    and closed, which stands for the effect on the outside world. *)
Record Registry : Type := {
  sessions : gmap string ServerSession;
  spawned : list string;
  closed : list string
}.

Definition empty : Registry :=
  {| sessions := ∅; spawned := []; closed := [] |}.

Definition is_running (s : ServerSession) : bool :=
  bool_decide (status s = Running).

Definition record_failure (name : string)
    (cfg : option McpStartupConfig) (now : nat) (msg : string)
    (spawn_attempted : bool) (reg : Registry) : Registry :=
  {| sessions :=
       <[name := {| descriptor := cfg; handle := None; status := Failed;
                    started_at := now; failure := Some msg |}]>
         (sessions reg);
     spawned := if spawn_attempted then spawned reg ++ [name]
                else spawned reg;
     closed := closed reg |}.

Section WithCollaborators.
(** The discovery collaborator's "command" endpoint: the fields of the
    start-up configuration, or the message of a transport-level error. *)
Variable fetch_config : string -> string + McpStartupConfig.
(** Spawning the process or opening the connection: a handle, or the
    message of the failure. *)
Variable spawn : McpStartupConfig -> string + nat.

(** Modelled from the spec: [start(server_name)] of the runtime engine
    (section 4.1), absent from the sources.  The configuration is
    validated by [validate_transport] of [models.py]. *)
Definition start (name : string) (now : nat) (reg : Registry)
  : (bool * string) * Registry :=
  let drive :=
    match fetch_config name with
    | inl msg => ((false, msg), record_failure name None now msg false reg)
    | inr raw =>
        match validate_transport raw with
        | inl msg =>
            ((false, msg),
             record_failure name (Some raw) now msg false reg)
        | inr cfg =>
            match spawn cfg with
            | inl msg =>
                ((false, msg),
                 record_failure name (Some cfg) now msg true reg)
            | inr h =>
                ((true, "Server '" +:+ name +:+ "' started"),
                 {| sessions :=
                      <[name := {| descriptor := Some cfg;
                                   handle := Some h;
                                   status := Running;
                                   started_at := now;
                                   failure := None |}]> (sessions reg);
                    spawned := spawned reg ++ [name];
                    closed := closed reg |})
            end
        end
    end in
  match sessions reg !! name with
  | Some s =>
      if is_running s
      then ((true, "Server '" +:+ name +:+ "' is already running"), reg)
      else drive
  | None => drive
  end.

(** Modelled from the spec: [shutdown(server_name)] (section 4.1). *)
Definition shutdown (name : string) (reg : Registry)
  : (bool * string) * Registry :=
  match sessions reg !! name with
  | Some s =>
      if is_running s then
        ((true, "Server '" +:+ name +:+ "' stopped"),
         {| sessions := delete name (sessions reg);
            spawned := spawned reg;
            closed := closed reg ++ [name] |})
      else ((true, "Server '" +:+ name +:+ "' is not running"), reg)
  | None => ((true, "Server '" +:+ name +:+ "' is not running"), reg)
  end.

End WithCollaborators.

(** Modelled from the spec: [list_running()] (section 4.1), the names
    whose session is [Running]. *)
Definition list_running (reg : Registry) : list string :=
  (filter (fun kv => is_running kv.2 = true)
          (map_to_list (sessions reg))).*1.

(** The live sessions held for a name. *)
Definition live_sessions (name : string) (reg : Registry)
  : list ServerSession :=
  (filter (fun kv => kv.1 = name /\ is_running kv.2 = true)
          (map_to_list (sessions reg))).*2.

(** How many times a name occurs in a listing. *)
Definition occurrences (name : string) (l : list string) : nat :=
  length (filter (fun x => x = name) l).

End SessionRegistry.

(* ===================================================================== *)
(** * The engine behind the handlers *)
(* ===================================================================== *)

Module Engine.

Import ContentStore.

(** The answer of a tool-server to one call, within the deadline or not. *)
Inductive RemoteOutcome : Type :=
| RemoteOk (blocks : list ContentBlock)
| RemoteTimeout
| RemoteError (message : string).

(** Modelled from the spec: the state of [RuntimeEngine] (section 2) —
    the three components and the clock; the class itself is not among
    the sources. *)
Record State : Type := {
  registry : SessionRegistry.Registry;
  executor : TaskExecutor.Executor;
  store : gmap string ContentEntry;
  clock : nat
}.

Definition block_value (b : ContentBlock) : value :=
  match b with
  | TextBlock s => VDict [("type", VStr "text"); ("text", VStr s)]
  | ImageBlock d m =>
      VDict [("type", VStr "image"); ("data", VStr d); ("mimeType", VStr m)]
  | AudioBlock d m =>
      VDict [("type", VStr "audio"); ("data", VStr d); ("mimeType", VStr m)]
  end.

Section WithWorld.
Variable fetch_config : string -> string + Models.McpStartupConfig.
Variable spawn : Models.McpStartupConfig -> string + nat.
Variable describe : string -> string -> option string.
(** The call against a live session: server, tool, arguments, timeout. *)
Variable invoke : string -> string -> option value -> Q -> RemoteOutcome.
(** Settings: the budget, the captioning switch, the contract chosen
    for reads without an index. *)
Variable budget : nat.
Variable describe_images : bool.
Variable policy : Canonical.

Definition start_mcp_server (name : string) : M State (bool * string) :=
  fun st =>
    let '(r, reg) :=
      SessionRegistry.start fetch_config spawn name (clock st)
        (registry st) in
    (Returned r,
     {| registry := reg; executor := executor st; store := store st;
        clock := clock st |}).

Definition shutdown_mcp_server (name : string)
  : M State (bool * string) :=
  fun st =>
    let '(r, reg) := SessionRegistry.shutdown name (registry st) in
    (Returned r,
     {| registry := reg; executor := executor st; store := store st;
        clock := clock st |}).

Definition list_running_servers : M State (list string) :=
  fun st => (Returned (SessionRegistry.list_running (registry st)), st).

(** Modelled from the spec: [execute] (section 4.2).  The named server
    must be running; the synchronous path passes the result through
    the content store, the background path enqueues and returns the
    task id. *)
Definition execute_tool (server tool : string) (args : option value)
    (timeout : Q) (in_background : bool) (priority : Z)
  : M State value :=
  fun st =>
    if bool_decide (server ∈ SessionRegistry.list_running (registry st))
    then
      if in_background then
        let '(id, ex) :=
          TaskExecutor.submit server tool args priority (executor st) in
        (Returned (VStr id),
         {| registry := registry st; executor := ex; store := store st;
            clock := clock st |})
      else
        match invoke server tool args timeout with
        | RemoteOk blocks =>
            let '(out, s') :=
              process_content describe budget describe_images (clock st)
                blocks (store st) in
            (Returned (VList (block_value <$> out)),
             {| registry := registry st; executor := executor st;
                store := s'; clock := clock st |})
        | RemoteTimeout =>
            (Raised (Error (Exn "Timeout"
               ("Tool '" +:+ tool +:+ "' timed out"))), st)
        | RemoteError m =>
            (Raised (Error (Exn "ToolExecutionError" m)), st)
        end
    else
      (Raised (Error (Exn "ServerNotRunning"
         ("Server '" +:+ server +:+ "' is not running"))), st).

Definition poll_task_result (task_id : string)
  : M State (bool * option value * option string) :=
  fun st =>
    match TaskExecutor.poll (executor st) task_id with
    | inl (TaskExecutor.TaskNotFound id) =>
        (Raised (Error (Exn "TaskNotFound"
           ("Task '" +:+ id +:+ "' not found"))), st)
    | inr r => (Returned r, st)
    end.

Definition content_error (e : ContentError) : exn :=
  match e with
  | ReferenceNotFound r =>
      Exn "ReferenceNotFound" ("Reference '" +:+ r +:+ "' not found")
  | ChunkIndexOutOfRange r i n =>
      Exn "ChunkIndexOutOfRange"
          ("Chunk index " +:+ pretty i +:+ " out of range for '" +:+ r
           +:+ "' (" +:+ pretty n +:+ " chunks)")
  end.

Definition content_get_content (ref_id : string) (chunk_index : option Z)
  : M State value :=
  fun st =>
    match get_content policy (store st) ref_id chunk_index with
    | inl e => (Raised (Error (content_error e)), st)
    | inr b => (Returned (block_value b), st)
    end.

Definition engine : Handlers.RuntimeEngine State := {|
  Handlers.start_mcp_server := start_mcp_server;
  Handlers.shutdown_mcp_server := shutdown_mcp_server;
  Handlers.list_running_servers := list_running_servers;
  Handlers.execute_tool := execute_tool;
  Handlers.poll_task_result := poll_task_result;
  Handlers.content_get_content := content_get_content
|}.

End WithWorld.

Definition initial (pool : nat) : State :=
  {| registry := SessionRegistry.empty;
     executor := TaskExecutor.init pool;
     store := ∅;
     clock := 0 |}.

End Engine.

(* ===================================================================== *)
(** * Python dictionaries and the built-ins the glue code applies *)
(* ===================================================================== *)

Module PyDict.

(** A [dict] with string keys, in insertion order. *)
Abbreviation dict := (list (string * value)).

(** [d.get(k)] *)
Fixpoint dict_get (k : string) (d : dict) : option value :=
  match d with
  | [] => None
  | (k', v) :: d' => if k =? k' then Some v else dict_get k d'
  end.

(** [k in d] *)
Definition dict_has (k : string) (d : dict) : bool :=
  match dict_get k d with Some _ => true | None => false end.

(** [d.get(k, dflt)] *)
Definition dict_get_default (k : string) (dflt : value) (d : dict) : value :=
  default dflt (dict_get k d).

(** [d[k] = v]: an existing key keeps its place, a new one goes last. *)
Fixpoint dict_set (k : string) (v : value) (d : dict) : dict :=
  match d with
  | [] => [(k, v)]
  | (k', v') :: d' =>
      if k =? k' then (k', v) :: d' else (k', v') :: dict_set k v d'
  end.

(** [type(v).__name__] *)
Definition type_name (v : value) : string :=
  match v with
  | VNone => "NoneType"
  | VBool _ => "bool"
  | VInt _ => "int"
  | VStr _ => "str"
  | VList _ => "list"
  | VDict _ => "dict"
  end.

(** A computation that returns or raises an [Exception]. *)
Definition Py (A : Type) : Type := exn + A.

Definition lift {G A} (c : Py A) : M G A :=
  match c with
  | inl e => raise (Error e)
  | inr a => ret a
  end.

(** The characters of a text held as UTF-8: a byte [10xxxxxx] continues
    the character begun before it. *)
Definition is_continuation (c : ascii) : bool :=
  (128 <=? nat_of_ascii c)%nat && (nat_of_ascii c <? 192)%nat.

Fixpoint utf8_split (s : string) : string * list string :=
  match s with
  | EmptyString => (EmptyString, [])
  | String c s' =>
      let '(lead, chars) := utf8_split s' in
      if is_continuation c then (String c lead, chars)
      else (EmptyString, String c lead :: chars)
  end.

Definition utf8_chars (s : string) : list string :=
  let '(lead, chars) := utf8_split s in
  match lead with
  | EmptyString => chars
  | _ => lead :: chars
  end.

(** [for x in v]: a list gives its items, a dict its keys, a string its
    characters; nothing else can be iterated. *)
Definition py_iter (v : value) : Py (list value) :=
  match v with
  | VList l => inr l
  | VDict d => inr (VStr <$> d.*1)
  | VStr s => inr (VStr <$> utf8_chars s)
  | _ =>
      inl (Exn "TypeError"
               ("'" +:+ type_name v +:+ "' object is not iterable"))
  end.

(** [len(v)] *)
Definition py_len (v : value) : Py nat :=
  match v with
  | VList l => inr (length l)
  | VDict d => inr (length d)
  | VStr s => inr (length (utf8_chars s))
  | _ =>
      inl (Exn "TypeError"
               ("object of type '" +:+ type_name v +:+ "' has no len()"))
  end.

(** [v.items()] and [v.get]: only a dict has them. *)
Definition py_dict_of (attr : string) (v : value) : Py dict :=
  match v with
  | VDict d => inr d
  | _ =>
      inl (Exn "AttributeError"
               ("'" +:+ type_name v +:+ "' object has no attribute '"
                +:+ attr +:+ "'"))
  end.

(** A list comprehension whose element expression may raise: the first
    failure, in order, ends it. *)
Fixpoint py_map {A B} (f : A -> Py B) (l : list A) : Py (list B) :=
  match l with
  | [] => inr []
  | x :: l' =>
      match f x with
      | inl e => inl e
      | inr y =>
          match py_map f l' with
          | inl e => inl e
          | inr ys => inr (y :: ys)
          end
      end
  end.

(** [{k: v for k, v in tool.items() if k not in banned}] *)
Definition without_keys (banned : list string) (d : dict) : dict :=
  filter (fun kv => kv.1 ∉ banned) d.

(** [[{...} for tool in tools]] *)
Definition strip_keys (banned : list string) (tools : value)
  : Py (list value) :=
  match py_iter tools with
  | inl e => inl e
  | inr items =>
      py_map (fun tool =>
                match py_dict_of "items" tool with
                | inl e => inl e
                | inr d => inr (VDict (without_keys banned d))
                end) items
  end.

(** The line break of the f-strings and of [join]. *)
Definition nl : string := String "010"%char EmptyString.

End PyDict.

(* ===================================================================== *)
(** * [mcp_runtime/mcp_server.py]: the discovery handlers *)
(* ===================================================================== *)

Module DiscoveryHandlers.

Import PyDict.

(** The interface of [DiscoveryClient] as the handlers and tools use it:
    each call returns the decoded JSON object of the answer, or raises. *)
Class DiscoveryClient (S : Type) : Type := {
  (* query, limit, min_score, server_names *)
  dc_search_tools :
    string -> Z -> Q -> option (list string) -> M S dict;
  (* query, limit, min_score *)
  dc_search_servers : string -> Z -> Q -> M S dict;
  (* server_name, limit, offset *)
  dc_get_server_tools : string -> Z -> Z -> M S dict;
  (* limit, offset *)
  dc_list_servers : Z -> Z -> M S dict;
  dc_get_statistics : M S dict
}.

(** [_strip_tool_schema] of [mcp_runtime/mcp_server.py] *)
Definition _strip_tool_schema (tools : value) : Py (list value) :=
  strip_keys ["tool_schema"] tools.

(** [if "tools" in result: result["tools"] = strip(result["tools"])] *)
Definition strip_tools_in (strip : value -> Py (list value)) (result : dict)
  : Py dict :=
  if dict_has "tools" result then
    match strip (default VNone (dict_get "tools" result)) with
    | inl e => inl e
    | inr tools => inr (dict_set "tools" (VList tools) result)
    end
  else inr result.

(** What a caller sees of a discovery answer [result] whose tool list went
    through [strip]: the same keys in the same order, every key but
    ["tools"] with its value, and under ["tools"] the stripped list; or the
    error of the stripping. *)
Definition answers_stripped (strip : value -> Py (list value))
    (result : dict) (out : outcome value) : Prop :=
  match out with
  | Returned v =>
      exists result' : dict,
        v = VDict result'
        /\ result'.*1 = result.*1
        /\ (forall k, k <> "tools" -> dict_get k result' = dict_get k result)
        /\ match dict_get "tools" result with
           | None => dict_get "tools" result' = None
           | Some tools =>
               exists stripped,
                 strip tools = inr stripped
                 /\ dict_get "tools" result' = Some (VList stripped)
           end
  | Raised r =>
      exists tools e,
        dict_get "tools" result = Some tools
        /\ strip tools = inl e
        /\ r = Error e
  end.

Section WithClient.
Context {S : Type} `{DiscoveryClient S}.

(** [async def search_tools(query, limit=10, min_score=0.3,
    server_names=None)] *)
Definition search_tools_handler (query : string) (limit : Z) (min_score : Q)
    (server_names : option (list string)) : M (option S) value :=
  result ← Handlers.on_engine "discovery_client"
             (dc_search_tools query limit min_score server_names);
  result' ← lift (strip_tools_in _strip_tool_schema result);
  ret (VDict result').

(** [async def search_servers(query, limit=10, min_score=0.3)] *)
Definition search_servers_handler (query : string) (limit : Z)
    (min_score : Q) : M (option S) value :=
  result ← Handlers.on_engine "discovery_client"
             (dc_search_servers query limit min_score);
  ret (VDict result).

(** [async def get_server_tools(server_name, limit=50, offset=0)] *)
Definition get_server_tools_handler (server_name : string) (limit offset : Z)
  : M (option S) value :=
  result ← Handlers.on_engine "discovery_client"
             (dc_get_server_tools server_name limit offset);
  result' ← lift (strip_tools_in _strip_tool_schema result);
  ret (VDict result').

(** [async def list_servers(limit=50, offset=0)] *)
Definition list_servers_handler (limit offset : Z) : M (option S) value :=
  result ← Handlers.on_engine "discovery_client"
             (dc_list_servers limit offset);
  ret (VDict result).

(** [async def get_statistics()] *)
Definition get_statistics_handler : M (option S) value :=
  result ← Handlers.on_engine "discovery_client" dc_get_statistics;
  ret (VDict result).

End WithClient.

End DiscoveryHandlers.

(* ===================================================================== *)
(** * [mcpruntime/tools]: [GetServerToolsTool] and [ListServersTool] *)
(* ===================================================================== *)

Module ListingTools.

Import PyDict DiscoveryHandlers PollTool.

(** [_strip_tool_schema] of [tools/get_server_tools.py] *)
Definition _strip_tool_schema (tools : value) : Py (list value) :=
  strip_keys ["tool_schema"; "inputSchema"] tools.

Section WithClient.
Context {S : Type} `{DiscoveryClient S}.
(** [json.dumps(..., indent=2)], the JSON library's. *)
Variable json_dumps : value -> string.

Definition tools_guidance (server_name : string) : string :=
  "Next steps:" +:+ nl
  +:+ "- Use get_tool_details to see full schema before execution" +:+ nl
  +:+ "- Use manage_server('" +:+ server_name
  +:+ "', 'start') to start the server" +:+ nl
  +:+ "- Use execute_tool to run a tool after starting the server".

(** [GetServerToolsTool.__call__(server_name, limit=50, offset=0)] *)
Definition get_server_tools_call (server_name : string) (limit offset : Z)
  : M S ToolResult :=
  try_except
    (result ← dc_get_server_tools server_name limit offset;
     result' ← lift (strip_tools_in _strip_tool_schema result);
     tools_count ← lift (py_len (dict_get_default "tools" (VList []) result'));
     ret ["Found " +:+ pretty (tools_count : nat) +:+ " tools on server '"
            +:+ server_name +:+ "'";
          json_dumps (VDict result');
          tools_guidance server_name])
    (fun e => ret ["Failed to get server tools: " +:+ exn_str e]).

Definition servers_guidance : string :=
  "Next steps:" +:+ nl
  +:+ "- Use get_server_info to see detailed capabilities" +:+ nl
  +:+ "- Use get_server_tools to list tools on a specific server" +:+ nl
  +:+ "- Use search_tools for semantic search across all servers".

(** [ListServersTool.__call__(limit=50, offset=0)] *)
Definition list_servers_call (limit offset : Z) : M S ToolResult :=
  try_except
    (result ← dc_list_servers limit offset;
     servers_count ←
       lift (py_len (dict_get_default "servers" (VList []) result));
     ret ["Listed " +:+ pretty (servers_count : nat) +:+ " servers";
          json_dumps (VDict result);
          servers_guidance])
    (fun e => ret ["Failed to list servers: " +:+ exn_str e]).

End WithClient.

End ListingTools.

(* ===================================================================== *)
(** * [mcpruntime/mcp_server.py]: what [lifespan] prepares for the router *)
(* ===================================================================== *)

Module Lifespan.

Import PyDict DiscoveryHandlers.

(** [stats.get("total_servers", 0)] compared with [0]: an [int] (or a
    [bool], which is an [int]) can be compared, nothing else of what JSON
    decodes to. *)
Definition total_servers (stats : dict) : Py Z :=
  match dict_get_default "total_servers" (VInt 0) stats with
  | VInt z => inr z
  | VBool b => inr (Z.b2z b)
  | v =>
      inl (Exn "TypeError"
               ("'>' not supported between instances of '" +:+ type_name v
                +:+ "' and 'int'"))
  end.

(** [limit=total_servers if total_servers > 0 else 50] *)
Definition listing_limit (total : Z) : Z :=
  if (total >? 0)%Z then total else 50.

(** The [item] dumped for one server. *)
Definition server_item (server : dict) : value :=
  VDict [("server_name", dict_get_default "name" VNone server);
         ("title", dict_get_default "title" VNone server);
         ("nb_tools", dict_get_default "nbTools" (VInt 0) server)].

Section WithClient.
Context {S : Type} `{DiscoveryClient S}.
(** [yaml.dump(item, sort_keys=False)], the YAML library's. *)
Variable yaml_dump : value -> string.

(** [indexed_servers], the list built by the [for] loop. *)
Definition indexed_servers (servers_info : dict) : Py (list string) :=
  match py_iter (dict_get_default "servers" (VList []) servers_info) with
  | inl e => inl e
  | inr servers =>
      py_map (fun server =>
                match py_dict_of "get" server with
                | inl e => inl e
                | inr d => inr (yaml_dump (server_item d))
                end) servers
  end.

(** [servers_list_msg] *)
Definition servers_list_msg (indexed : list string) : string :=
  match indexed with
  | [] => "No servers indexed yet"
  | _ => String.concat (nl +:+ "###" +:+ nl) indexed
  end.

(** The part of [lifespan] between [register_tools] and
    [define_semantic_router]: the statistics, the listing, the message.
    It returns [total_servers] and the message. *)
Definition router_listing : M S (Z * string) :=
  stats ← dc_get_statistics;
  total ← lift (total_servers stats);
  servers_info ← dc_list_servers (listing_limit total) 0;
  indexed ← lift (indexed_servers servers_info);
  ret (total, servers_list_msg indexed).

End WithClient.

End Lifespan.

(* ===================================================================== *)
(** * The operations of the router *)
(* ===================================================================== *)

Module RouterTable.

(** The twelve operations of the [Literal] type of [operation], which are
    the twelve [case] labels of [semantic_router]. *)
Definition known_operations : list string :=
  ["search_tools"; "search_servers"; "get_server_info"; "get_server_tools";
   "get_tool_details"; "list_servers"; "manage_server";
   "list_running_servers"; "execute_tool"; "poll_task_result";
   "get_content"; "get_statistics"].

(** The parameters an operation cannot do without: the "Required:" lines
    of the router's description, which are the [is None] guards of the
    [case] branches. *)
Definition required_params (op : string) : list string :=
  if op =? "search_tools" then ["query"]
  else if op =? "search_servers" then ["query"]
  else if op =? "get_server_info" then ["server_name"]
  else if op =? "get_server_tools" then ["server_name"]
  else if op =? "get_tool_details" then ["server_name"; "tool_name"]
  else if op =? "manage_server" then ["server_name"]
  else if op =? "execute_tool" then ["server_name"; "tool_name"]
  else if op =? "poll_task_result" then ["task_id"]
  else if op =? "get_content" then ["ref_id"]
  else [].

(** Whether the caller gave the parameter: it is not [None]. *)
Definition is_given (a : Router.RouterArgs) (param : string) : bool :=
  if param =? "query" then bool_decide (Router.query a <> None)
  else if param =? "server_name" then bool_decide (Router.server_name a <> None)
  else if param =? "tool_name" then bool_decide (Router.tool_name a <> None)
  else if param =? "task_id" then bool_decide (Router.task_id a <> None)
  else if param =? "ref_id" then bool_decide (Router.ref_id a <> None)
  else true.

Definition all_given (a : Router.RouterArgs) : bool :=
  forallb (is_given a) (required_params (Router.operation a)).

(** The text that names the required parameters of an operation. *)
Definition required_text (params : list string) : string :=
  match params with
  | [p] => "'" +:+ p +:+ "' is required"
  | [p; q] => "'" +:+ p +:+ "' and '" +:+ q +:+ "' are required"
  | _ => EmptyString
  end.

Definition missing_answer (op : string) : string :=
  "Error: " +:+ required_text (required_params op) +:+ " for " +:+ op.

End RouterTable.

(* ===================================================================== *)
(** * Concrete inputs used by the examples below *)
(* ===================================================================== *)

Module Samples.

Import Models.

(** A network configuration without a URL. *)
Definition sse_config : McpStartupConfig :=
  {| server_name := "svc"; transport := "sse"; command := None;
     args := []; env := ∅; url := None; headers := ∅;
     timeout := (30 # 1)%Q |}.

Definition stdio_config : McpStartupConfig :=
  {| server_name := "svc"; transport := "stdio"; command := Some "npx";
     args := ["-y"; "@mcp/filesystem"]; env := ∅; url := None;
     headers := ∅; timeout := (30 # 1)%Q |}.

Definition stdio_no_command : McpStartupConfig :=
  {| server_name := "svc"; transport := "stdio"; command := None;
     args := []; env := ∅; url := None; headers := ∅;
     timeout := (30 # 1)%Q |}.

Definition http_no_url : McpStartupConfig :=
  {| server_name := "svc"; transport := "http"; command := None;
     args := []; env := ∅; url := None; headers := ∅;
     timeout := (30 # 1)%Q |}.

(** A world in which every server has [stdio_config], spawning succeeds
    with handle 7, nothing is captioned and every tool answers with one
    short text block. *)
Definition fetch_ok (name : string) : string + McpStartupConfig :=
  inr stdio_config.

Definition spawn_ok (cfg : McpStartupConfig) : string + nat := inr 7.

Definition no_caption (data mimeType : string) : option string := None.

Definition invoke_ok (server tool : string) (args : option value)
    (timeout : Q) : Engine.RemoteOutcome :=
  Engine.RemoteOk [ContentStore.TextBlock "ok"].

Definition world : Handlers.RuntimeEngine Engine.State :=
  Engine.engine fetch_ok spawn_ok no_caption invoke_ok 10 false
    ContentStore.FirstChunk.

(** An engine whose every call fails with the same exception. *)
Definition failing (e : exn) : Handlers.RuntimeEngine unit :=
  {| Handlers.start_mcp_server := fun _ => raise (Error e);
     Handlers.shutdown_mcp_server := fun _ => raise (Error e);
     Handlers.list_running_servers := raise (Error e);
     Handlers.execute_tool := fun _ _ _ _ _ _ => raise (Error e);
     Handlers.poll_task_result := fun _ => raise (Error e);
     Handlers.content_get_content := fun _ _ => raise (Error e) |}.

(** Twenty-five characters: five times ["word "]. *)
Definition sample_text : string := "word word word word word ".

Definition sample_image : ContentStore.ContentBlock :=
  ContentStore.ImageBlock "base64data" "image/png".

Definition sample_blocks : list ContentStore.ContentBlock :=
  [ContentStore.TextBlock sample_text; sample_image;
   ContentStore.TextBlock "Hello"].

(** Two workers.  Two tasks occupy them; while both are busy a task of
    priority 2 and then one of priority 1 are submitted. *)
Definition busy_then_two : list TaskExecutor.Event :=
  [TaskExecutor.Submit "svc" "a" None 0;
   TaskExecutor.Submit "svc" "b" None 0;
   TaskExecutor.Dispatch; TaskExecutor.Dispatch;
   TaskExecutor.Submit "svc" "slow" None 2;
   TaskExecutor.Submit "svc" "fast" None 1].

(** Both workers come free; the priority-1 task is dequeued first, the
    priority-2 task second, and the latter's call returns first. *)
Definition second_returns_first : list TaskExecutor.Event :=
  [TaskExecutor.Finish "0" (TaskExecutor.Succeeded VNone);
   TaskExecutor.Dispatch;
   TaskExecutor.Finish "1" (TaskExecutor.Succeeded VNone);
   TaskExecutor.Dispatch;
   TaskExecutor.Finish "2" (TaskExecutor.Succeeded VNone);
   TaskExecutor.Finish "3" (TaskExecutor.Succeeded VNone)].

(** Both workers come free in turn and each takes the next task. *)
Definition both_dequeued : list TaskExecutor.Event :=
  [TaskExecutor.Finish "0" (TaskExecutor.Succeeded VNone);
   TaskExecutor.Dispatch;
   TaskExecutor.Finish "1" (TaskExecutor.Succeeded VNone);
   TaskExecutor.Dispatch].

(** The state after a run, or the initial state when the run is stuck. *)
Definition after (pool : nat) (evs : list TaskExecutor.Event)
  : TaskExecutor.Executor :=
  default (TaskExecutor.init pool)
          (TaskExecutor.run evs (TaskExecutor.init pool)).

(** One task submitted, started and completed with the result ["done"]. *)
Definition one_completed : list TaskExecutor.Event :=
  [TaskExecutor.Submit "svc" "tool" None 1; TaskExecutor.Dispatch;
   TaskExecutor.Finish "0" (TaskExecutor.Succeeded (VStr "done"))].

End Samples.

Module MoreSamples.

Import PyDict DiscoveryHandlers.

(** Two tools as the discovery service lists them. *)
Definition tool_read : dict :=
  [("tool_name", VStr "read"); ("tool_schema", VDict [("type", VStr "object")]);
   ("server_name", VStr "fs"); ("inputSchema", VDict [])].

Definition tool_write : dict :=
  [("tool_name", VStr "write"); ("server_name", VStr "fs")].

Definition tools_answer : dict :=
  [("tools", VList [VDict tool_read; VDict tool_write]);
   ("total_results", VInt 2)].

(** An answer whose tool list is [null]. *)
Definition null_tools_answer : dict :=
  [("tools", VNone); ("total_results", VInt 0)].

Definition servers_answer : dict :=
  [("servers", VList [VDict [("name", VStr "fs"); ("title", VStr "Files");
                             ("nbTools", VInt 2)];
                      VDict [("name", VStr "web")]]);
   ("total", VInt 2)].

Definition stats_answer : dict :=
  [("total_servers", VInt 2); ("total_tools", VInt 7)].

(** A discovery service that always gives these answers. *)
Definition client : DiscoveryClient unit :=
  {| dc_search_tools := fun _ _ _ _ => ret tools_answer;
     dc_search_servers := fun _ _ _ => ret servers_answer;
     dc_get_server_tools := fun _ _ _ => ret tools_answer;
     dc_list_servers := fun _ _ => ret servers_answer;
     dc_get_statistics := ret stats_answer |}.

(** One that cannot be reached. *)
Definition unreachable : DiscoveryClient unit :=
  {| dc_search_tools :=
       fun _ _ _ _ => raise (Error (Exn "ConnectError" "connection refused"));
     dc_search_servers :=
       fun _ _ _ => raise (Error (Exn "ConnectError" "connection refused"));
     dc_get_server_tools :=
       fun _ _ _ => raise (Error (Exn "ConnectError" "connection refused"));
     dc_list_servers :=
       fun _ _ => raise (Error (Exn "ConnectError" "connection refused"));
     dc_get_statistics :=
       raise (Error (Exn "ConnectError" "connection refused")) |}.

(** One whose listings carry [null] where a list is expected. *)
Definition null_client : DiscoveryClient unit :=
  {| dc_search_tools := fun _ _ _ _ => ret null_tools_answer;
     dc_search_servers := fun _ _ _ => ret [("servers", VNone)];
     dc_get_server_tools := fun _ _ _ => ret null_tools_answer;
     dc_list_servers := fun _ _ => ret [("servers", VNone)];
     dc_get_statistics := ret [("total_servers", VNone)] |}.

(** An engine whose poll always gives the same triple. *)
Definition polling (t : bool * option value * option string)
  : Handlers.RuntimeEngine unit :=
  {| Handlers.start_mcp_server := fun _ => ret (true, "started");
     Handlers.shutdown_mcp_server := fun _ => ret (true, "stopped");
     Handlers.list_running_servers := ret [];
     Handlers.execute_tool := fun _ _ _ _ _ _ => ret VNone;
     Handlers.poll_task_result := fun _ => ret t;
     Handlers.content_get_content := fun _ _ => ret VNone |}.



(** A request to run a tool in the background, every parameter of the
    operation set away from its default. *)
Definition execute_request : Router.RouterArgs :=
  {| Router.operation := "execute_tool";
     Router.query := None;
     Router.limit := 10;
     Router.min_score := (3 # 10)%Q;
     Router.server_name := Some "fs";
     Router.server_names := None;
     Router.tool_name := Some "read";
     Router.tool_type := None;
     Router.enabled := true;
     Router.offset := 0;
     Router.action := "start";
     Router.arguments := Some (VDict [("path", VStr "/etc/hosts")]);
     Router.timeout := (5 # 1)%Q;
     Router.in_background := true;
     Router.priority := 3;
     Router.task_id := None;
     Router.ref_id := None;
     Router.chunk_index := None |}.

(** A search for ten tools of two servers, disabled ones included. *)
Definition search_request : Router.RouterArgs :=
  {| Router.operation := "search_tools";
     Router.query := Some "read a file";
     Router.limit := 10;
     Router.min_score := (1 # 2)%Q;
     Router.server_name := None;
     Router.server_names := Some ["fs"; "web"];
     Router.tool_name := None;
     Router.tool_type := Some "mcp";
     Router.enabled := false;
     Router.offset := 0;
     Router.action := "start";
     Router.arguments := None;
     Router.timeout := (60 # 1)%Q;
     Router.in_background := false;
     Router.priority := 1;
     Router.task_id := None;
     Router.ref_id := None;
     Router.chunk_index := None |}.

(** Stand-ins for the JSON and YAML printers: the type of the value. *)
Definition show (v : value) : string := type_name v.

End MoreSamples.

(* ===================================================================== *)
(** * Properties: the start-up configuration *)
(* ===================================================================== *)

Import Models.

Lemma truthy_str_None : truthy_str None = false.
Proof. reflexivity. Qed.

Lemma validate_stdio_requires_command (cfg : McpStartupConfig) :
  transport cfg = "stdio" ->
  truthy_str (command cfg) = false ->
  validate_transport cfg = inl "stdio transport requires 'command'".
Proof.
  intros Ht Hc. unfold validate_transport.
  rewrite Ht, Hc. reflexivity.
Qed.

Lemma validate_http_requires_url (cfg : McpStartupConfig) :
  transport cfg = "http" ->
  truthy_str (url cfg) = false ->
  validate_transport cfg = inl "http transport requires 'url'".
Proof.
  intros Ht Hu. unfold validate_transport.
  rewrite Ht, Hu. reflexivity.
Qed.

Lemma validate_accepts (cfg : McpStartupConfig) :
  (transport cfg = "stdio" -> truthy_str (command cfg) = true) ->
  (transport cfg = "http" -> truthy_str (url cfg) = true) ->
  validate_transport cfg = inr cfg.
Proof.
  intros Hs Hh. unfold validate_transport.
  destruct (String.eqb_spec (transport cfg) "stdio") as [Es|Es].
  - rewrite (Hs Es). simpl.
    destruct (String.eqb_spec (transport cfg) "http") as [Eh|Eh].
    + rewrite (Hh Eh). reflexivity.
    + reflexivity.
  - simpl.
    destruct (String.eqb_spec (transport cfg) "http") as [Eh|Eh].
    + rewrite (Hh Eh). reflexivity.
    + reflexivity.
Qed.

Lemma append_nil_r' (s : string) : s +:+ EmptyString = s.
Proof.
  induction s as [|c s IH]; [reflexivity|].
  change (String c s +:+ EmptyString) with (String c (s +:+ EmptyString)).
  now rewrite IH.
Qed.

(** Only the transports ["stdio"] and ["http"] are looked at. *)
Lemma validate_other_transport (cfg : McpStartupConfig) :
  transport cfg <> "stdio" -> transport cfg <> "http" ->
  validate_transport cfg = inr cfg.
Proof.
  intros Hs Hh. apply validate_accepts; intros E; contradiction.
Qed.

(** C3, as stated, fails: a configuration with the network transport
    ["sse"] and no URL passes validation, so "every non-stdio transport
    without a URL is rejected" does not hold. *)
Lemma C3_network_without_url_is_accepted :
  ~ (forall cfg : McpStartupConfig,
        transport cfg <> "stdio" -> url cfg = None ->
        exists msg, validate_transport cfg = inl msg).
Proof.
  intros H.
  destruct (H Samples.sse_config) as [msg Hmsg].
  - discriminate.
  - reflexivity.
  - vm_compute in Hmsg. discriminate.
Qed.

(** The message of a rejection names what is required. *)
Lemma value_error_mentions (title message : string) :
  ContentStore.mentions (ve_msg (value_error title message)) message.
Proof. exists "Value error, ", EmptyString. simpl. now rewrite append_nil_r'. Qed.

(** C3 (amended): building a configuration with transport ["stdio"] and
    no command fails validation with a message requiring ['command'] for
    the stdio transport, and building one with transport ["http"] and no
    URL fails validation with a message requiring ['url']; both happen
    when the model is built, as a [ValidationError] carrying the
    validator's message.  A configuration that satisfies the requirement
    of its transport is built as given; a transport other than ["stdio"]
    and ["http"] has no requirement. *)
Theorem C3_validate_transport
    (name : string) (transport : option string) (command : option string)
    (args : option (list string)) (env : option (gmap string string))
    (url : option string) (headers : option (gmap string string))
    (timeout : option Q) :
  let built := McpStartupConfig_new name transport command args env url
                 headers timeout in
  let kind := default "stdio" transport in
  (kind = "stdio" -> truthy_str command = false ->
   exists e, built = inl e
             /\ ve_type e = "value_error"
             /\ ContentStore.mentions (ve_msg e)
                  "stdio transport requires 'command'")
  /\ (kind = "http" -> truthy_str url = false ->
      exists e, built = inl e
                /\ ve_type e = "value_error"
                /\ ContentStore.mentions (ve_msg e)
                     "http transport requires 'url'")
  /\ ((kind = "stdio" -> truthy_str command = true) ->
      (kind = "http" -> truthy_str url = true) ->
      exists cfg, built = inr cfg
                  /\ Models.transport cfg = kind
                  /\ Models.command cfg = command
                  /\ Models.url cfg = url
                  /\ Models.server_name cfg = name)
  /\ (kind <> "stdio" -> kind <> "http" -> exists cfg, built = inr cfg).
Proof.
  intros built kind. subst built. unfold McpStartupConfig_new.
  set (raw := {| server_name := name;
                 transport := default "stdio" transport;
                 command := command;
                 args := default [] args;
                 env := default ∅ env;
                 url := url;
                 headers := default ∅ headers;
                 timeout := default (30 # 1)%Q timeout |}).
  split.
  { intros Hk Hc.
    rewrite (validate_stdio_requires_command raw Hk Hc).
    eexists. split; [reflexivity|]. split; [reflexivity|].
    apply value_error_mentions. }
  split.
  { intros Hk Hu.
    rewrite (validate_http_requires_url raw Hk Hu).
    eexists. split; [reflexivity|]. split; [reflexivity|].
    apply value_error_mentions. }
  split.
  { intros Hs Hh. rewrite (validate_accepts raw Hs Hh).
    exists raw. repeat split. }
  intros Hs Hh. rewrite (validate_other_transport raw Hs Hh). eauto.
Qed.

Lemma C3_validate_transport_witness :
  (exists e,
      McpStartupConfig_new "svc" (Some "stdio") None None None None None None
      = inl e
      /\ ve_type e = "value_error"
      /\ ContentStore.mentions (ve_msg e) "stdio transport requires 'command'")
  /\ (exists e,
        McpStartupConfig_new "svc" (Some "http") None None None None None None
        = inl e
        /\ ve_type e = "value_error"
        /\ ContentStore.mentions (ve_msg e) "http transport requires 'url'")
  /\ (exists cfg,
        McpStartupConfig_new "svc" None (Some "npx") None None None None None
        = inr cfg)
  /\ (exists cfg,
        McpStartupConfig_new "svc" (Some "sse") None None None None None None
        = inr cfg).
Proof.
  split.
  { apply (C3_validate_transport "svc" (Some "stdio") None None None None
             None None); reflexivity. }
  split.
  { apply (C3_validate_transport "svc" (Some "http") None None None None
             None None); reflexivity. }
  split.
  { destruct (C3_validate_transport "svc" None (Some "npx") None None None
                None None) as (_ & _ & H3 & _).
    destruct H3 as (cfg & Hc & _);
      [reflexivity | simpl; discriminate | eauto]. }
  { apply (C3_validate_transport "svc" (Some "sse") None None None None
             None None); simpl; discriminate. }
Defined.

(* ===================================================================== *)
(** * Properties: the tool-surface handlers *)
(* ===================================================================== *)

Section HandlerFacts.
Context {S : Type} (E : Handlers.RuntimeEngine S).

Import Handlers.

(** A call on the engine global, in terms of the method it runs. *)
Lemma on_engine_some {A} (attr : string) (m : M S A) (s : S) :
  on_engine attr m (Some s) = ((m s).1, Some (m s).2).
Proof. unfold on_engine. destruct (m s); reflexivity. Qed.

Lemma on_engine_none {A} (attr : string) (m : M S A) :
  on_engine attr m None = (Raised (Error (attribute_error attr)), None).
Proof. reflexivity. Qed.

(** A guarded body answers with its own value, or with the handler's when
    an [Exception] was raised; an [Exception] never leaves the clause when
    the handler itself returns. *)
Lemma try_except_no_error {G A} (body : M G A) (h : exn -> M G A) (g : G) :
  (forall e g1, exists a g2, h e g1 = (Returned a, g2)) ->
  forall e g', try_except body h g <> (Raised (Error e), g').
Proof.
  intros Hh e g'. unfold try_except.
  destruct (body g) as [[a|[e0|sg]] g0]; try discriminate.
  destruct (Hh e0 g0) as (a & g2 & ->). discriminate.
Qed.

Lemma execute_tool_handler_returned sn tn args t bg p (s s' : S) r :
  execute_tool sn tn args t bg p s = (Returned r, s') ->
  execute_tool_handler sn tn args t bg p (Some s)
  = (Returned (VDict [("success", VBool true); ("result", r)]), Some s').
Proof.
  intros Hc. unfold execute_tool_handler, try_except, mbind, M_bind, bind.
  rewrite on_engine_some, Hc. reflexivity.
Qed.

Lemma execute_tool_handler_error sn tn args t bg p (s s' : S) e :
  execute_tool sn tn args t bg p s = (Raised (Error e), s') ->
  execute_tool_handler sn tn args t bg p (Some s)
  = (Returned (VDict [("success", VBool false);
                      ("error", VStr (exn_str e))]), Some s').
Proof.
  intros Hc. unfold execute_tool_handler, try_except, mbind, M_bind, bind.
  rewrite on_engine_some, Hc. reflexivity.
Qed.

Lemma get_content_handler_returned ref_id idx (s s' : S) c :
  content_get_content ref_id idx s = (Returned c, s') ->
  get_content_handler ref_id idx (Some s)
  = (Returned (VDict [("success", VBool true); ("content", c)]), Some s').
Proof.
  intros Hc. unfold get_content_handler, try_except, mbind, M_bind, bind.
  rewrite on_engine_some, Hc. reflexivity.
Qed.

Lemma get_content_handler_error ref_id idx (s s' : S) e :
  content_get_content ref_id idx s = (Raised (Error e), s') ->
  get_content_handler ref_id idx (Some s)
  = (Returned (VDict [("success", VBool false);
                      ("error", VStr (exn_str e))]), Some s').
Proof.
  intros Hc. unfold get_content_handler, try_except, mbind, M_bind, bind.
  rewrite on_engine_some, Hc. reflexivity.
Qed.

(** What is not an [Exception] is not caught: a cancellation or an
    interrupt passes through both handlers. *)
Lemma execute_tool_handler_signal sn tn args t bg p (s s' : S) name :
  execute_tool sn tn args t bg p s = (Raised (Signal name), s') ->
  execute_tool_handler sn tn args t bg p (Some s)
  = (Raised (Signal name), Some s').
Proof.
  intros Hc. unfold execute_tool_handler, try_except, mbind, M_bind, bind.
  rewrite on_engine_some, Hc. reflexivity.
Qed.

(** C5: whatever the input, when the engine call returns, [execute_tool]
    and [get_content] answer [success = true] with the result; when it
    raises an error, they answer [success = false] with the error's
    message; before the engine exists they answer the same way with the
    attribute error; and no error ever leaves either handler. *)
Theorem C5_handlers_return_structured_failure :
  (forall sn tn args t bg p (s : S),
      match execute_tool sn tn args t bg p s with
      | (Returned r, s') =>
          execute_tool_handler sn tn args t bg p (Some s)
          = (Returned (VDict [("success", VBool true); ("result", r)]),
             Some s')
      | (Raised (Error e), s') =>
          execute_tool_handler sn tn args t bg p (Some s)
          = (Returned (VDict [("success", VBool false);
                              ("error", VStr (exn_str e))]), Some s')
      | (Raised (Signal _), _) => True
      end)
  /\ (forall ref_id idx (s : S),
      match content_get_content ref_id idx s with
      | (Returned c, s') =>
          get_content_handler ref_id idx (Some s)
          = (Returned (VDict [("success", VBool true); ("content", c)]),
             Some s')
      | (Raised (Error e), s') =>
          get_content_handler ref_id idx (Some s)
          = (Returned (VDict [("success", VBool false);
                              ("error", VStr (exn_str e))]), Some s')
      | (Raised (Signal _), _) => True
      end)
  /\ (forall sn tn args t bg p,
        execute_tool_handler sn tn args t bg p None
        = (Returned (VDict [("success", VBool false);
             ("error", VStr (exn_str (attribute_error "execute_tool")))]),
           None))
  /\ (forall ref_id idx,
        get_content_handler ref_id idx None
        = (Returned (VDict [("success", VBool false);
             ("error", VStr (exn_str (attribute_error "content_manager")))]),
           None))
  /\ (forall sn tn args t bg p g e g',
        execute_tool_handler sn tn args t bg p g <> (Raised (Error e), g'))
  /\ (forall ref_id idx g e g',
        get_content_handler ref_id idx g <> (Raised (Error e), g')).
Proof.
  split.
  { intros sn tn args t bg p s.
    destruct (execute_tool sn tn args t bg p s) as [[r|[e|sg]] s'] eqn:Hc.
    - exact (execute_tool_handler_returned _ _ _ _ _ _ _ _ _ Hc).
    - exact (execute_tool_handler_error _ _ _ _ _ _ _ _ _ Hc).
    - exact I. }
  split.
  { intros ref_id idx s.
    destruct (content_get_content ref_id idx s) as [[r|[e|sg]] s'] eqn:Hc.
    - exact (get_content_handler_returned _ _ _ _ _ Hc).
    - exact (get_content_handler_error _ _ _ _ _ Hc).
    - exact I. }
  split; [reflexivity|].
  split; [reflexivity|].
  split.
  - intros sn tn args t bg p g e g'.
    apply try_except_no_error. intros e0 g1. eexists _, _. reflexivity.
  - intros ref_id idx g e g'.
    apply try_except_no_error. intros e0 g1. eexists _, _. reflexivity.
Qed.

(** C10: for every action other than ["start"] and ["shutdown"],
    [manage_server] answers [success = false] with a message naming the
    action, and leaves the engine — whatever it is — exactly as it was:
    no method of the engine is run. *)
Theorem C10_manage_server_invalid_action
    (server_name action : string) (g : option S) :
  action <> "start" -> action <> "shutdown" ->
  manage_server server_name action g
  = (Returned
       (VDict [("success", VBool false);
               ("message",
                VStr ("Invalid action: " +:+ action
                      +:+ ". Use 'start' or 'shutdown'"))]),
     g).
Proof.
  intros Hs Hd. unfold manage_server.
  apply String.eqb_neq in Hs. apply String.eqb_neq in Hd.
  rewrite Hs, Hd. reflexivity.
Qed.

(** The two valid actions do go to the engine. *)
Lemma manage_server_start (server_name : string) (s : S) :
  manage_server server_name "start" (Some s)
  = match start_mcp_server server_name s with
    | (Returned (success, message), s') =>
        (Returned (VDict [("success", VBool success);
                          ("message", VStr message)]), Some s')
    | (Raised r, s') => (Raised r, Some s')
    end.
Proof.
  unfold manage_server. simpl. unfold mbind, M_bind, bind.
  rewrite on_engine_some.
  destruct (start_mcp_server server_name s) as [[[b m]|r] s']; reflexivity.
Qed.

(** The handler of [mcp_runtime/mcp_server.py] on the triple the engine
    returns. *)
Lemma poll_task_result_handler_cases (task_id : string) (s s' : S)
    (is_done : bool) (result : option value) (error : option string) :
  poll_task_result task_id s = (Returned (is_done, result, error), s') ->
  poll_task_result_handler task_id (Some s)
  = (Returned
       (if truthy_str error then
          VDict [("status", VStr "error"); ("error", of_opt_str error)]
        else if is_done then
          VDict [("status", VStr "completed"); ("result", of_opt result)]
        else VDict [("status", VStr "running")]),
     Some s').
Proof.
  intros Hc. unfold poll_task_result_handler, mbind, M_bind, bind.
  rewrite on_engine_some, Hc. simpl.
  destruct (truthy_str error); [reflexivity|].
  destruct is_done; reflexivity.
Qed.

(** It has no guard of its own: what the engine raises goes through. *)
Lemma poll_task_result_handler_raises (task_id : string) (s s' : S) r :
  poll_task_result task_id s = (Raised r, s') ->
  poll_task_result_handler task_id (Some s) = (Raised r, Some s').
Proof.
  intros Hc. unfold poll_task_result_handler, mbind, M_bind, bind.
  rewrite on_engine_some, Hc. reflexivity.
Qed.

End HandlerFacts.

Lemma C10_manage_server_invalid_action_witness :
  Handlers.manage_server (H := Samples.world) "svc" "restart"
    (Some (Engine.initial 2))
  = (Returned
       (VDict [("success", VBool false);
               ("message",
                VStr "Invalid action: restart. Use 'start' or 'shutdown'")]),
     Some (Engine.initial 2)).
Proof.
  apply (C10_manage_server_invalid_action Samples.world "svc" "restart"
           (Some (Engine.initial 2)));
    discriminate.
Defined.

(* ===================================================================== *)
(** * Properties: the semantic router *)
(* ===================================================================== *)

Section RouterFacts.
Import Router.

Lemma listing_limit_10 : listing_limit 10 = 50%Z.
Proof. reflexivity. Qed.

Lemma listing_limit_not_10 (limit : Z) : listing_limit limit <> 10%Z.
Proof.
  unfold listing_limit. destruct (Z.eqb_spec limit 10); simpl; lia.
Qed.

Lemma listing_limit_other (limit : Z) :
  limit <> 10%Z -> listing_limit limit = limit.
Proof.
  intros H. unfold listing_limit.
  destruct (Z.eqb_spec limit 10); simpl; congruence.
Qed.

Lemma dispatch_list_servers (a : RouterArgs) :
  operation a = "list_servers" ->
  dispatch a = Delegate (CallListServers (listing_limit (limit a)) (offset a)).
Proof.
  intros Hop. unfold dispatch. rewrite Hop. reflexivity.
Qed.

Lemma dispatch_get_server_tools (a : RouterArgs) (s : string) :
  operation a = "get_server_tools" ->
  server_name a = Some s ->
  dispatch a
  = Delegate (CallGetServerTools s (listing_limit (limit a)) (offset a)).
Proof.
  intros Hop Hs. unfold dispatch. rewrite Hop, Hs. reflexivity.
Qed.

(** Which calls a dispatch can end in, operation by operation. *)
Ltac split_dispatch :=
  unfold dispatch, required;
  repeat match goal with
         | |- context [if ?s =? ?t then _ else _] =>
             destruct (String.eqb_spec s t)
         | |- context [match ?o with Some _ => _ | None => _ end] =>
             destruct o
         end.

Lemma dispatch_list_servers_inv (a : RouterArgs) (l o : Z) :
  dispatch a = Delegate (CallListServers l o) ->
  operation a = "list_servers"
  /\ l = listing_limit (limit a) /\ o = offset a.
Proof.
  split_dispatch; intros Hd; try discriminate.
  inversion Hd. auto.
Qed.

Lemma dispatch_get_server_tools_inv (a : RouterArgs) (s : string) (l o : Z) :
  dispatch a = Delegate (CallGetServerTools s l o) ->
  operation a = "get_server_tools"
  /\ l = listing_limit (limit a) /\ o = offset a.
Proof.
  split_dispatch; intros Hd; try discriminate.
  inversion Hd. auto.
Qed.

(** C9: through the router, ["list_servers"] and ["get_server_tools"]
    hand the listing call the limit 50 when the caller's limit is exactly
    10 and the caller's own limit otherwise; so the listing call is never
    made with limit 10, whatever the arguments. *)
Theorem C9_router_replaces_limit_10 (a : RouterArgs) :
  (operation a = "list_servers" ->
   dispatch a
   = Delegate (CallListServers (if (limit a =? 10)%Z then 50 else limit a)
                               (offset a)))
  /\ (forall s, operation a = "get_server_tools" -> server_name a = Some s ->
      dispatch a
      = Delegate (CallGetServerTools s
                    (if (limit a =? 10)%Z then 50 else limit a) (offset a)))
  /\ (forall l o, dispatch a = Delegate (CallListServers l o) ->
        l <> 10%Z /\ (limit a <> 10%Z -> l = limit a))
  /\ (forall s l o, dispatch a = Delegate (CallGetServerTools s l o) ->
        l <> 10%Z /\ (limit a <> 10%Z -> l = limit a))
  /\ (forall (S : Type) (call_tool : ToolCall -> M S PollTool.ToolResult),
        operation a = "list_servers" ->
        semantic_router call_tool a
        = try_except
            (call_tool (CallListServers
                          (if (limit a =? 10)%Z then 50 else limit a)
                          (offset a)))
            (fun e => ret ["Router failed: " +:+ exn_str e])).
Proof.
  assert (Hl : forall z, listing_limit z = if (z =? 10)%Z then 50%Z else z).
  { intros z. unfold listing_limit. destruct (z =? 10)%Z; reflexivity. }
  split; [rewrite <- Hl; apply dispatch_list_servers|].
  split; [intros s; rewrite <- Hl; apply dispatch_get_server_tools|].
  split.
  { intros l o Hd. apply dispatch_list_servers_inv in Hd as (_ & -> & _).
    split; [apply listing_limit_not_10 | apply listing_limit_other]. }
  split.
  { intros s l o Hd.
    apply dispatch_get_server_tools_inv in Hd as (_ & -> & _).
    split; [apply listing_limit_not_10 | apply listing_limit_other]. }
  intros S call_tool Hop. unfold semantic_router.
  rewrite (dispatch_list_servers a Hop), Hl. reflexivity.
Qed.

End RouterFacts.

Lemma C9_router_replaces_limit_10_witness :
  Router.dispatch (Router.default_args "list_servers")
  = Router.Delegate (Router.CallListServers 50 0).
Proof.
  apply (C9_router_replaces_limit_10 (Router.default_args "list_servers")).
  reflexivity.
Defined.

(* ===================================================================== *)
(** * Properties: the content store *)
(* ===================================================================== *)

Section TextFacts.
Import ContentStore.
#[local] Arguments String.append !_ _ / : simpl nomatch.

Lemma append_empty_r (s : string) : s +:+ EmptyString = s.
Proof. induction s as [|c s IH]; simpl; [reflexivity | now rewrite IH]. Qed.

Lemma concat_empty_cons (x : string) (l : list string) :
  String.concat EmptyString (x :: l) = x +:+ String.concat EmptyString l.
Proof.
  destruct l as [|y l].
  - symmetry. apply append_empty_r.
  - reflexivity.
Qed.

Lemma str_take_drop (n : nat) (s : string) :
  str_take n s +:+ str_drop n s = s.
Proof.
  revert s. induction n as [|n IH]; intros [|c s]; simpl; try reflexivity.
  now rewrite IH.
Qed.


Lemma length_str_drop (n : nat) (s : string) :
  String.length (str_drop n s) = String.length s - n.
Proof.
  revert s. induction n as [|n IH]; intros [|c s]; simpl; try reflexivity.
  apply IH.
Qed.





(** The split loses nothing: the chunks, in order, make up the text. *)
Lemma split_fuel_concat (fuel step : nat) (s : string) :
  0 < step -> String.length s <= fuel ->
  String.concat EmptyString (split_fuel fuel step s) = s.
Proof.
  intros Hstep. revert s.
  induction fuel as [|fuel IH]; intros s Hlen.
  - destruct s; [reflexivity | simpl in Hlen; lia].
  - destruct s as [|c s]; [reflexivity|].
    change (split_fuel (S fuel) step (String c s))
      with (str_take step (String c s)
            :: split_fuel fuel step (str_drop step (String c s))).
    rewrite concat_empty_cons, IH.
    + apply str_take_drop.
    + rewrite length_str_drop. simpl in *. lia.
Qed.




Lemma append_assoc' (a b c : string) : (a +:+ b) +:+ c = a +:+ b +:+ c.
Proof. induction a as [|x a IH]; simpl; [reflexivity | now rewrite IH]. Qed.

(** A marker built as note, space, reference tag shows both. *)
Lemma marker_mentions_reference (note r : string) :
  mentions (note +:+ " " +:+ reference_tag r) (reference_tag r).
Proof.
  exists (note +:+ " "), EmptyString.
  now rewrite append_empty_r, append_assoc'.
Qed.


Lemma split_text_concat (budget : nat) (s : string) :
  String.concat EmptyString (split_text budget s) = s.
Proof. apply split_fuel_concat; lia. Qed.



End TextFacts.

Section StoreFacts.
Import ContentStore.
Variable describe : string -> string -> option string.

Implicit Types (st : gmap string ContentEntry) (b : ContentBlock).

Lemma fresh_ref_unused st : st !! fresh (dom st) = None.
Proof. apply not_elem_of_dom. apply is_fresh. Qed.

(** A block that passes through leaves the store alone; an offloaded one
    adds exactly the entry for its chunks under an unused id. *)
Lemma process_block_cases budget flag now b st :
  (process_block describe budget flag now b st = (b, None, st)
   /\ exists s, b = TextBlock s /\ estimate_size s <= budget)
  \/ (exists marker e,
         process_block describe budget flag now b st
         = (TextBlock marker, Some (fresh (dom st)),
            <[fresh (dom st) := e]> st)
         /\ chunks e = stored_chunks budget b
         /\ created e = now
         /\ (forall c, block_of e c = rebuild b c)
         /\ mentions marker (reference_tag (fresh (dom st)))
         /\ (forall s, b = TextBlock s -> budget < estimate_size s)).
Proof.
  destruct b as [s|d m|d m]; simpl.
  - destruct (Nat.leb_spec (estimate_size s) budget) as [Hle|Hgt].
    + left. split; [reflexivity|]. exists s. auto.
    + right. eexists _, _. split; [reflexivity|]. simpl.
      split; [reflexivity|]. split; [reflexivity|].
      split; [reflexivity|]. split; [apply marker_mentions_reference|].
      intros s' [= <-]. exact Hgt.
  - right. eexists _, _. split; [reflexivity|]. simpl.
    split; [reflexivity|]. split; [reflexivity|].
    split; [reflexivity|]. split; [apply marker_mentions_reference|].
    discriminate.
  - right. eexists _, _. split; [reflexivity|]. simpl.
    split; [reflexivity|]. split; [reflexivity|].
    split; [reflexivity|]. split; [apply marker_mentions_reference|].
    discriminate.
Qed.

(** Entries are written once: processing never changes or removes one. *)
Lemma process_block_grows budget flag now b st :
  st ⊆ (process_block describe budget flag now b st).2.
Proof.
  destruct (process_block_cases budget flag now b st)
    as [[-> _]|(marker & e & -> & _)]; simpl.
  - reflexivity.
  - apply insert_subseteq, fresh_ref_unused.
Qed.

Lemma process_content_trace_grows budget flag now blocks st :
  st ⊆ (process_content_trace describe budget flag now blocks st).2.
Proof.
  revert st. induction blocks as [|b rest IH]; intros st; simpl.
  - reflexivity.
  - pose proof (process_block_grows budget flag now b st) as Hb.
    destruct (process_block describe budget flag now b st)
      as [[b' r] st1] eqn:Hpb.
    specialize (IH st1).
    destruct (process_content_trace describe budget flag now rest st1)
      as [out st2] eqn:Hpc.
    simpl in *. etrans; eassumption.
Qed.

Lemma process_content_trace_length budget flag now blocks st :
  length (process_content_trace describe budget flag now blocks st).1
  = length blocks.
Proof.
  revert st. induction blocks as [|b rest IH]; intros st; simpl.
  - reflexivity.
  - destruct (process_block describe budget flag now b st)
      as [[b' r] st1] eqn:Hpb.
    specialize (IH st1).
    destruct (process_content_trace describe budget flag now rest st1)
      as [out st2] eqn:Hpc.
    simpl in *. now rewrite IH.
Qed.

(** The block at position [k] of the output is the rewriting of the block
    at position [k] of the input, in a store that contains the initial
    one and is contained in the final one. *)
Lemma process_content_trace_lookup budget flag now blocks st k b :
  blocks !! k = Some b ->
  exists stk,
    st ⊆ stk
    /\ (process_content_trace describe budget flag now blocks st).1 !! k
       = Some (process_block describe budget flag now b stk).1
    /\ (process_block describe budget flag now b stk).2
       ⊆ (process_content_trace describe budget flag now blocks st).2.
Proof.
  revert st k. induction blocks as [|b0 rest IH]; intros st k Hk.
  - destruct k; discriminate.
  - simpl.
    pose proof (process_block_grows budget flag now b0 st) as Hb.
    destruct (process_block describe budget flag now b0 st)
      as [[b' r] st1] eqn:Hpb.
    destruct k as [|k]; simpl in Hk.
    + injection Hk as <-. exists st.
      pose proof (process_content_trace_grows budget flag now rest st1) as Hg.
      destruct (process_content_trace describe budget flag now rest st1)
        as [out st2] eqn:Hpc.
      rewrite Hpb. simpl in *. repeat split; auto.
    + destruct (IH st1 k Hk) as (stk & Hsub & Hlook & Hfin).
      destruct (process_content_trace describe budget flag now rest st1)
        as [out st2] eqn:Hpc.
      exists stk. simpl in *. repeat split; auto.
      etrans; eassumption.
Qed.

Lemma process_content_fst budget flag now blocks st :
  (process_content describe budget flag now blocks st).1
  = (process_content_trace describe budget flag now blocks st).1.*1.
Proof.
  unfold process_content.
  destruct (process_content_trace describe budget flag now blocks st).
  reflexivity.
Qed.

(** C8: the output of [process_content] is as long as its input, and a
    text block whose estimated size is within the budget stands unchanged
    at its position, with no reference allocated for it. *)
Theorem C8_process_content_same_length_and_passthrough
    budget flag now blocks st :
  length (process_content describe budget flag now blocks st).1
  = length blocks
  /\ forall k s,
       blocks !! k = Some (TextBlock s) ->
       estimate_size s <= budget ->
       (process_content describe budget flag now blocks st).1 !! k
       = Some (TextBlock s)
       /\ (process_content_trace describe budget flag now blocks st).1 !! k
          = Some (TextBlock s, None).
Proof.
  split.
  - rewrite process_content_fst, length_fmap.
    apply process_content_trace_length.
  - intros k s Hk Hle.
    destruct (process_content_trace_lookup budget flag now blocks st k _ Hk)
      as (stk & _ & Hlook & _).
    assert (Hpb : process_block describe budget flag now (TextBlock s) stk
                  = (TextBlock s, None, stk)).
    { simpl. apply Nat.leb_le in Hle. now rewrite Hle. }
    rewrite Hpb in Hlook. simpl in Hlook.
    split; [|exact Hlook].
    rewrite process_content_fst, list_lookup_fmap, Hlook. reflexivity.
Qed.

(** Reading back. *)
Lemma get_content_chunk policy st r (e : ContentEntry) (i : nat) c :
  st !! r = Some e ->
  chunks e !! i = Some c ->
  get_content policy st r (Some (Z.of_nat i)) = inr (block_of e c).
Proof.
  intros Hr Hi. unfold get_content. rewrite Hr.
  pose proof (lookup_lt_Some _ _ _ Hi) as Hlt.
  replace (0 <=? Z.of_nat i)%Z with true by (symmetry; apply Z.leb_le; lia).
  replace (Z.of_nat i <? Z.of_nat (length (chunks e)))%Z with true
    by (symmetry; apply Z.ltb_lt; lia).
  simpl. rewrite Nat2Z.id, Hi. reflexivity.
Qed.

Lemma get_content_whole policy st r (e : ContentEntry) :
  st !! r = Some e ->
  get_content policy st r None
  = inr (block_of e (canonical_payload policy (chunks e))).
Proof. intros Hr. unfold get_content. now rewrite Hr. Qed.

Lemma get_content_unknown policy st r idx :
  st !! r = None -> get_content policy st r idx = inl (ReferenceNotFound r).
Proof. intros Hr. unfold get_content. now rewrite Hr. Qed.

Lemma get_content_out_of_range policy st r (e : ContentEntry) (i : Z) :
  st !! r = Some e ->
  (i < 0 \/ Z.of_nat (length (chunks e)) <= i)%Z ->
  get_content policy st r (Some i)
  = inl (ChunkIndexOutOfRange r i (length (chunks e))).
Proof.
  intros Hr Hi. unfold get_content. rewrite Hr.
  destruct (Z.leb_spec 0 i), (Z.ltb_spec i (Z.of_nat (length (chunks e))));
    simpl; try reflexivity; lia.
Qed.

Lemma canonical_payload_single policy (c : string) :
  canonical_payload policy [c] = c.
Proof. destruct policy; reflexivity. Qed.

Lemma rebuild_payload b : rebuild b (payload b) = b.
Proof. destruct b; reflexivity. Qed.

Lemma stored_chunks_concat budget b :
  String.concat EmptyString (stored_chunks budget b) = payload b.
Proof.
  destruct b; simpl; try reflexivity. apply split_text_concat.
Qed.


(** Reading back what was offloaded, in terms of the trace. *)
Lemma offload_round_trip_trace
    policy budget flag now blocks st k b marker r :
  blocks !! k = Some b ->
  (process_content_trace describe budget flag now blocks st).1 !! k
  = Some (marker, Some r) ->
  let st' := (process_content_trace describe budget flag now blocks st).2 in
  st !! r = None
  /\ mentions (payload marker) (reference_tag r)
  /\ (exists e, st' !! r = Some e /\ chunks e = stored_chunks budget b)
  /\ String.concat EmptyString (stored_chunks budget b) = payload b
  /\ (forall i c,
        stored_chunks budget b !! i = Some c ->
        get_content policy st' r (Some (Z.of_nat i)) = inr (rebuild b c))
  /\ get_content policy st' r None
     = inr (rebuild b (canonical_payload policy (stored_chunks budget b)))
  /\ (policy = AllChunks -> get_content policy st' r None = inr b)
  /\ ((forall s, b <> TextBlock s) ->
      get_content policy st' r None = inr b).
Proof.
  intros Hk Hout st'.
  destruct (process_content_trace_lookup budget flag now blocks st k _ Hk)
    as (stk & Hsub & Hlook & Hfin).
  fold st' in Hfin. rewrite Hout in Hlook.
  destruct (process_block_cases budget flag now b stk)
    as [[Hpb _]|(mk & e & Hpb & Hch & _ & Hblk & Hment & _)];
    rewrite Hpb in Hlook, Hfin; simpl in Hlook, Hfin;
    [discriminate|].
  injection Hlook as -> ->.
  assert (Hr : st' !! fresh (dom stk) = Some e).
  { eapply lookup_weaken; [|exact Hfin]. apply lookup_insert_eq. }
  assert (Hwhole : get_content policy st' (fresh (dom stk)) None
             = inr (rebuild b (canonical_payload policy
                                 (stored_chunks budget b)))).
  { rewrite (get_content_whole _ _ _ _ Hr), Hblk, Hch. reflexivity. }
  split.
  { destruct (st !! fresh (dom stk)) as [e0|] eqn:H0; [|reflexivity].
    pose proof (lookup_weaken _ _ _ _ H0 Hsub) as H1.
    rewrite fresh_ref_unused in H1. discriminate. }
  split; [exact Hment|].
  split; [exists e; auto|].
  split; [apply stored_chunks_concat|].
  split.
  { intros i c Hi. rewrite <- Hch in Hi.
    rewrite (get_content_chunk _ _ _ _ _ _ Hr Hi). now rewrite Hblk. }
  split; [exact Hwhole|].
  split.
  { intros ->. rewrite Hwhole. simpl.
    now rewrite stored_chunks_concat, rebuild_payload. }
  intros Hnt. rewrite Hwhole.
  destruct b as [s|d m|d m]; [now destruct (Hnt s)| |];
    simpl; now rewrite canonical_payload_single.
Qed.

Lemma process_content_snd budget flag now blocks st :
  (process_content describe budget flag now blocks st).2
  = (process_content_trace describe budget flag now blocks st).2.
Proof.
  unfold process_content.
  destruct (process_content_trace describe budget flag now blocks st).
  reflexivity.
Qed.

Lemma process_content_lookup budget flag now blocks st k b' r :
  (process_content_trace describe budget flag now blocks st).1 !! k
  = Some (b', r) ->
  (process_content describe budget flag now blocks st).1 !! k = Some b'.
Proof.
  intros H. now rewrite process_content_fst, list_lookup_fmap, H.
Qed.


(** C1: whatever the budget, every block of [process_content]'s input is
    either a text block within the budget, which stands unchanged in the
    output, or is offloaded: the output holds at its position a marker
    that states a reference [r], unused before, and in the store that
    [process_content] returns every chunk written for the block is read
    back exactly by [get_content r i]; the chunks in order make up the
    block's payload; [get_content r] without an index returns the
    canonical payload of those chunks, which is the original block for an
    image or audio block and, under the concatenation contract, for a text
    block too. *)
Theorem C1_offload_round_trip policy budget flag now blocks st k b :
  blocks !! k = Some b ->
  let out := (process_content describe budget flag now blocks st).1 in
  let st' := (process_content describe budget flag now blocks st).2 in
  (out !! k = Some b
   /\ exists s, b = TextBlock s /\ estimate_size s <= budget)
  \/ (exists r marker,
        (process_content_trace describe budget flag now blocks st).1 !! k
        = Some (TextBlock marker, Some r)
        /\ out !! k = Some (TextBlock marker)
        /\ mentions marker (reference_tag r)
        /\ (forall s, b = TextBlock s -> budget < estimate_size s)
        /\ st !! r = None
        /\ (exists e, st' !! r = Some e
                      /\ chunks e = stored_chunks budget b)
        /\ String.concat EmptyString (stored_chunks budget b) = payload b
        /\ (forall i c,
              stored_chunks budget b !! i = Some c ->
              get_content policy st' r (Some (Z.of_nat i))
              = inr (rebuild b c))
        /\ get_content policy st' r None
           = inr (rebuild b (canonical_payload policy
                               (stored_chunks budget b)))
        /\ (policy = AllChunks -> get_content policy st' r None = inr b)
        /\ ((forall s, b <> TextBlock s) ->
            get_content policy st' r None = inr b)).
Proof.
  intros Hk out st'.
  destruct (process_content_trace_lookup budget flag now blocks st k _ Hk)
    as (stk & _ & Hlook & _).
  destruct (process_block_cases budget flag now b stk)
    as [[Hpb Hpass]|(mk & e & Hpb & _ & _ & _ & _ & Hover)];
    rewrite Hpb in Hlook; simpl in Hlook.
  - left. split; [|exact Hpass].
    exact (process_content_lookup _ _ _ _ _ _ _ _ Hlook).
  - right. exists (fresh (dom stk)), mk.
    destruct (offload_round_trip_trace policy budget flag now blocks st k b
                (TextBlock mk) (fresh (dom stk)) Hk Hlook)
      as (H1 & H2 & H3 & H4 & H5 & H6 & H7 & H8).
    subst st'. rewrite process_content_snd.
    split; [exact Hlook|].
    split; [exact (process_content_lookup _ _ _ _ _ _ _ _ Hlook)|].
    split; [exact H2|]. split; [exact Hover|]. split; [exact H1|].
    split; [exact H3|]. split; [exact H4|]. split; [exact H5|].
    split; [exact H6|]. split; [exact H7 | exact H8].
Qed.

End StoreFacts.

Section StoreExamples.
Import ContentStore Samples.

Lemma C8_process_content_same_length_and_passthrough_witness :
  (process_content no_caption 10 false 0 sample_blocks ∅).1 !! 2
  = Some (TextBlock "Hello").
Proof.
  pose proof (C8_process_content_same_length_and_passthrough
                no_caption 10 false 0 sample_blocks ∅) as [_ H].
  apply (H 2 "Hello"); [reflexivity | vm_compute; lia].
Defined.


Lemma C1_offload_round_trip_witness :
  let st' := (process_content no_caption 10 false 0 sample_blocks ∅).2 in
  get_content FirstChunk st' "0" (Some 1%Z) = inr (TextBlock "word word ")
  /\ get_content AllChunks st' "0" None = inr (TextBlock sample_text)
  /\ get_content FirstChunk st' "1" None = inr sample_image.
Proof.
  intros st'.
  assert (H0 : (process_content_trace no_caption 10 false 0 sample_blocks
                  ∅).1 !! 0
               = Some (TextBlock
                         "[Content truncated: 25 tokens, 3 chunks] [Reference: 0]",
                       Some "0"))
    by (vm_compute; reflexivity).
  assert (H1 : (process_content_trace no_caption 10 false 0 sample_blocks
                  ∅).1 !! 1
               = Some (TextBlock "[Image: image/png] [Reference: 1]",
                       Some "1"))
    by (vm_compute; reflexivity).
  split; [|split].
  - destruct (C1_offload_round_trip no_caption FirstChunk 10 false 0
                sample_blocks ∅ 0 (TextBlock sample_text) eq_refl)
      as [[_ (s & Hs & Hle)]|(r & mk & Htr & _ & _ & _ & _ & _ & _ & Hi & _)].
    + injection Hs as <-. vm_compute in Hle. lia.
    + rewrite H0 in Htr. injection Htr as <- <-.
      exact (Hi 1 "word word " eq_refl).
  - destruct (C1_offload_round_trip no_caption AllChunks 10 false 0
                sample_blocks ∅ 0 (TextBlock sample_text) eq_refl)
      as [[_ (s & Hs & Hle)]
         |(r & mk & Htr & _ & _ & _ & _ & _ & _ & _ & _ & Hall & _)].
    + injection Hs as <-. vm_compute in Hle. lia.
    + rewrite H0 in Htr. injection Htr as <- <-. exact (Hall eq_refl).
  - destruct (C1_offload_round_trip no_caption FirstChunk 10 false 0
                sample_blocks ∅ 1 sample_image eq_refl)
      as [[_ (s & Hs & _)]
         |(r & mk & Htr & _ & _ & _ & _ & _ & _ & _ & _ & _ & Himg)].
    + discriminate.
    + rewrite H1 in Htr. injection Htr as <- <-.
      apply Himg. intros s. discriminate.
Defined.

(** The scenarios of the specification. *)
Example scenario_small_text :
  (process_content no_caption 1000 false 0 [TextBlock "Hello world"] ∅).1
  = [TextBlock "Hello world"].
Proof. reflexivity. Qed.

Example scenario_image :
  (process_content no_caption 1000 false 0 [sample_image] ∅).1
  = [TextBlock "[Image: image/png] [Reference: 0]"].
Proof. reflexivity. Qed.

Example scenario_unknown_reference :
  get_content FirstChunk ∅ "nope" None = inl (ReferenceNotFound "nope").
Proof. reflexivity. Qed.

End StoreExamples.

(* ===================================================================== *)
(** * Properties: the task executor *)
(* ===================================================================== *)

Section ExecutorFacts.
Import TaskExecutor.

Implicit Types (st : Executor) (e : Entry) (q : list Entry).

Lemma key_ltb_spec (a b : Entry) : key_ltb a b = true <-> key_lt a b.
Proof.
  unfold key_ltb, key_lt.
  rewrite orb_true_iff, andb_true_iff, Z.ltb_lt, Z.eqb_eq, Nat.ltb_lt.
  reflexivity.
Qed.

Lemma key_lt_trans (a b c : Entry) : key_lt a b -> key_lt b c -> key_lt a c.
Proof. unfold key_lt. lia. Qed.

Lemma key_lt_irrefl (a : Entry) : ~ key_lt a a.
Proof. unfold key_lt. lia. Qed.

Lemma key_lt_asym (a b : Entry) : key_lt a b -> ~ key_lt b a.
Proof. unfold key_lt. lia. Qed.

(** An entry submitted later never goes ahead of one of its priority. *)
Lemma key_lt_later (a b : Entry) :
  entry_seq a < entry_seq b -> ~ key_lt b a -> key_lt a b.
Proof. unfold key_lt. lia. Qed.

(** Enqueueing adds the entry and moves no other. *)
Lemma enqueue_perm e q : enqueue e q ≡ₚ e :: q.
Proof.
  induction q as [|h t IH]; simpl; [reflexivity|].
  destruct (key_ltb e h); [reflexivity|].
  rewrite IH. apply Permutation_swap.
Qed.

Lemma elem_of_enqueue e q x : x ∈ enqueue e q <-> x = e \/ x ∈ q.
Proof. rewrite enqueue_perm. apply elem_of_cons. Qed.

Lemma enqueue_sorted e q :
  StronglySorted key_lt q ->
  (forall x, x ∈ q -> entry_seq x < entry_seq e) ->
  StronglySorted key_lt (enqueue e q).
Proof.
  induction q as [|h t IH]; intros Hs Hseq; simpl.
  - repeat constructor.
  - apply StronglySorted_inv in Hs as [Hst Hht].
    destruct (key_ltb e h) eqn:Hlt.
    + apply key_ltb_spec in Hlt. constructor.
      * constructor; assumption.
      * constructor; [assumption|].
        eapply Forall_impl; [exact Hht|].
        intros x Hx. eapply key_lt_trans; eassumption.
    + assert (Hhe : key_lt h e).
      { apply key_lt_later.
        - apply Hseq. apply list_elem_of_here.
        - intros Hc. apply key_ltb_spec in Hc. congruence. }
      constructor.
      * apply IH; [assumption|].
        intros x Hx. apply Hseq. now apply list_elem_of_further.
      * apply Forall_forall. intros x Hx.
        apply elem_of_enqueue in Hx as [->|Hx]; [assumption|].
        rewrite Forall_forall in Hht. now apply Hht.
Qed.

(** In a sorted queue the smaller key stands ahead: the head is never
    behind another entry. *)
Lemma sorted_head_least e q x :
  StronglySorted key_lt (e :: q) -> x ∈ q -> key_lt e x.
Proof.
  intros Hs Hx. apply StronglySorted_inv in Hs as [_ Hall].
  rewrite Forall_forall in Hall. now apply Hall.
Qed.

Lemma settled_set_running (t : Task) :
  status t = Queued -> settled t -> settled (set_running t).
Proof. unfold settled. intros ->. simpl. auto. Qed.

Lemma settled_settle (o : Outcome) (t : Task) : settled (settle o t).
Proof. destruct o; unfold settled; simpl; eauto. Qed.

Lemma consistent_init (pool : nat) : consistent (init pool).
Proof.
  constructor; simpl.
  - constructor.
  - intros e He. inversion He.
  - constructor.
  - intros e He. inversion He.
  - intros id Hid. inversion Hid.
  - intros id Hid. inversion Hid.
  - intros id t Ht. rewrite lookup_empty in Ht. discriminate.
Qed.

Lemma fresh_task_unused st : tasks st !! fresh (dom (tasks st)) = None.
Proof. apply not_elem_of_dom, is_fresh. Qed.

Lemma consistent_submit server tool args p st :
  consistent st -> consistent (submit server tool args p st).2.
Proof.
  intros [Hsort Hseq Hids Hq Hr Hf Hset].
  pose proof (fresh_task_unused st) as Hfresh.
  set (id := fresh (dom (tasks st))) in *.
  assert (Hne : forall i t, tasks st !! i = Some t -> i <> id).
  { intros i t Hi ->. rewrite Hfresh in Hi. discriminate. }
  constructor; simpl; fold id.
  - apply enqueue_sorted; [assumption|]. intros x Hx.
    change (entry_seq (p, next_seq st, id)) with (next_seq st).
    now apply Hseq.
  - intros e He. apply elem_of_enqueue in He as [->|He].
    + change (entry_seq (p, next_seq st, id)) with (next_seq st). lia.
    + specialize (Hseq e He). lia.
  - rewrite enqueue_perm. simpl. constructor; [|assumption].
    intros Hin. apply list_elem_of_fmap in Hin as (x & Hx & Hxin).
    destruct (Hq x Hxin) as (t & Ht & _).
    change (entry_id (p, next_seq st, id)) with id in Hx.
    rewrite <- Hx in Ht. now apply (Hne _ _ Ht).
  - intros e He. apply elem_of_enqueue in He as [->|He].
    + eexists. change (entry_id (p, next_seq st, id)) with id.
      rewrite lookup_insert_eq. split; reflexivity.
    + destruct (Hq e He) as (t & Ht & Hst). exists t. split; [|assumption].
      rewrite lookup_insert_ne; [assumption|].
      intros E. now apply (Hne _ _ Ht).
  - intros i Hi. destruct (Hr i Hi) as (t & Ht & Hst).
    exists t. split; [|assumption].
    rewrite lookup_insert_ne; [assumption|].
    intros E. now apply (Hne _ _ Ht).
  - intros i Hi. destruct (Hf i Hi) as (t & Ht & Hst).
    exists t. split; [|assumption].
    rewrite lookup_insert_ne; [assumption|].
    intros E. now apply (Hne _ _ Ht).
  - intros i t Hi. destruct (decide (id = i)) as [<-|Hn].
    + rewrite lookup_insert_eq in Hi. injection Hi as <-.
      unfold settled. simpl. auto.
    + rewrite lookup_insert_ne in Hi by assumption. eapply Hset; eassumption.
Qed.

Lemma dispatch_inv st st' :
  dispatch st = Some st' ->
  exists e q,
    queue st = e :: q
    /\ length (running st) < pool_size st
    /\ st' = {| pool_size := pool_size st;
                tasks := alter set_running (entry_id e) (tasks st);
                queue := q;
                running := running st ++ [entry_id e];
                finished := finished st;
                next_seq := next_seq st |}.
Proof.
  unfold dispatch. intros H.
  destruct (Nat.ltb_spec (length (running st)) (pool_size st)) as [Hlt|];
    [|discriminate].
  destruct (queue st) as [|e q]; [discriminate|].
  injection H as <-. eauto.
Qed.

Lemma finish_inv id o st st' :
  finish id o st = Some st' ->
  id ∈ running st
  /\ st' = {| pool_size := pool_size st;
              tasks := alter (settle o) id (tasks st);
              queue := queue st;
              running := filter (fun x => x ≠ id) (running st);
              finished := finished st ++ [id];
              next_seq := next_seq st |}.
Proof.
  unfold finish. intros H.
  destruct (bool_decide_reflect (id ∈ running st)) as [Hin|]; [|discriminate].
  injection H as <-. auto.
Qed.

Lemma consistent_dispatch st st' :
  consistent st -> dispatch st = Some st' -> consistent st'.
Proof.
  intros [Hsort Hseq Hids Hq Hr Hf Hset] Hd.
  apply dispatch_inv in Hd as (e & q & Hqe & Hlen & ->).
  rewrite Hqe in *.
  destruct (Hq e (list_elem_of_here _ _)) as (te & Hte & Hste).
  apply StronglySorted_inv in Hsort as [Hsq Hhead].
  rewrite fmap_cons in Hids. apply NoDup_cons in Hids as [Hnotin Hnd].
  constructor; simpl.
  - assumption.
  - intros x Hx. apply Hseq. now apply list_elem_of_further.
  - assumption.
  - intros x Hx.
    destruct (Hq x (list_elem_of_further _ _ _ Hx)) as (t & Ht & Hst).
    exists t. split; [|assumption].
    rewrite lookup_alter_ne; [assumption|].
    intros E. apply Hnotin. rewrite E. now apply list_elem_of_fmap_2.
  - intros i Hi. destruct (decide (entry_id e = i)) as [<-|Hn].
    + exists (set_running te). rewrite lookup_alter_eq, Hte. split; reflexivity.
    + apply elem_of_app in Hi as [Hi|Hi].
      * destruct (Hr i Hi) as (t & Ht & Hst). exists t.
        rewrite lookup_alter_ne by assumption. auto.
      * apply list_elem_of_singleton in Hi. congruence.
  - intros i Hi. destruct (Hf i Hi) as (t & Ht & Hst).
    exists t. split; [|assumption].
    rewrite lookup_alter_ne; [assumption|].
    intros <-. rewrite Hte in Ht. injection Ht as <-.
    rewrite Hste in Hst. discriminate.
  - intros i t Hi. destruct (decide (entry_id e = i)) as [<-|Hn].
    + rewrite lookup_alter_eq, Hte in Hi. injection Hi as <-.
      apply settled_set_running; [assumption|]. eapply Hset; eassumption.
    + rewrite lookup_alter_ne in Hi by assumption. eapply Hset; eassumption.
Qed.

Lemma consistent_finish id o st st' :
  consistent st -> finish id o st = Some st' -> consistent st'.
Proof.
  intros [Hsort Hseq Hids Hq Hr Hf Hset] Hfin.
  apply finish_inv in Hfin as (Hin & ->).
  destruct (Hr id Hin) as (ti & Hti & Hsti).
  constructor; simpl; try assumption.
  - intros x Hx. destruct (Hq x Hx) as (t & Ht & Hst).
    exists t. split; [|assumption].
    rewrite lookup_alter_ne; [assumption|].
    intros E. rewrite <- E, Hti in Ht. injection Ht as <-. congruence.
  - intros i Hi. apply list_elem_of_filter in Hi as [Hne Hi].
    destruct (Hr i Hi) as (t & Ht & Hst). exists t.
    rewrite lookup_alter_ne by congruence. auto.
  - intros i Hi. destruct (decide (id = i)) as [<-|Hn].
    + exists (settle o ti). rewrite lookup_alter_eq, Hti.
      split; [reflexivity|]. now destruct o.
    + apply elem_of_app in Hi as [Hi|Hi].
      * destruct (Hf i Hi) as (t & Ht & Hst). exists t.
        rewrite lookup_alter_ne by assumption. auto.
      * apply list_elem_of_singleton in Hi. congruence.
  - intros i t Hi. destruct (decide (id = i)) as [<-|Hn].
    + rewrite lookup_alter_eq, Hti in Hi. injection Hi as <-.
      apply settled_settle.
    + rewrite lookup_alter_ne in Hi by assumption. eapply Hset; eassumption.
Qed.

Lemma consistent_step ev st st' :
  consistent st -> step ev st = Some st' -> consistent st'.
Proof.
  intros Hc Hs. destruct ev as [server tool args p| |id o]; simpl in Hs.
  - injection Hs as <-. now apply consistent_submit.
  - eapply consistent_dispatch; eassumption.
  - eapply consistent_finish; eassumption.
Qed.

Lemma consistent_run evs st st' :
  consistent st -> run evs st = Some st' -> consistent st'.
Proof.
  revert st. induction evs as [|ev evs IH]; intros st Hc Hr; simpl in Hr.
  - now injection Hr as <-.
  - destruct (step ev st) as [st1|] eqn:Hs; [|discriminate].
    eapply IH; [|eassumption]. eapply consistent_step; eassumption.
Qed.

(** Every state reached from the initial one is consistent. *)
Lemma reachable_consistent pool evs st :
  run evs (init pool) = Some st -> consistent st.
Proof. apply consistent_run, consistent_init. Qed.

(** Positions in the completion log. *)
Lemma index_of_lt (x : string) (l : list string) (i : nat) :
  index_of x l = Some i -> i < length l.
Proof.
  revert i. induction l as [|y l IH]; intros i Hi; simpl in *; [discriminate|].
  destruct (x =? y); [injection Hi as <-; lia|].
  destruct (index_of x l) as [j|]; [|discriminate].
  injection Hi as <-. specialize (IH j eq_refl). lia.
Qed.

Lemma index_of_elem (x : string) (l : list string) :
  x ∈ l -> exists i, index_of x l = Some i.
Proof.
  induction l as [|y l IH]; intros Hx; [inversion Hx|]. simpl.
  destruct (String.eqb_spec x y) as [|Hne]; [eauto|].
  apply elem_of_cons in Hx as [|Hx]; [contradiction|].
  destruct (IH Hx) as [i ->]. simpl. eauto.
Qed.

Lemma index_of_app_l (x : string) (l l' : list string) (i : nat) :
  index_of x l = Some i -> index_of x (l ++ l') = Some i.
Proof.
  revert i. induction l as [|y l IH]; intros i Hi; simpl in *; [discriminate|].
  destruct (x =? y); [assumption|].
  destruct (index_of x l) as [j|]; [|discriminate].
  now rewrite (IH j eq_refl).
Qed.

Lemma index_of_app_new (x : string) (l : list string) :
  x ∉ l -> index_of x (l ++ [x]) = Some (length l).
Proof.
  induction l as [|y l IH]; intros Hx; simpl.
  - now rewrite String.eqb_refl.
  - apply not_elem_of_cons in Hx as [Hne Hx].
    apply String.eqb_neq in Hne. rewrite Hne, (IH Hx). reflexivity.
Qed.

Lemma NoDup_fmap_eq {A B} (f : A -> B) (l : list A) (x y : A) :
  NoDup (f <$> l) -> x ∈ l -> y ∈ l -> f x = f y -> x = y.
Proof.
  induction l as [|a l IH]; intros Hnd Hx Hy Hf; [inversion Hx|].
  rewrite fmap_cons in Hnd. apply NoDup_cons in Hnd as [Hnotin Hnd].
  apply elem_of_cons in Hx as [->|Hx]; apply elem_of_cons in Hy as [->|Hy].
  - reflexivity.
  - exfalso. apply Hnotin. rewrite Hf. now apply list_elem_of_fmap_2.
  - exfalso. apply Hnotin. rewrite <- Hf. now apply list_elem_of_fmap_2.
  - now apply IH.
Qed.

(** A queued task is neither running nor finished. *)
Lemma queued_not_running st e :
  consistent st -> e ∈ queue st -> entry_id e ∉ running st.
Proof.
  intros Hc He Hr.
  destruct (c_queued st Hc e He) as (t & Ht & Hst).
  destruct (c_running st Hc _ Hr) as (t' & Ht' & Hst').
  congruence.
Qed.

Lemma queued_not_finished st e :
  consistent st -> e ∈ queue st -> entry_id e ∉ finished st.
Proof.
  intros Hc He Hf.
  destruct (c_queued st Hc e He) as (t & Ht & Hst).
  destruct (c_finished st Hc _ Hf) as (t' & Ht' & Hst').
  rewrite Ht in Ht'. injection Ht' as <-. rewrite Hst in Hst'. discriminate.
Qed.

Lemma running_not_finished st id :
  consistent st -> id ∈ running st -> id ∉ finished st.
Proof.
  intros Hc Hr Hf.
  destruct (c_running st Hc _ Hr) as (t & Ht & Hst).
  destruct (c_finished st Hc _ Hf) as (t' & Ht' & Hst').
  rewrite Ht in Ht'. injection Ht' as <-. rewrite Hst in Hst'. discriminate.
Qed.

(** Submission order is the order of the [seq] numbers: the entry of a
    later submission comes after every waiting entry of its priority or of
    a smaller one. *)
Lemma submit_after server tool args p st e :
  consistent st -> e ∈ queue st ->
  let new := (p, next_seq st, (submit server tool args p st).1) in
  new ∈ queue (submit server tool args p st).2
  /\ e ∈ queue (submit server tool args p st).2
  /\ ((entry_priority e <= p)%Z -> key_lt e new).
Proof.
  intros Hc He new. simpl.
  split; [apply elem_of_enqueue; now left|].
  split; [apply elem_of_enqueue; now right|].
  intros Hp. pose proof (c_seq st Hc e He) as Hs.
  unfold key_lt, new, entry_priority, entry_seq in *. simpl. lia.
Qed.

Section Ordering.
Variables e1 e2 : Entry.
Hypothesis Hkey : key_lt e1 e2.

Lemma ordered_start st :
  consistent st -> e1 ∈ queue st -> e2 ∈ queue st -> ordered e1 e2 st.
Proof.
  intros Hc H1 H2. constructor; auto.
  - now apply c_seq.
  - intros _. split; intros H.
    + now apply queued_not_running in H.
    + now apply queued_not_finished in H.
Qed.

Lemma ordered_submit server tool args p st :
  ordered e1 e2 st -> ordered e1 e2 (submit server tool args p st).2.
Proof.
  intros [Hc Hs1 Hw Hp1 Hp2 Hsg]. constructor; simpl.
  - now apply consistent_submit.
  - lia.
  - intros H. apply elem_of_enqueue in H as [->|H].
    + exfalso. revert Hs1.
      change (entry_seq (p, next_seq st, fresh (dom (tasks st))))
        with (next_seq st). lia.
    + apply elem_of_enqueue. right. auto.
  - destruct Hp1 as [H|H]; [left; apply elem_of_enqueue|]; auto.
  - destruct Hp2 as [H|H]; [left; apply elem_of_enqueue|]; auto.
  - exact Hsg.
Qed.

Lemma ordered_dispatch st st' :
  ordered e1 e2 st -> dispatch st = Some st' -> ordered e1 e2 st'.
Proof.
  intros [Hc Hs1 Hw Hp1 Hp2 Hsg] Hd.
  pose proof (consistent_dispatch _ _ Hc Hd) as Hc'.
  apply dispatch_inv in Hd as (h & q & Hq & Hlen & ->).
  pose proof (c_sorted st Hc) as Hsort. rewrite Hq in Hsort, Hw, Hp1, Hp2.
  assert (Hhead2 : e2 = h -> e1 ∉ h :: q).
  { intros -> H1. apply elem_of_cons in H1 as [->|H1].
    - now apply key_lt_irrefl in Hkey.
    - apply (key_lt_asym _ _ Hkey). eapply sorted_head_least; eassumption. }
  constructor; simpl.
  - exact Hc'.
  - exact Hs1.
  - intros H1.
    assert (H1' : e1 ∈ h :: q) by now apply list_elem_of_further.
    specialize (Hw H1'). apply elem_of_cons in Hw as [E|]; [|assumption].
    now destruct (Hhead2 E).
  - destruct Hp1 as [H|[H|H]]; auto.
    + apply elem_of_cons in H as [->|H]; auto.
      right. left. apply elem_of_app. right. apply list_elem_of_here.
    + right. left. apply elem_of_app. now left.
  - destruct Hp2 as [H|[H|H]]; auto.
    + apply elem_of_cons in H as [->|H]; auto.
      right. left. apply elem_of_app. right. apply list_elem_of_here.
    + right. left. apply elem_of_app. now left.
  - intros Hone. destruct (Hsg Hone) as [Hrun Hfin]. split; [|exact Hfin].
    intros H2. apply elem_of_app in H2 as [H2|H2]; [auto|].
    apply list_elem_of_singleton in H2.
    assert (Hempty : running st = []).
    { destruct (running st); [reflexivity | simpl in Hlen; lia]. }
    assert (Hh : h ∈ queue st) by (rewrite Hq; apply list_elem_of_here).
    assert (E : e2 = h).
    { destruct Hp2 as [H|[H|H]].
      - eapply (NoDup_fmap_eq entry_id (queue st));
          [apply (c_ids st Hc) | now rewrite Hq | exact Hh | exact H2].
      - rewrite Hempty in H. inversion H.
      - rewrite H2 in H. now apply queued_not_finished in H. }
    destruct Hp1 as [H|[H|H]].
    + now destruct (Hhead2 E).
    + rewrite Hempty in H. inversion H.
    + exact H.
Qed.

Lemma ordered_finish id o st st' :
  ordered e1 e2 st -> finish id o st = Some st' -> ordered e1 e2 st'.
Proof.
  intros [Hc Hs1 Hw Hp1 Hp2 Hsg] Hf.
  pose proof (consistent_finish _ _ _ _ Hc Hf) as Hc'.
  apply finish_inv in Hf as (Hin & ->).
  assert (Hmove : forall x : string, x ∈ running st ->
            x ∈ filter (fun y => y ≠ id) (running st)
            \/ x ∈ (finished st ++ [id])%list).
  { intros x Hx. destruct (decide (x = id)) as [->|Hne].
    - right. apply elem_of_app. right. apply list_elem_of_here.
    - left. apply list_elem_of_filter. auto. }
  constructor; simpl; auto.
  - destruct Hp1 as [H|[H|H]].
    + now left.
    + right. now apply Hmove.
    + right. right. apply elem_of_app. now left.
  - destruct Hp2 as [H|[H|H]].
    + now left.
    + right. now apply Hmove.
    + right. right. apply elem_of_app. now left.
  - intros Hone. destruct (Hsg Hone) as [Hrun Hfin]. split.
    + intros H2. apply list_elem_of_filter in H2 as [_ H2].
      apply elem_of_app. left. auto.
    + intros H2. unfold completes_before in *. simpl in *.
      apply elem_of_app in H2 as [H2|H2].
      * specialize (Hfin H2).
        destruct (index_of (entry_id e1) (finished st)) as [i|] eqn:H1;
          [|contradiction].
        destruct (index_of (entry_id e2) (finished st)) as [j|] eqn:Hj;
          [|contradiction].
        now rewrite (index_of_app_l _ _ _ _ H1), (index_of_app_l _ _ _ _ Hj).
      * apply list_elem_of_singleton in H2. subst id.
        specialize (Hrun Hin).
        destruct (index_of_elem _ _ Hrun) as [i Hi].
        rewrite (index_of_app_l _ _ _ _ Hi).
        rewrite index_of_app_new by now apply running_not_finished.
        now apply index_of_lt in Hi.
Qed.

Lemma ordered_run evs st st' :
  ordered e1 e2 st -> run evs st = Some st' -> ordered e1 e2 st'.
Proof.
  revert st. induction evs as [|ev evs IH]; intros st Ho Hr; simpl in Hr.
  - now injection Hr as <-.
  - destruct (step ev st) as [st1|] eqn:Hs; [|discriminate].
    eapply IH; [|eassumption].
    destruct ev as [server tool args p| |id o]; simpl in Hs.
    + injection Hs as <-. now apply ordered_submit.
    + eapply ordered_dispatch; eassumption.
    + eapply ordered_finish; eassumption.
Qed.

End Ordering.

Lemma pool_size_run evs st st' :
  run evs st = Some st' -> pool_size st' = pool_size st.
Proof.
  revert st. induction evs as [|ev evs IH]; intros st Hr; simpl in Hr.
  - now injection Hr as <-.
  - destruct (step ev st) as [st1|] eqn:Hs; [|discriminate].
    rewrite (IH _ Hr).
    destruct ev as [server tool args p| |id o]; simpl in Hs.
    + now injection Hs as <-.
    + now apply dispatch_inv in Hs as (e & q & _ & _ & ->).
    + now apply finish_inv in Hs as (_ & ->).
Qed.

(** Dequeue order: of two tasks that wait in the queue together, the one
    with the smaller priority — or, at equal priority, the one submitted
    first — is dequeued and started first, whatever the size of the pool:
    the other never leaves the queue while it still waits.  With a pool of
    one worker it also reaches its terminal state first. *)
Theorem priority_dispatch_order pool evs1 evs2 st st' e1 e2 :
  run evs1 (init pool) = Some st ->
  e1 ∈ queue st -> e2 ∈ queue st ->
  key_lt e1 e2 ->
  run evs2 st = Some st' ->
  (e1 ∈ queue st' -> e2 ∈ queue st')
  /\ (entry_id e2 ∈ running st' \/ entry_id e2 ∈ finished st' ->
      entry_id e1 ∈ running st' \/ entry_id e1 ∈ finished st')
  /\ (pool = 1 -> entry_id e2 ∈ finished st' ->
      completes_before st' (entry_id e1) (entry_id e2)).
Proof.
  intros Hrun H1 H2 Hkey Hrun'.
  pose proof (reachable_consistent _ _ _ Hrun) as Hc.
  pose proof (ordered_run e1 e2 Hkey evs2 st st'
                (ordered_start e1 e2 st Hc H1 H2) Hrun')
    as [Hc' _ Hw Hp1 _ Hsg].
  split; [exact Hw|]. split.
  - intros Hstarted. destruct Hp1 as [Hq|Hp1]; [|exact Hp1].
    exfalso. specialize (Hw Hq). destruct Hstarted as [Hr|Hf].
    + exact (queued_not_running _ _ Hc' Hw Hr).
    + exact (queued_not_finished _ _ Hc' Hw Hf).
  - intros Hone Hfin. apply Hsg; [|exact Hfin].
    rewrite (pool_size_run _ _ _ Hrun'), (pool_size_run _ _ _ Hrun), Hone.
    reflexivity.
Qed.

(** Completion order with two workers: both busy while a task of
    priority 2 and a task of priority 1 are submitted, the priority-1 task
    is started first and the priority-2 task may still complete first. *)
Lemma completion_order_fails_with_two_workers :
  ~ priority_completion_law 2.
Proof.
  intros Hlaw.
  specialize (Hlaw Samples.busy_then_two Samples.second_returns_first
                (Samples.after 2 Samples.busy_then_two)
                (Samples.after 2 (Samples.busy_then_two
                                  ++ Samples.second_returns_first))
                (1%Z, 3, "3") (2%Z, 2, "2")).
  assert (Hq : queue (Samples.after 2 Samples.busy_then_two)
               = [(1%Z, 3, "3"); (2%Z, 2, "2")])
    by (vm_compute; reflexivity).
  assert (Hf : finished (Samples.after 2 (Samples.busy_then_two
                                           ++ Samples.second_returns_first))
               = ["0"; "1"; "2"; "3"])
    by (vm_compute; reflexivity).
  rewrite Hq in Hlaw. unfold completes_before in Hlaw. rewrite Hf in Hlaw.
  assert (Hbad : 3 < 2); [|lia].
  apply Hlaw.
  - vm_compute. reflexivity.
  - vm_compute. reflexivity.
  - apply list_elem_of_here.
  - apply list_elem_of_further, list_elem_of_here.
  - left. unfold entry_priority. simpl. lia.
  - vm_compute. reflexivity.
  - change (entry_id (2%Z, 2, "2")) with "2".
    repeat first [apply list_elem_of_here | apply list_elem_of_further].
Qed.

(** A task in a terminal state is never touched again. *)
Lemma terminal_stable_step ev st st' task_id (t : Task) :
  consistent st ->
  tasks st !! task_id = Some t ->
  is_terminal (status t) = true ->
  step ev st = Some st' ->
  tasks st' !! task_id = Some t.
Proof.
  intros Hc Ht Hterm Hs.
  destruct ev as [server tool args p| |id o]; simpl in Hs.
  - injection Hs as <-. simpl.
    rewrite lookup_insert_ne; [assumption|].
    intros E. rewrite <- E, fresh_task_unused in Ht. discriminate.
  - apply dispatch_inv in Hs as (e & q & Hq & _ & ->). simpl.
    rewrite lookup_alter_ne; [assumption|].
    intros E.
    destruct (c_queued st Hc e) as (t' & Ht' & Hst').
    { rewrite Hq. apply list_elem_of_here. }
    rewrite E, Ht in Ht'. injection Ht' as <-.
    rewrite Hst' in Hterm. discriminate.
  - apply finish_inv in Hs as (Hin & ->). simpl.
    rewrite lookup_alter_ne; [assumption|].
    intros E.
    destruct (c_running st Hc id Hin) as (t' & Ht' & Hst').
    rewrite E, Ht in Ht'. injection Ht' as <-.
    rewrite Hst' in Hterm. discriminate.
Qed.

Lemma terminal_stable_run evs st st' task_id (t : Task) :
  consistent st ->
  tasks st !! task_id = Some t ->
  is_terminal (status t) = true ->
  run evs st = Some st' ->
  tasks st' !! task_id = Some t.
Proof.
  revert st. induction evs as [|ev evs IH]; intros st Hc Ht Hterm Hr;
    simpl in Hr.
  - now injection Hr as <-.
  - destruct (step ev st) as [st1|] eqn:Hs; [|discriminate].
    eapply IH; [| | |eassumption]; try assumption.
    + eapply consistent_step; eassumption.
    + eapply terminal_stable_step; eassumption.
Qed.

(** What the worker stored is what [poll] returns. *)
Lemma poll_after_finish id o st st' :
  consistent st ->
  finish id o st = Some st' ->
  poll st' id
  = inr (true,
         match o with Succeeded r => Some r | Errored _ => None end,
         match o with Succeeded _ => None | Errored m => Some m end).
Proof.
  intros Hc Hf. apply finish_inv in Hf as (Hin & ->).
  destruct (c_running st Hc id Hin) as (t & Ht & _).
  unfold poll. simpl. rewrite lookup_alter_eq, Ht. simpl.
  destruct o; reflexivity.
Qed.

(** The ledger read by [poll]: in every state the executor reaches,
    [poll] on an unknown id
    fails with [TaskNotFound]; on a [Queued] or [Running] task it answers
    "not done", no result, no error; on a [Completed] task the stored
    result; on a [Failed] task the stored message; what a worker stores on
    finishing is what [poll] answers from then on, and for a terminal task
    the answer is the same after any further activity of the executor. *)
Theorem poll_by_state pool evs st task_id :
  run evs (init pool) = Some st ->
  match tasks st !! task_id with
  | None => poll st task_id = inl (TaskNotFound task_id)
  | Some t =>
      match status t with
      | Queued | Running => poll st task_id = inr (false, None, None)
      | Completed =>
          exists r, result t = Some r
                    /\ poll st task_id = inr (true, Some r, None)
      | Failed =>
          exists m, error t = Some m
                    /\ poll st task_id = inr (true, None, Some m)
      end
      /\ (is_terminal (status t) = true ->
          forall evs' st', run evs' st = Some st' ->
                           poll st' task_id = poll st task_id)
  end
  /\ (forall id o st',
        finish id o st = Some st' ->
        poll st' id
        = inr (true,
               match o with Succeeded r => Some r | Errored _ => None end,
               match o with Succeeded _ => None | Errored m => Some m end)
        /\ forall evs' st'', run evs' st' = Some st'' ->
                             poll st'' id = poll st' id).
Proof.
  intros Hrun. pose proof (reachable_consistent _ _ _ Hrun) as Hc.
  split.
  - destruct (tasks st !! task_id) as [t|] eqn:Ht.
    + split.
      * pose proof (c_settled st Hc _ _ Ht) as Hset.
        unfold settled in Hset. unfold poll. rewrite Ht.
        destruct (status t); simpl.
        -- destruct Hset as [-> ->]. reflexivity.
        -- destruct Hset as [-> ->]. reflexivity.
        -- destruct Hset as [[r ->] ->]. eauto.
        -- destruct Hset as [-> [m ->]]. eauto.
      * intros Hterm evs' st' Hrun'. unfold poll.
        now rewrite (terminal_stable_run _ _ _ _ _ Hc Ht Hterm Hrun'), Ht.
    + unfold poll. now rewrite Ht.
  - intros id o st' Hf. split; [eapply poll_after_finish; eassumption|].
    intros evs' st'' Hrun'.
    pose proof (consistent_finish _ _ _ _ Hc Hf) as Hc'.
    pose proof Hf as Hf'. apply finish_inv in Hf' as (Hin & Hst').
    destruct (c_finished st' Hc' id) as (t & Ht & Hterm).
    { rewrite Hst'. simpl. apply elem_of_app. right.
      apply list_elem_of_here. }
    unfold poll.
    now rewrite (terminal_stable_run _ _ _ _ _ Hc' Ht Hterm Hrun'), Ht.
Qed.

End ExecutorFacts.

Lemma poll_by_state_example :
  TaskExecutor.poll (Samples.after 2 Samples.one_completed) "0"
  = inr (true, Some (VStr "done"), None)
  /\ TaskExecutor.poll (Samples.after 2 Samples.one_completed) "9"
     = inl (TaskExecutor.TaskNotFound "9").
Proof.
  pose proof (poll_by_state 2 Samples.one_completed
                (Samples.after 2 Samples.one_completed) "0" eq_refl)
    as [H0 _].
  pose proof (poll_by_state 2 Samples.one_completed
                (Samples.after 2 Samples.one_completed) "9" eq_refl)
    as [H9 _].
  assert (Ht : TaskExecutor.tasks (Samples.after 2 Samples.one_completed)
               !! "0"
               = Some {| TaskExecutor.server_name := "svc";
                         TaskExecutor.tool_name := "tool";
                         TaskExecutor.arguments := None;
                         TaskExecutor.priority := 1;
                         TaskExecutor.seq := 0;
                         TaskExecutor.status := TaskExecutor.Completed;
                         TaskExecutor.result := Some (VStr "done");
                         TaskExecutor.error := None |})
    by (vm_compute; reflexivity).
  assert (Hn : TaskExecutor.tasks (Samples.after 2 Samples.one_completed)
               !! "9" = None)
    by (vm_compute; reflexivity).
  rewrite Ht in H0. rewrite Hn in H9. simpl in H0.
  destruct H0 as [(r & Hr & Hp) _]. injection Hr as <-.
  split; [exact Hp | exact H9].
Defined.

Lemma priority_dispatch_order_example :
  "3" ∈ TaskExecutor.running
          (Samples.after 2 (Samples.busy_then_two
                            ++ Samples.both_dequeued))
  \/ "3" ∈ TaskExecutor.finished
             (Samples.after 2 (Samples.busy_then_two
                               ++ Samples.both_dequeued)).
Proof.
  refine (proj1 (proj2
            (priority_dispatch_order 2 Samples.busy_then_two
               Samples.both_dequeued
               (Samples.after 2 Samples.busy_then_two)
               (Samples.after 2 (Samples.busy_then_two
                                 ++ Samples.both_dequeued))
               (1%Z, 3, "3") (2%Z, 2, "2") eq_refl _ _ _ eq_refl)) _).
  - vm_compute. apply list_elem_of_here.
  - vm_compute. apply list_elem_of_further, list_elem_of_here.
  - left. vm_compute. reflexivity.
  - left. vm_compute. apply list_elem_of_further, list_elem_of_here.
Defined.

(* ===================================================================== *)
(** * Properties: the session registry *)
(* ===================================================================== *)

Section RegistryFacts.
Import SessionRegistry.
Variable fetch_config : string -> string + McpStartupConfig.
Variable spawn : McpStartupConfig -> string + nat.

Implicit Types (reg : Registry) (s : ServerSession).

Lemma occurrences_absent (name : string) (l : list string) :
  name ∉ l -> occurrences name l = 0.
Proof.
  unfold occurrences. induction l as [|x l IH]; intros Hn; [reflexivity|].
  apply not_elem_of_cons in Hn as [Hne Hn].
  rewrite filter_cons_False by congruence. now apply IH.
Qed.

Lemma occurrences_NoDup (name : string) (l : list string) :
  NoDup l -> name ∈ l -> occurrences name l = 1.
Proof.
  unfold occurrences. induction l as [|x l IH]; intros Hnd Hin;
    [inversion Hin|].
  apply NoDup_cons in Hnd as [Hx Hnd].
  destruct (decide (x = name)) as [->|Hne].
  - rewrite filter_cons_True by reflexivity. simpl.
    pose proof (occurrences_absent name l Hx) as H0.
    unfold occurrences in H0. now rewrite H0.
  - rewrite filter_cons_False by assumption.
    apply elem_of_cons in Hin as [->|Hin]; [contradiction|]. now apply IH.
Qed.

Lemma list_running_NoDup reg : NoDup (list_running reg).
Proof.
  unfold list_running.
  eapply sublist_NoDup; [apply (NoDup_fst_map_to_list (sessions reg))|].
  apply fmap_sublist, sublist_filter.
Qed.

Lemma elem_of_list_running reg (name : string) :
  name ∈ list_running reg
  <-> exists s, sessions reg !! name = Some s /\ is_running s = true.
Proof.
  unfold list_running. rewrite list_elem_of_fmap. split.
  - intros ([k s] & -> & Hin). apply list_elem_of_filter in Hin as [Hr Hin].
    apply elem_of_map_to_list in Hin. eauto.
  - intros (s & Hs & Hr). exists (name, s). split; [reflexivity|].
    apply list_elem_of_filter. split; [exact Hr|].
    now apply elem_of_map_to_list.
Qed.

(** A name held by a running session has exactly the one live session. *)
Lemma filter_key_none {A} (P : string * A -> Prop)
    `{forall kv, Decision (P kv)} (l : list (string * A)) (k : string) :
  k ∉ l.*1 -> filter (fun kv => kv.1 = k /\ P kv) l = [].
Proof.
  induction l as [|[k' v'] l IH]; intros Hk; [reflexivity|].
  rewrite fmap_cons in Hk. apply not_elem_of_cons in Hk as [Hne Hk].
  simpl in Hne.
  rewrite filter_cons_False; [now apply IH|].
  simpl. intros [E _]. congruence.
Qed.

Lemma filter_key_unique {A} (P : string * A -> Prop)
    `{forall kv, Decision (P kv)} (l : list (string * A)) (k : string)
    (v : A) :
  NoDup l.*1 -> (k, v) ∈ l -> P (k, v) ->
  filter (fun kv => kv.1 = k /\ P kv) l = [(k, v)].
Proof.
  induction l as [|[k' v'] l IH]; intros Hnd Hin HP; [inversion Hin|].
  rewrite fmap_cons in Hnd. apply NoDup_cons in Hnd as [Hk' Hnd].
  apply elem_of_cons in Hin as [E|Hin].
  - injection E as <- <-.
    rewrite filter_cons_True by (simpl; auto).
    now rewrite (filter_key_none P l k Hk').
  - assert (Hne : k' <> k).
    { intros ->. apply Hk'.
      exact (list_elem_of_fmap_2 fst l (k, v) Hin). }
    rewrite filter_cons_False; [now apply IH|].
    simpl. intros [E _]. congruence.
Qed.

Lemma live_sessions_running reg (name : string) s :
  sessions reg !! name = Some s -> is_running s = true ->
  live_sessions name reg = [s].
Proof.
  intros Hs Hr. unfold live_sessions.
  rewrite (filter_key_unique (fun kv => is_running kv.2 = true)
             (map_to_list (sessions reg)) name s).
  - reflexivity.
  - apply NoDup_fst_map_to_list.
  - now apply elem_of_map_to_list.
  - exact Hr.
Qed.

(** Starting what already runs: success, nothing touched. *)
Lemma start_running reg (name : string) (now : nat) s :
  sessions reg !! name = Some s -> is_running s = true ->
  start fetch_config spawn name now reg
  = ((true, "Server '" +:+ name +:+ "' is already running"), reg).
Proof. intros Hs Hr. unfold start. now rewrite Hs, Hr. Qed.

(** A successful start leaves a running session under the name. *)
Lemma start_success reg reg' (name : string) (now : nat) (msg : string) :
  start fetch_config spawn name now reg = ((true, msg), reg') ->
  exists s, sessions reg' !! name = Some s /\ is_running s = true.
Proof.
  unfold start. intros H.
  assert (Hdrive :
    forall r,
      match fetch_config name with
      | inl m => ((false, m), record_failure name None now m false reg)
      | inr raw =>
          match validate_transport raw with
          | inl m => ((false, m),
                      record_failure name (Some raw) now m false reg)
          | inr cfg =>
              match spawn cfg with
              | inl m => ((false, m),
                          record_failure name (Some cfg) now m true reg)
              | inr h =>
                  ((true, "Server '" +:+ name +:+ "' started"),
                   {| sessions :=
                        <[name := {| descriptor := Some cfg;
                                     handle := Some h;
                                     status := Running;
                                     started_at := now;
                                     failure := None |}]> (sessions reg);
                      spawned := spawned reg ++ [name];
                      closed := closed reg |})
              end
          end
      end = ((true, msg), r) ->
      exists s, sessions r !! name = Some s /\ is_running s = true).
  { intros r Hd.
    destruct (fetch_config name) as [m|raw]; [discriminate|].
    destruct (validate_transport raw) as [m|cfg]; [discriminate|].
    destruct (spawn cfg) as [m|h]; [discriminate|].
    injection Hd as _ <-. simpl. rewrite lookup_insert_eq.
    eexists. split; reflexivity. }
  destruct (sessions reg !! name) as [s|] eqn:Hs.
  - destruct (is_running s) eqn:Hr.
    + injection H as _ <-. eauto.
    + now apply Hdrive.
  - now apply Hdrive.
Qed.

(** The sessions a start spawns: none when the name runs already. *)
Lemma start_spawns_at_most_once reg (name : string) (now : nat) :
  let reg' := (start fetch_config spawn name now reg).2 in
  spawned reg' = spawned reg \/ spawned reg' = (spawned reg ++ [name])%list.
Proof.
  unfold start.
  destruct (sessions reg !! name) as [s|]; [destruct (is_running s)|];
    simpl; auto;
    destruct (fetch_config name) as [m|raw]; simpl; auto;
    destruct (validate_transport raw) as [m|cfg]; simpl; auto;
    destruct (spawn cfg) as [m|h]; simpl; auto.
Qed.

(** C7: [start] on a name whose session is running returns success and
    leaves the registry — sessions and spawn log alike — as it was; so
    after a successful [start] a further [start] of the name succeeds
    without spawning, exactly one live session is held for the name, and
    [list_running] shows the name exactly once. *)
Theorem C7_start_is_idempotent reg reg1 (name msg : string) (now1 now2 : nat) :
  (forall s, sessions reg !! name = Some s -> is_running s = true ->
             exists m, start fetch_config spawn name now1 reg
                       = ((true, m), reg))
  /\ (start fetch_config spawn name now1 reg = ((true, msg), reg1) ->
      exists m s,
        start fetch_config spawn name now2 reg1 = ((true, m), reg1)
        /\ sessions reg1 !! name = Some s
        /\ is_running s = true
        /\ live_sessions name reg1 = [s]
        /\ occurrences name (list_running reg1) = 1
        /\ (spawned reg1 = spawned reg
            \/ spawned reg1 = (spawned reg ++ [name])%list)).
Proof.
  split.
  - intros s Hs Hr. eexists. now apply (start_running reg name now1 s).
  - intros H1.
    destruct (start_success _ _ _ _ _ H1) as (s & Hs & Hr).
    exists ("Server '" +:+ name +:+ "' is already running"), s.
    split; [now apply (start_running reg1 name now2 s)|].
    split; [exact Hs|]. split; [exact Hr|].
    split; [now apply live_sessions_running|].
    split.
    + apply occurrences_NoDup; [apply list_running_NoDup|].
      apply elem_of_list_running. eauto.
    + pose proof (start_spawns_at_most_once reg name now1) as Hsp.
      rewrite H1 in Hsp. exact Hsp.
Qed.

End RegistryFacts.

Lemma C7_start_is_idempotent_witness :
  let reg1 := (SessionRegistry.start Samples.fetch_ok Samples.spawn_ok
                 "svc" 0 SessionRegistry.empty).2 in
  (SessionRegistry.start Samples.fetch_ok Samples.spawn_ok "svc" 1 reg1).2
  = reg1
  /\ SessionRegistry.list_running reg1 = ["svc"]
  /\ SessionRegistry.spawned reg1 = ["svc"].
Proof.
  intros reg1.
  destruct (C7_start_is_idempotent Samples.fetch_ok Samples.spawn_ok
              SessionRegistry.empty reg1 "svc" "Server 'svc' started" 0 1)
    as [_ H].
  destruct (H eq_refl) as (m & s & H2 & _).
  split; [now rewrite H2|].
  split; vm_compute; reflexivity.
Defined.

(* ===================================================================== *)
(** * Properties: the poll handlers over the executor *)
(* ===================================================================== *)

Section PollHandlerFacts.
Import TaskExecutor.
Variable E : Handlers.RuntimeEngine Engine.State.
(** The engine polls its executor. *)
Hypothesis E_poll :
  forall task_id s,
    Handlers.poll_task_result task_id s
    = Engine.poll_task_result task_id s.

Lemma engine_poll_unknown (task_id : string) (s : Engine.State) :
  tasks (Engine.executor s) !! task_id = None ->
  Engine.poll_task_result task_id s
  = (Raised (Error (Exn "TaskNotFound"
                        ("Task '" +:+ task_id +:+ "' not found"))), s).
Proof.
  intros Ht. unfold Engine.poll_task_result, poll. now rewrite Ht.
Qed.

Lemma engine_poll_known (task_id : string) (s : Engine.State) (t : Task) :
  tasks (Engine.executor s) !! task_id = Some t ->
  Engine.poll_task_result task_id s
  = (Returned (is_terminal (status t), result t, error t), s).
Proof.
  intros Ht. unfold Engine.poll_task_result, poll. now rewrite Ht.
Qed.

(** [poll_task_result] of [mcp_runtime/mcp_server.py] has no guard: an
    unknown id fails with the engine's [TaskNotFound]. *)
Lemma poll_handler_unknown (task_id : string) (s : Engine.State) :
  tasks (Engine.executor s) !! task_id = None ->
  Handlers.poll_task_result_handler task_id (Some s)
  = (Raised (Error (Exn "TaskNotFound"
                        ("Task '" +:+ task_id +:+ "' not found"))), Some s).
Proof.
  intros Ht. apply (poll_task_result_handler_raises E).
  rewrite E_poll. now apply engine_poll_unknown.
Qed.

(** On a known task it answers by the record: an error when a non-empty
    message is stored, the result when the task is terminal, ["running"]
    otherwise. *)
Lemma poll_handler_known (task_id : string) (s : Engine.State) (t : Task) :
  tasks (Engine.executor s) !! task_id = Some t ->
  Handlers.poll_task_result_handler task_id (Some s)
  = (Returned
       (if truthy_str (error t) then
          VDict [("status", VStr "error"); ("error", of_opt_str (error t))]
        else if is_terminal (status t) then
          VDict [("status", VStr "completed");
                 ("result", of_opt (result t))]
        else VDict [("status", VStr "running")]),
     Some s).
Proof.
  intros Ht. apply (poll_task_result_handler_cases E).
  rewrite E_poll. now apply engine_poll_known.
Qed.

(** [PollTaskResultTool] guards the call: the failure becomes a text. *)
Lemma poll_tool_unknown (json_dumps : value -> string) (task_id : string)
    (s : Engine.State) :
  tasks (Engine.executor s) !! task_id = None ->
  PollTool.poll_task_call json_dumps task_id s
  = (Returned ["Failed to poll task: Task '" +:+ task_id +:+ "' not found"],
     s).
Proof.
  intros Ht. unfold PollTool.poll_task_call, try_except, mbind, M_bind, bind.
  rewrite E_poll, (engine_poll_unknown _ _ Ht). reflexivity.
Qed.

End PollHandlerFacts.

(** The handler on the sample world: a completed task, an unknown id. *)
Example poll_handler_completed :
  Handlers.poll_task_result_handler (H := Samples.world) "0"
    (Some {| Engine.registry := SessionRegistry.empty;
             Engine.executor := Samples.after 2 Samples.one_completed;
             Engine.store := ∅; Engine.clock := 0 |})
  = (Returned (VDict [("status", VStr "completed");
                      ("result", VStr "done")]),
     Some {| Engine.registry := SessionRegistry.empty;
             Engine.executor := Samples.after 2 Samples.one_completed;
             Engine.store := ∅; Engine.clock := 0 |}).
Proof.
  rewrite (poll_handler_known Samples.world (fun _ _ => eq_refl) "0" _
             {| TaskExecutor.server_name := "svc";
                TaskExecutor.tool_name := "tool";
                TaskExecutor.arguments := None;
                TaskExecutor.priority := 1;
                TaskExecutor.seq := 0;
                TaskExecutor.status := TaskExecutor.Completed;
                TaskExecutor.result := Some (VStr "done");
                TaskExecutor.error := None |}).
  - reflexivity.
  - vm_compute. reflexivity.
Qed.

(** The engine failing with an exception, seen through the handlers. *)
Example execute_tool_handler_failure :
  Handlers.execute_tool_handler
    (H := Samples.failing (Exn "ServerNotRunning" "Server 'svc' is not running"))
    "svc" "tool" None (60 # 1)%Q false 1 (Some tt)
  = (Returned (VDict [("success", VBool false);
                      ("error", VStr "Server 'svc' is not running")]),
     Some tt).
Proof. reflexivity. Qed.

(* ===================================================================== *)
(** * Properties: dictionaries and schema stripping *)
(* ===================================================================== *)

Section DictFacts.
Import PyDict.

Implicit Types (d : dict) (k : string) (v : value).

Lemma dict_get_set_eq k v d : dict_get k (dict_set k v d) = Some v.
Proof.
  induction d as [|[k' v'] d IH]; simpl.
  - now rewrite String.eqb_refl.
  - destruct (String.eqb_spec k k') as [->|Hne]; simpl.
    + now rewrite String.eqb_refl.
    + apply String.eqb_neq in Hne. now rewrite Hne.
Qed.

Lemma dict_get_set_ne k k' v d :
  k <> k' -> dict_get k' (dict_set k v d) = dict_get k' d.
Proof.
  intros Hne. induction d as [|[k0 v0] d IH]; simpl.
  - assert (E : (k' =? k) = false) by (apply String.eqb_neq; congruence).
    now rewrite E.
  - destruct (String.eqb_spec k k0) as [->|Hk]; simpl.
    + assert (E : (k' =? k0) = false) by (apply String.eqb_neq; congruence).
      now rewrite E.
    + destruct (k' =? k0); [reflexivity | exact IH].
Qed.

(** Assigning to a key the dict has keeps every key in its place. *)
Lemma dict_set_keys k v d :
  dict_has k d = true -> (dict_set k v d).*1 = d.*1.
Proof.
  unfold dict_has. induction d as [|[k' v'] d IH]; simpl; [discriminate|].
  destruct (String.eqb_spec k k') as [->|Hk]; [reflexivity|].
  intros Hh. rewrite !fmap_cons. f_equal. now apply IH.
Qed.

Lemma dict_get_without banned k d :
  dict_get k (without_keys banned d)
  = if decide (k ∈ banned) then None else dict_get k d.
Proof.
  unfold without_keys. induction d as [|[k' v'] d IH].
  - simpl. now destruct (decide (k ∈ banned)).
  - rewrite filter_cons.
    destruct (decide ((k', v').1 ∉ banned)) as [Hk'|Hk']; simpl in Hk'.
    + cbn [dict_get].
      destruct (String.eqb_spec k k') as [->|Hne]; [|exact IH].
      destruct (decide (k' ∈ banned)); [contradiction | reflexivity].
    + rewrite IH. cbn [dict_get].
      destruct (decide (k ∈ banned)) as [|Hk]; [reflexivity|].
      destruct (String.eqb_spec k k') as [->|Hne]; [|reflexivity].
      exfalso. apply Hk'. exact Hk.
Qed.

Lemma without_keys_idem banned d :
  without_keys banned (without_keys banned d) = without_keys banned d.
Proof.
  unfold without_keys. induction d as [|kv d IH]; [reflexivity|].
  rewrite filter_cons. destruct (decide (kv.1 ∉ banned)) as [Hk|Hk].
  - rewrite filter_cons_True by exact Hk. now rewrite IH.
  - exact IH.
Qed.

(** Removing more keys after fewer is removing the more. *)
Lemma without_keys_more banned banned' d :
  banned ⊆ banned' ->
  without_keys banned' (without_keys banned d) = without_keys banned' d.
Proof.
  intros Hsub. unfold without_keys. induction d as [|kv d IH]; [reflexivity|].
  rewrite (filter_cons (fun kv => kv.1 ∉ banned)).
  rewrite (filter_cons (fun kv => kv.1 ∉ banned') kv d).
  destruct (decide (kv.1 ∉ banned)) as [Hk|Hk].
  - rewrite filter_cons. destruct (decide (kv.1 ∉ banned')); now rewrite IH.
  - rewrite IH. destruct (decide (kv.1 ∉ banned')) as [Hk'|]; [|reflexivity].
    exfalso. apply Hk. intros Hin. apply Hk'. now apply Hsub.
Qed.

(** A comprehension over items that all succeed. *)
Lemma py_map_inr {A B} (f : A -> Py B) (l : list A) (out : list B) :
  py_map f l = inr out ->
  length out = length l
  /\ forall i x, l !! i = Some x ->
                 exists y, f x = inr y /\ out !! i = Some y.
Proof.
  revert out. induction l as [|x l IH]; intros out Hm; simpl in Hm.
  - injection Hm as <-. split; [reflexivity|]. intros i x Hi.
    destruct i; discriminate.
  - destruct (f x) as [e|y] eqn:Hx; [discriminate|].
    destruct (py_map f l) as [e|ys] eqn:Hl; [discriminate|].
    injection Hm as <-. destruct (IH ys eq_refl) as [Hlen Hall].
    split; [simpl; now rewrite Hlen|].
    intros [|i] x' Hi; simpl in Hi.
    + injection Hi as <-. eauto.
    + now apply Hall.
Qed.

(** A comprehension that fails does so at its first failing item. *)
Lemma py_map_inl {A B} (f : A -> Py B) (l : list A) (e : exn) :
  py_map f l = inl e <->
  exists (pre : list A) (x : A) (suf : list A),
    l = (pre ++ x :: suf)%list
    /\ (forall p, p ∈ pre -> exists y, f p = inr y)
    /\ f x = inl e.
Proof.
  split.
  - induction l as [|x l IH]; simpl; [discriminate|].
    destruct (f x) as [e0|y] eqn:Hx.
    + intros [= <-]. exists [], x, l. split; [reflexivity|].
      split; [|exact Hx]. intros p Hp. inversion Hp.
    + destruct (py_map f l) as [e0|ys]; [|discriminate].
      intros [= <-]. destruct (IH eq_refl) as (pre & x0 & suf & -> & Hpre & Hx0).
      exists (x :: pre), x0, suf. split; [reflexivity|].
      split; [|exact Hx0]. intros p Hp.
      apply elem_of_cons in Hp as [->|Hp]; eauto.
  - intros (pre & x & suf & -> & Hpre & Hx).
    induction pre as [|p pre IH]; simpl.
    + now rewrite Hx.
    + destruct (Hpre p (list_elem_of_here _ _)) as [y ->].
      rewrite IH; [reflexivity|].
      intros q Hq. apply Hpre. now apply list_elem_of_further.
Qed.

(** Stripping, seen item by item: the output has one dict per item of the
    input, in order; each lacks every banned key and answers every other
    key as the input dict did. *)
Lemma strip_keys_inr banned (tools : value) (out : list value) :
  strip_keys banned tools = inr out ->
  exists items,
    py_iter tools = inr items
    /\ length out = length items
    /\ forall i o, out !! i = Some o ->
         exists d,
           items !! i = Some (VDict d)
           /\ o = VDict (without_keys banned d)
           /\ (forall k, k ∈ banned ->
                         dict_get k (without_keys banned d) = None)
           /\ (forall k, k ∉ banned ->
                         dict_get k (without_keys banned d) = dict_get k d).
Proof.
  unfold strip_keys. intros Hs.
  destruct (py_iter tools) as [e|items]; [discriminate|].
  exists items. split; [reflexivity|].
  apply py_map_inr in Hs as [Hlen Hall]. split; [exact Hlen|].
  intros i o Ho.
  destruct (items !! i) as [x|] eqn:Hi.
  - destruct (Hall i x Hi) as (y & Hy & Hoy).
    rewrite Ho in Hoy. injection Hoy as <-.
    destruct x as [| | | | |d]; simpl in Hy; try discriminate.
    injection Hy as <-. exists d. split; [reflexivity|].
    split; [reflexivity|]. split; intros k Hk; rewrite dict_get_without.
    + now destruct (decide (k ∈ banned)).
    + now destruct (decide (k ∈ banned)).
  - apply lookup_ge_None in Hi. apply lookup_lt_Some in Ho. lia.
Qed.

Lemma strip_keys_dicts banned (ds : list dict) :
  strip_keys banned (VList (VDict <$> ds))
  = inr (VDict <$> (without_keys banned <$> ds)).
Proof.
  unfold strip_keys. cbn [py_iter].
  induction ds as [|d ds IH]; [reflexivity|].
  rewrite !fmap_cons. cbn [py_map py_dict_of]. now rewrite IH.
Qed.

(** What a successful stripping returns is a list of dicts. *)
Lemma strip_keys_out banned (tools : value) (out : list value) :
  strip_keys banned tools = inr out ->
  exists ds, out = VDict <$> (without_keys banned <$> ds)
             /\ py_iter tools = inr (VDict <$> ds).
Proof.
  unfold strip_keys. destruct (py_iter tools) as [e|items]; [discriminate|].
  revert out. induction items as [|x items IH]; intros out Hm; simpl in Hm.
  - injection Hm as <-. now exists [].
  - destruct x as [| | | | |d]; simpl in Hm; try discriminate.
    destruct (py_map _ items) as [e|ys] eqn:Hl; [discriminate|].
    injection Hm as <-. destruct (IH ys eq_refl) as (ds & -> & [= ->]).
    now exists (d :: ds).
Qed.

End DictFacts.

Section StripFacts.
Import PyDict.

(** X1: when [_strip_tool_schema] of [mcp_runtime/mcp_server.py]
    returns, its output has one dict per tool of the input, in order;
    each has no ["tool_schema"] key and gives for every other key what the
    input tool gave. *)
Theorem X1_strip_tool_schema_keeps_all_but_schema
    (tools : value) (out : list value) :
  DiscoveryHandlers._strip_tool_schema tools = inr out ->
  exists items,
    py_iter tools = inr items
    /\ length out = length items
    /\ forall i o, out !! i = Some o ->
         exists d d',
           items !! i = Some (VDict d)
           /\ o = VDict d'
           /\ dict_get "tool_schema" d' = None
           /\ (forall k, k <> "tool_schema" -> dict_get k d' = dict_get k d).
Proof.
  intros Hs. apply strip_keys_inr in Hs as (items & Hit & Hlen & Hall).
  exists items. split; [exact Hit|]. split; [exact Hlen|].
  intros i o Ho. destruct (Hall i o Ho) as (d & Hi & -> & Hban & Hkeep).
  exists d, (without_keys ["tool_schema"] d).
  split; [exact Hi|]. split; [reflexivity|]. split.
  - apply Hban. apply list_elem_of_here.
  - intros k Hk. apply Hkeep. intros Hin.
    apply list_elem_of_singleton in Hin. contradiction.
Qed.

(** X2: [_strip_tool_schema] of [tools/get_server_tools.py] removes
    ["tool_schema"] and ["inputSchema"] and nothing else; applied to what
    the [mcp_runtime] version returned it gives what it gives on the
    original tools, and applied to its own output it changes nothing. *)
Theorem X2_strip_versions_compose (tools : value) (out1 : list value) :
  DiscoveryHandlers._strip_tool_schema tools = inr out1 ->
  exists out2,
    ListingTools._strip_tool_schema tools = inr out2
    /\ ListingTools._strip_tool_schema (VList out1) = inr out2
    /\ ListingTools._strip_tool_schema (VList out2) = inr out2
    /\ DiscoveryHandlers._strip_tool_schema (VList out1) = inr out1
    /\ length out2 = length out1
    /\ forall i o, out2 !! i = Some o ->
         exists d d',
           py_iter tools = inr (VDict <$> d)
           /\ o = VDict d'
           /\ dict_get "tool_schema" d' = None
           /\ dict_get "inputSchema" d' = None.
Proof.
  intros Hs. unfold DiscoveryHandlers._strip_tool_schema in *.
  unfold ListingTools._strip_tool_schema.
  destruct (strip_keys_out _ _ _ Hs) as (ds & -> & Hit).
  set (b2 := ["tool_schema"; "inputSchema"]).
  exists (VDict <$> (without_keys b2 <$> ds)).
  assert (Htools : strip_keys b2 tools
                   = inr (VDict <$> (without_keys b2 <$> ds))).
  { unfold strip_keys. rewrite Hit.
    pose proof (strip_keys_dicts b2 ds) as Hd. unfold strip_keys in Hd.
    exact Hd. }
  split; [exact Htools|]. split.
  { rewrite strip_keys_dicts. do 2 f_equal.
    rewrite <- list_fmap_compose. apply list_fmap_ext. intros _ d _. simpl.
    apply without_keys_more. intros k Hk.
    apply list_elem_of_singleton in Hk as ->. apply list_elem_of_here. }
  split.
  { rewrite strip_keys_dicts. do 2 f_equal.
    rewrite <- list_fmap_compose. apply list_fmap_ext. intros _ d _. simpl.
    apply without_keys_idem. }
  split.
  { rewrite strip_keys_dicts. do 2 f_equal.
    rewrite <- list_fmap_compose. apply list_fmap_ext. intros _ d _. simpl.
    apply without_keys_idem. }
  split; [now rewrite !length_fmap|].
  intros i o Ho. rewrite !list_lookup_fmap in Ho.
  destruct (ds !! i) as [d|]; [|discriminate]. injection Ho as <-.
  exists ds, (without_keys b2 d). split; [exact Hit|].
  split; [reflexivity|].
  split; rewrite dict_get_without; reflexivity.
Qed.

(** X3: [_strip_tool_schema] raises exactly when the tools cannot be
    iterated ([TypeError]) or when some item is not a dict; in the latter
    case the error is the [AttributeError] of the first such item.  An
    empty list, dict or string gives the empty list. *)
Theorem X3_strip_tool_schema_failure (tools : value) (e : exn) :
  (DiscoveryHandlers._strip_tool_schema tools = inl e <->
   py_iter tools = inl e
   \/ exists (pre : list value) (x : value) (suf : list value),
        py_iter tools = inr (pre ++ x :: suf)%list
        /\ (forall p, p ∈ pre -> exists d, p = VDict d)
        /\ (forall d, x <> VDict d)
        /\ e = Exn "AttributeError"
                   ("'" +:+ type_name x
                    +:+ "' object has no attribute 'items'"))
  /\ DiscoveryHandlers._strip_tool_schema (VList []) = inr []
  /\ DiscoveryHandlers._strip_tool_schema (VDict []) = inr []
  /\ DiscoveryHandlers._strip_tool_schema (VStr EmptyString) = inr []
  /\ DiscoveryHandlers._strip_tool_schema VNone
     = inl (Exn "TypeError" "'NoneType' object is not iterable").
Proof.
  split; [|repeat split; reflexivity].
  unfold DiscoveryHandlers._strip_tool_schema, strip_keys.
  destruct (py_iter tools) as [e0|items].
  { split.
    - intros [= <-]. now left.
    - intros [[= <-]|(pre & x & suf & Hit & _)]; [reflexivity|discriminate]. }
  rewrite py_map_inl. split.
  - intros (pre & x & suf & -> & Hpre & Hx). right.
    exists pre, x, suf. split; [reflexivity|]. split.
    + intros p Hp. destruct (Hpre p Hp) as [y Hy].
      destruct p; simpl in Hy; try discriminate. eauto.
    + destruct x; simpl in Hx; try discriminate;
        injection Hx as <-; (split; [intros d0; discriminate | reflexivity]).
  - intros [Hbad|(pre & x & suf & [= ->] & Hpre & Hx & ->)]; [discriminate|].
    exists pre, x, suf. split; [reflexivity|]. split.
    + intros p Hp. destruct (Hpre p Hp) as [d ->]. simpl. eauto.
    + destruct x; try reflexivity. now destruct (Hx d).
Qed.

End StripFacts.

Lemma X1_strip_tool_schema_keeps_all_but_schema_witness :
  DiscoveryHandlers._strip_tool_schema
    (VList [VDict MoreSamples.tool_read; VDict MoreSamples.tool_write])
  = inr [VDict [("tool_name", VStr "read"); ("server_name", VStr "fs");
                ("inputSchema", VDict [])];
         VDict MoreSamples.tool_write]
  /\ exists items,
       PyDict.py_iter
         (VList [VDict MoreSamples.tool_read; VDict MoreSamples.tool_write])
       = inr items.
Proof.
  split; [reflexivity|].
  destruct (X1_strip_tool_schema_keeps_all_but_schema
              (VList [VDict MoreSamples.tool_read;
                      VDict MoreSamples.tool_write])
              _ eq_refl) as (items & Hit & _).
  exists items. exact Hit.
Defined.

Lemma X2_strip_versions_compose_witness :
  exists out2,
    ListingTools._strip_tool_schema
      (VList [VDict MoreSamples.tool_read; VDict MoreSamples.tool_write])
    = inr out2
    /\ length out2 = 2.
Proof.
  destruct (X2_strip_versions_compose
              (VList [VDict MoreSamples.tool_read;
                      VDict MoreSamples.tool_write])
              _ eq_refl) as (out2 & H2 & _ & _ & _ & Hlen & _).
  exists out2. split; [exact H2 | exact Hlen].
Defined.

(* ===================================================================== *)
(** * Properties: the discovery handlers and the listing tools *)
(* ===================================================================== *)

Section DiscoveryFacts.
Import PyDict DiscoveryHandlers.
Context {S : Type} (C : DiscoveryClient S).

Lemma dict_has_get (k : string) (d : dict) :
  dict_has k d = true <-> exists v, dict_get k d = Some v.
Proof.
  unfold dict_has. destruct (dict_get k d); split; eauto; try discriminate.
  intros [v Hv]. discriminate.
Qed.

(** The rewriting of the ["tools"] entry, by cases. *)
Lemma strip_tools_in_cases (strip : value -> Py (list value))
    (result : dict) :
  match dict_get "tools" result with
  | None => strip_tools_in strip result = inr result
  | Some tools =>
      match strip tools with
      | inl e => strip_tools_in strip result = inl e
      | inr stripped =>
          strip_tools_in strip result
          = inr (dict_set "tools" (VList stripped) result)
      end
  end.
Proof.
  unfold strip_tools_in, dict_has.
  destruct (dict_get "tools" result) as [tools|]; simpl; [|reflexivity].
  destruct (strip tools); reflexivity.
Qed.

Lemma strip_tools_in_answers (strip : value -> Py (list value))
    (result : dict) :
  answers_stripped strip result
    match strip_tools_in strip result with
    | inl e => Raised (Error e)
    | inr result' => Returned (VDict result')
    end.
Proof.
  pose proof (strip_tools_in_cases strip result) as Hc.
  destruct (dict_get "tools" result) as [tools|] eqn:Ht.
  - destruct (strip tools) as [e|stripped] eqn:Hs; rewrite Hc; simpl.
    + exists tools, e. auto.
    + eexists. split; [reflexivity|]. split.
      { apply dict_set_keys. apply dict_has_get. eauto. }
      split.
      { intros k Hk. apply dict_get_set_ne. congruence. }
      rewrite Ht. exists stripped. split; [exact Hs|].
      apply dict_get_set_eq.
  - rewrite Hc. simpl. exists result. rewrite Ht. auto.
Qed.

(** X4: [search_tools] and [get_server_tools] of
    [mcp_runtime/mcp_server.py] hand their arguments to the discovery
    client as they are and return its answer with the same keys in the
    same order and every value but the one under ["tools"], which is the
    stripped list; an answer without ["tools"] comes back unchanged.
    Neither handler has a guard: what the client or the stripping raises
    leaves the handler. *)
Theorem X4_discovery_handlers_strip_only_tools (s s' : S) (result : dict) :
  (forall query limit min_score server_names,
      dc_search_tools query limit min_score server_names s
      = (Returned result, s') ->
      let out := search_tools_handler query limit min_score server_names
                   (Some s) in
      out.2 = Some s'
      /\ answers_stripped _strip_tool_schema result out.1
      /\ (dict_get "tools" result = None ->
          out.1 = Returned (VDict result)))
  /\ (forall server_name limit offset,
      dc_get_server_tools server_name limit offset s
      = (Returned result, s') ->
      let out := get_server_tools_handler server_name limit offset (Some s) in
      out.2 = Some s'
      /\ answers_stripped _strip_tool_schema result out.1
      /\ (dict_get "tools" result = None ->
          out.1 = Returned (VDict result)))
  /\ (forall query limit min_score server_names r,
      dc_search_tools query limit min_score server_names s = (Raised r, s') ->
      search_tools_handler query limit min_score server_names (Some s)
      = (Raised r, Some s'))
  /\ (forall server_name limit offset r,
      dc_get_server_tools server_name limit offset s = (Raised r, s') ->
      get_server_tools_handler server_name limit offset (Some s)
      = (Raised r, Some s')).
Proof.
  assert (Hgen : forall call : M S dict,
            call s = (Returned result, s') ->
            let out := (result ← Handlers.on_engine "discovery_client" call;
                        result' ← lift (strip_tools_in _strip_tool_schema
                                          result);
                        ret (VDict result')) (Some s) in
            out.2 = Some s'
            /\ answers_stripped _strip_tool_schema result out.1
            /\ (dict_get "tools" result = None ->
                out.1 = Returned (VDict result))).
  { intros call Hcall out. subst out.
    unfold mbind, M_bind, bind. rewrite on_engine_some, Hcall. simpl.
    pose proof (strip_tools_in_answers _strip_tool_schema result) as Ha.
    pose proof (strip_tools_in_cases _strip_tool_schema result) as Hc.
    destruct (strip_tools_in _strip_tool_schema result) as [e|result'];
      simpl.
    - split; [reflexivity|]. split; [exact Ha|].
      intros Hn. rewrite Hn in Hc. discriminate.
    - split; [reflexivity|]. split; [exact Ha|].
      intros Hn. rewrite Hn in Hc. now injection Hc as ->. }
  split; [intros; now apply Hgen|].
  split; [intros; now apply Hgen|].
  split.
  - intros query limit min_score server_names r Hcall.
    unfold search_tools_handler, mbind, M_bind, bind.
    now rewrite on_engine_some, Hcall.
  - intros server_name limit offset r Hcall.
    unfold get_server_tools_handler, mbind, M_bind, bind.
    now rewrite on_engine_some, Hcall.
Qed.

End DiscoveryFacts.

Lemma X4_discovery_handlers_strip_only_tools_witness :
  DiscoveryHandlers.search_tools_handler (H := MoreSamples.client)
    "read a file" 10 (3 # 10)%Q None (Some tt)
  = (Returned
       (VDict [("tools",
                VList [VDict [("tool_name", VStr "read");
                              ("server_name", VStr "fs");
                              ("inputSchema", VDict [])];
                       VDict MoreSamples.tool_write]);
               ("total_results", VInt 2)]),
     Some tt)
  /\ (DiscoveryHandlers.search_tools_handler (H := MoreSamples.client)
        "read a file" 10 (3 # 10)%Q None (Some tt)).2 = Some tt.
Proof.
  split; [reflexivity|].
  destruct (X4_discovery_handlers_strip_only_tools MoreSamples.client
              tt tt MoreSamples.tools_answer) as [H1 _].
  apply (H1 "read a file" 10%Z (3 # 10)%Q None eq_refl).
Defined.

Section ListingToolFacts.
Import PyDict DiscoveryHandlers ListingTools.
Context {S : Type} (C : DiscoveryClient S).
Variable json_dumps : value -> string.

(** After the rewriting, the length of the ["tools"] entry can always be
    taken: it is the number of tools, or zero when there is no entry. *)
Lemma tools_count_after_strip (strip : value -> Py (list value))
    (result result' : dict) :
  strip_tools_in strip result = inr result' ->
  exists n,
    py_len (dict_get_default "tools" (VList []) result') = inr n
    /\ match dict_get "tools" result with
       | None => n = 0
       | Some tools =>
           exists stripped, strip tools = inr stripped /\ n = length stripped
       end.
Proof.
  intros Hs. pose proof (strip_tools_in_cases strip result) as Hc.
  unfold dict_get_default.
  destruct (dict_get "tools" result) as [tools|] eqn:Ht.
  - destruct (strip tools) as [e|stripped] eqn:Hst; rewrite Hc in Hs;
      [discriminate|].
    injection Hs as <-. rewrite dict_get_set_eq. simpl. eauto.
  - rewrite Hc in Hs. injection Hs as <-. rewrite Ht. simpl. eauto.
Qed.

(** X5: [GetServerToolsTool.__call__] never lets an error out.  When the
    client answers and the tools can be stripped it returns three texts:
    the count line with the number of tools (zero without a ["tools"]
    entry), the JSON of the stripped answer, the guidance.  When the client
    or the stripping fails it returns the one text
    ["Failed to get server tools: <message>"]. *)
Theorem X5_get_server_tools_tool (server_name : string) (limit offset : Z)
    (s : S) :
  (forall e g',
      get_server_tools_call json_dumps server_name limit offset s
      <> (Raised (Error e), g'))
  /\ (forall result s',
      dc_get_server_tools server_name limit offset s
      = (Returned result, s') ->
      match strip_tools_in _strip_tool_schema result with
      | inr result' =>
          exists n,
            get_server_tools_call json_dumps server_name limit offset s
            = (Returned
                 ["Found " +:+ pretty n +:+ " tools on server '"
                    +:+ server_name +:+ "'";
                  json_dumps (VDict result');
                  tools_guidance server_name], s')
            /\ match dict_get "tools" result with
               | None => n = 0
               | Some tools =>
                   exists items,
                     py_iter tools = inr items /\ n = length items
               end
      | inl e =>
          get_server_tools_call json_dumps server_name limit offset s
          = (Returned ["Failed to get server tools: " +:+ exn_str e], s')
      end)
  /\ (forall e s',
      dc_get_server_tools server_name limit offset s
      = (Raised (Error e), s') ->
      get_server_tools_call json_dumps server_name limit offset s
      = (Returned ["Failed to get server tools: " +:+ exn_str e], s')).
Proof.
  split.
  { intros e g'. apply try_except_no_error.
    intros e0 g1. eexists _, _. reflexivity. }
  split.
  - intros result s' Hcall.
    unfold get_server_tools_call, try_except, mbind, M_bind, bind.
    rewrite Hcall.
    destruct (strip_tools_in _strip_tool_schema result) as [e|result'] eqn:Hs;
      simpl; [reflexivity|].
    destruct (tools_count_after_strip _ _ _ Hs) as (n & Hn & Hcount).
    rewrite Hn. simpl. exists n. split; [reflexivity|].
    destruct (dict_get "tools" result) as [tools|]; [|exact Hcount].
    destruct Hcount as (stripped & Hst & ->).
    apply strip_keys_inr in Hst as (items & Hit & Hlen & _). eauto.
  - intros e s' Hcall.
    unfold get_server_tools_call, try_except, mbind, M_bind, bind.
    now rewrite Hcall.
Qed.

(** X6: [ListServersTool.__call__] never lets an error out.  When the
    client answers, the count line carries [len] of the ["servers"] entry
    — zero when the entry is missing — followed by the JSON of the answer
    and the guidance; when [len] cannot be taken of the entry (a [null],
    a number) or the client fails, it returns the one text
    ["Failed to list servers: <message>"]. *)
Theorem X6_list_servers_tool (limit offset : Z) (s : S) :
  (forall e g',
      list_servers_call json_dumps limit offset s <> (Raised (Error e), g'))
  /\ (forall result s',
      dc_list_servers limit offset s = (Returned result, s') ->
      match dict_get "servers" result with
      | None =>
          list_servers_call json_dumps limit offset s
          = (Returned ["Listed 0 servers"; json_dumps (VDict result);
                       servers_guidance], s')
      | Some servers =>
          match py_len servers with
          | inr n =>
              list_servers_call json_dumps limit offset s
              = (Returned ["Listed " +:+ pretty n +:+ " servers";
                           json_dumps (VDict result); servers_guidance], s')
          | inl e =>
              list_servers_call json_dumps limit offset s
              = (Returned ["Failed to list servers: " +:+ exn_str e], s')
              /\ exn_str e
                 = "object of type '" +:+ type_name servers
                   +:+ "' has no len()"
          end
      end)
  /\ (forall e s',
      dc_list_servers limit offset s = (Raised (Error e), s') ->
      list_servers_call json_dumps limit offset s
      = (Returned ["Failed to list servers: " +:+ exn_str e], s')).
Proof.
  split.
  { intros e g'. apply try_except_no_error.
    intros e0 g1. eexists _, _. reflexivity. }
  split.
  - intros result s' Hcall.
    unfold list_servers_call, try_except, mbind, M_bind, bind.
    rewrite Hcall. unfold dict_get_default.
    destruct (dict_get "servers" result) as [servers|]; [|reflexivity].
    simpl. destruct servers; simpl; try reflexivity; split; reflexivity.
  - intros e s' Hcall.
    unfold list_servers_call, try_except, mbind, M_bind, bind.
    now rewrite Hcall.
Qed.

End ListingToolFacts.

Lemma X5_get_server_tools_tool_witness :
  ListingTools.get_server_tools_call (H := MoreSamples.client)
    MoreSamples.show "fs" 50 0 tt
  = (Returned ["Found 2 tools on server 'fs'"; "dict";
               ListingTools.tools_guidance "fs"], tt)
  /\ ListingTools.get_server_tools_call (H := MoreSamples.unreachable)
       MoreSamples.show "fs" 50 0 tt
     = (Returned ["Failed to get server tools: connection refused"], tt).
Proof.
  split; [reflexivity|].
  destruct (X5_get_server_tools_tool MoreSamples.unreachable MoreSamples.show
              "fs" 50%Z 0%Z tt) as (_ & _ & H3).
  exact (H3 (Exn "ConnectError" "connection refused") tt eq_refl).
Defined.

Lemma X6_list_servers_tool_witness :
  ListingTools.list_servers_call (H := MoreSamples.null_client)
    MoreSamples.show 50 0 tt
  = (Returned
       ["Failed to list servers: object of type 'NoneType' has no len()"],
     tt)
  /\ ListingTools.list_servers_call (H := MoreSamples.unreachable)
       MoreSamples.show 50 0 tt
     = (Returned ["Failed to list servers: connection refused"], tt).
Proof.
  split; [reflexivity|].
  destruct (X6_list_servers_tool MoreSamples.unreachable MoreSamples.show
              50%Z 0%Z tt) as (_ & _ & H3).
  exact (H3 (Exn "ConnectError" "connection refused") tt eq_refl).
Defined.

(* ===================================================================== *)
(** * Properties: polling and server management seen by the caller *)
(* ===================================================================== *)

Section PollToolFacts.
Context {S : Type} (E : Handlers.RuntimeEngine S).
Variable json_dumps : value -> string.

Import Handlers PollTool.

Lemma truthy_str_cases (error : option string) :
  (truthy_str error = true /\ exists m, error = Some m /\ m <> EmptyString)
  \/ (truthy_str error = false
      /\ (error = None \/ error = Some EmptyString)).
Proof.
  destruct error as [m|]; simpl; [|right; auto].
  destruct (String.eqb_spec m EmptyString) as [->|Hne]; simpl.
  - right. auto.
  - left. eauto.
Qed.

(** X7: [PollTaskResultTool.__call__] never lets an error out: a failure
    of the engine — an unknown task id among them — comes back as the one
    text ["Failed to poll task: <message>"], and the engine is left as the
    call left it. *)
Theorem X7_poll_tool_never_raises (task_id : string) (s : S) :
  (forall e g', poll_task_call json_dumps task_id s <> (Raised (Error e), g'))
  /\ (forall e s',
        poll_task_result task_id s = (Raised (Error e), s') ->
        poll_task_call json_dumps task_id s
        = (Returned ["Failed to poll task: " +:+ exn_str e], s'))
  /\ (forall t s',
        poll_task_result task_id s = (Returned t, s') ->
        exists texts,
          poll_task_call json_dumps task_id s = (Returned texts, s')
          /\ 1 <= length texts <= 3).
Proof.
  split.
  { intros e g'. apply try_except_no_error.
    intros e0 g1. eexists _, _. reflexivity. }
  split.
  - intros e s' Hcall.
    unfold poll_task_call, try_except, mbind, M_bind, bind.
    now rewrite Hcall.
  - intros [[is_done result] error] s' Hcall.
    unfold poll_task_call, try_except, mbind, M_bind, bind.
    rewrite Hcall. simpl.
    destruct (truthy_str error); [|destruct is_done];
      eexists; (split; [reflexivity | simpl; lia]).
Qed.

(** X8: both poll handlers read the engine's triple alike.  A non-empty
    error message wins over [is_done] and the result: the answer is the
    error and carries no result.  An empty message counts as no error: the
    task is reported completed when [is_done] holds and running otherwise.
    In these last two cases the tool's second text is the JSON of exactly
    the dict the [mcp_runtime] handler returns. *)
Theorem X8_poll_handlers_agree (task_id : string) (s s' : S)
    (is_done : bool) (result : option value) (error : option string) :
  poll_task_result task_id s = (Returned (is_done, result, error), s') ->
  (exists m,
      error = Some m /\ m <> EmptyString
      /\ poll_task_result_handler task_id (Some s)
         = (Returned (VDict [("status", VStr "error"); ("error", VStr m)]),
            Some s')
      /\ poll_task_call json_dumps task_id s
         = (Returned ["Task error: " +:+ m], s'))
  \/ ((error = None \/ error = Some EmptyString)
      /\ exists v texts,
          v = (if is_done
               then VDict [("status", VStr "completed");
                           ("result", of_opt result)]
               else VDict [("status", VStr "running")])
          /\ poll_task_result_handler task_id (Some s)
             = (Returned v, Some s')
          /\ poll_task_call json_dumps task_id s = (Returned texts, s')
          /\ texts !! 1 = Some (json_dumps v)).
Proof.
  intros Hcall.
  pose proof (poll_task_result_handler_cases E task_id s s' is_done result
                error Hcall) as Hh.
  assert (Ht : poll_task_call json_dumps task_id s
               = (Returned
                    (if truthy_str error then
                       ["Task error: " +:+ default EmptyString error]
                     else if is_done then
                       ["Task '" +:+ task_id +:+ "' completed";
                        json_dumps (VDict [("status", VStr "completed");
                                           ("result", of_opt result)])]
                     else
                       ["Task '" +:+ task_id +:+ "' still running";
                        json_dumps (VDict [("status", VStr "running")]);
                        "Next: Poll again after a short delay"]), s')).
  { unfold poll_task_call, try_except, mbind, M_bind, bind.
    rewrite Hcall. simpl.
    destruct (truthy_str error); [|destruct is_done]; reflexivity. }
  destruct (truthy_str_cases error) as [[Htr (m & -> & Hm)]|[Htr Hnone]];
    rewrite Htr in Hh, Ht.
  - left. exists m. auto.
  - right. split; [exact Hnone|].
    destruct is_done; eexists _, _;
      (split; [reflexivity|]); (split; [exact Hh|]);
      (split; [exact Ht | reflexivity]).
Qed.

(** X9: [manage_server] has no guard.  For ["start"] and ["shutdown"] it
    returns the engine's pair as [{"success", "message"}], and whatever the
    engine raises — or the [AttributeError] of an engine not yet created —
    leaves the handler, where [execute_tool] would have answered
    [success = False]. *)
Theorem X9_manage_server_passes_through (server_name : string) :
  (forall s s' success message,
      start_mcp_server server_name s = (Returned (success, message), s') ->
      manage_server server_name "start" (Some s)
      = (Returned (VDict [("success", VBool success);
                          ("message", VStr message)]), Some s'))
  /\ (forall s s' success message,
      shutdown_mcp_server server_name s = (Returned (success, message), s') ->
      manage_server server_name "shutdown" (Some s)
      = (Returned (VDict [("success", VBool success);
                          ("message", VStr message)]), Some s'))
  /\ (forall s s' r,
      start_mcp_server server_name s = (Raised r, s') ->
      manage_server server_name "start" (Some s) = (Raised r, Some s'))
  /\ (forall s s' r,
      shutdown_mcp_server server_name s = (Raised r, s') ->
      manage_server server_name "shutdown" (Some s) = (Raised r, Some s'))
  /\ manage_server server_name "start" None
     = (Raised (Error (attribute_error "start_mcp_server")), None)
  /\ manage_server server_name "shutdown" None
     = (Raised (Error (attribute_error "shutdown_mcp_server")), None).
Proof.
  repeat split; try reflexivity;
    intros s s'; intros; unfold manage_server; simpl;
    unfold mbind, M_bind, bind; rewrite on_engine_some;
    match goal with H : _ = _ |- _ => rewrite H end; reflexivity.
Qed.

End PollToolFacts.

Lemma X7_poll_tool_never_raises_witness :
  PollTool.poll_task_call
    (H := Samples.failing (Exn "TaskNotFound" "Task 'x' not found"))
    MoreSamples.show "x" tt
  = (Returned ["Failed to poll task: Task 'x' not found"], tt).
Proof.
  destruct (X7_poll_tool_never_raises
              (Samples.failing (Exn "TaskNotFound" "Task 'x' not found"))
              MoreSamples.show "x" tt) as (_ & H2 & _).
  exact (H2 (Exn "TaskNotFound" "Task 'x' not found") tt eq_refl).
Defined.

Lemma X8_poll_handlers_agree_witness :
  Handlers.poll_task_result_handler
    (H := MoreSamples.polling (true, Some (VStr "done"), Some EmptyString))
    "0" (Some tt)
  = (Returned (VDict [("status", VStr "completed");
                      ("result", VStr "done")]), Some tt).
Proof.
  destruct (X8_poll_handlers_agree
              (MoreSamples.polling (true, Some (VStr "done"), Some EmptyString))
              MoreSamples.show "0" tt tt true (Some (VStr "done"))
              (Some EmptyString) eq_refl)
    as [(m & Hm & Hne & _)|(_ & v & texts & -> & Hh & _)].
  - injection Hm as <-. now destruct Hne.
  - exact Hh.
Defined.

Lemma X9_manage_server_passes_through_witness :
  Handlers.manage_server
    (H := Samples.failing (Exn "RuntimeError" "spawn failed"))
    "svc" "start" (Some tt)
  = (Raised (Error (Exn "RuntimeError" "spawn failed")), Some tt).
Proof.
  destruct (X9_manage_server_passes_through
              (Samples.failing (Exn "RuntimeError" "spawn failed")) "svc")
    as (_ & _ & H3 & _).
  exact (H3 tt tt (Error (Exn "RuntimeError" "spawn failed")) eq_refl).
Defined.

(* ===================================================================== *)
(** * Properties: what the router delegates and what it answers itself *)
(* ===================================================================== *)

Section RouterDelegation.
Import Router RouterTable.

Ltac by_operation :=
  unfold dispatch, required;
  repeat match goal with
         | |- context [if ?s =? ?t then _ else _] =>
             destruct (String.eqb_spec s t)
         | |- context [match ?o with Some _ => _ | None => _ end] =>
             destruct o eqn:?
         end.

(** X10: whatever the router delegates is the call its operation names,
    made with the caller's own arguments: every argument is handed over as
    given — the search limit too — except the limit of the two listing
    operations. *)
Theorem X10_router_passes_arguments (a : RouterArgs) (c : ToolCall) :
  dispatch a = Delegate c ->
  match c with
  | CallSearchTools q l m sn ty en =>
      operation a = "search_tools" /\ query a = Some q /\ l = limit a
      /\ m = min_score a /\ sn = server_names a /\ ty = tool_type a
      /\ en = enabled a
  | CallSearchServers q l m =>
      operation a = "search_servers" /\ query a = Some q /\ l = limit a
      /\ m = min_score a
  | CallGetServerInfo sname =>
      operation a = "get_server_info" /\ server_name a = Some sname
  | CallGetServerTools sname l o =>
      operation a = "get_server_tools" /\ server_name a = Some sname
      /\ l = listing_limit (limit a) /\ o = offset a
  | CallGetToolDetails sname t =>
      operation a = "get_tool_details" /\ server_name a = Some sname
      /\ tool_name a = Some t
  | CallListServers l o =>
      operation a = "list_servers" /\ l = listing_limit (limit a)
      /\ o = offset a
  | CallManageServer sname act =>
      operation a = "manage_server" /\ server_name a = Some sname
      /\ act = action a
  | CallListRunningServers => operation a = "list_running_servers"
  | CallExecuteTool sname t args tmo bg p =>
      operation a = "execute_tool" /\ server_name a = Some sname
      /\ tool_name a = Some t /\ args = arguments a /\ tmo = timeout a
      /\ bg = in_background a /\ p = priority a
  | CallPollTaskResult t =>
      operation a = "poll_task_result" /\ task_id a = Some t
  | CallGetContent r ci =>
      operation a = "get_content" /\ ref_id a = Some r
      /\ ci = chunk_index a
  | CallGetStatistics => operation a = "get_statistics"
  end.
Proof.
  by_operation; intros Hd; try discriminate;
    injection Hd as <-; repeat split; congruence.
Qed.

Lemma dispatch_unknown (a : RouterArgs) :
  operation a ∉ known_operations ->
  dispatch a = Respond ["Unknown operation: " +:+ operation a].
Proof.
  intros Hn. unfold known_operations in Hn.
  repeat (apply not_elem_of_cons in Hn as [?%String.eqb_neq Hn]).
  unfold dispatch.
  repeat match goal with H : (_ =? _) = false |- _ => rewrite H; clear H end.
  reflexivity.
Qed.

Lemma dispatch_respond (a : RouterArgs) (r : PollTool.ToolResult) :
  dispatch a = Respond r ->
  ((operation a ∉ known_operations)
   /\ r = ["Unknown operation: " +:+ operation a])
  \/ ((operation a ∈ known_operations)
      /\ exists what, r = ["Error: " +:+ what +:+ " for " +:+ operation a]).
Proof.
  destruct (decide (operation a ∈ known_operations)) as [Hin|Hn].
  - intros Hd. right. split; [exact Hin|]. revert Hd.
    by_operation; intros Hd; try discriminate;
      try (injection Hd as <-; eexists; reflexivity).
    exfalso. unfold known_operations in Hin.
    repeat (apply elem_of_cons in Hin as [?|Hin]; [congruence|]).
    inversion Hin.
  - intros Hd. left. split; [exact Hn|].
    rewrite (dispatch_unknown a Hn) in Hd. now injection Hd as <-.
Qed.

Section WithTools.
Context {S : Type} (call_tool : ToolCall -> M S PollTool.ToolResult).

Lemma dispatch_known (a : RouterArgs) :
  operation a ∈ known_operations ->
  if all_given a
  then exists c, dispatch a = Delegate c
  else dispatch a = Respond [missing_answer (operation a)].
Proof.
  intros Hin. unfold known_operations in Hin.
  unfold all_given, missing_answer, dispatch, required.
  repeat (apply elem_of_cons in Hin as [Hop|Hin]); [..|inversion Hin];
    rewrite Hop; cbn -[append];
    repeat match goal with
           | |- context [bool_decide (?f a <> None)] => destruct (f a)
           end;
    repeat case_bool_decide; try congruence; cbn -[append];
    first [reflexivity | eexists; reflexivity].
Qed.

(** X11: the router answers by itself, with one text and without calling
    any tool or touching the state, exactly in two situations: an operation
    it does not know (["Unknown operation: <op>"]), and a known operation
    one of whose required arguments is [None] (["Error: <the required
    arguments> for <op>"]).  A known operation given all its required
    arguments is delegated. *)
Theorem X11_router_own_answers (a : RouterArgs) :
  ((operation a ∉ known_operations) ->
   dispatch a = Respond ["Unknown operation: " +:+ operation a]
   /\ forall g, semantic_router call_tool a g
                = (Returned ["Unknown operation: " +:+ operation a], g))
  /\ ((operation a ∈ known_operations) -> all_given a = false ->
      dispatch a = Respond [missing_answer (operation a)]
      /\ forall g, semantic_router call_tool a g
                   = (Returned [missing_answer (operation a)], g))
  /\ ((operation a ∈ known_operations) -> all_given a = true ->
      exists c, dispatch a = Delegate c
                /\ forall g, semantic_router call_tool a g
                             = try_except (call_tool c)
                                 (fun e => ret ["Router failed: "
                                                  +:+ exn_str e]) g)
  /\ (forall c, dispatch a = Delegate c ->
        (operation a ∈ known_operations) /\ all_given a = true)
  /\ (forall r, dispatch a = Respond r ->
        (forall g, semantic_router call_tool a g = (Returned r, g))
        /\ (((operation a ∉ known_operations)
             /\ r = ["Unknown operation: " +:+ operation a])
            \/ ((operation a ∈ known_operations)
                /\ all_given a = false
                /\ r = [missing_answer (operation a)]))).
Proof.
  pose proof (dispatch_known a) as Hknown.
  assert (Hunknown : (operation a ∉ known_operations) ->
            dispatch a = Respond ["Unknown operation: " +:+ operation a])
    by apply dispatch_unknown.
  split.
  { intros Hn. split; [now apply Hunknown|].
    intros g. unfold semantic_router. now rewrite (Hunknown Hn). }
  split.
  { intros Hin Hall. specialize (Hknown Hin). rewrite Hall in Hknown.
    split; [exact Hknown|].
    intros g. unfold semantic_router. now rewrite Hknown. }
  split.
  { intros Hin Hall. specialize (Hknown Hin). rewrite Hall in Hknown.
    destruct Hknown as [c Hc]. exists c. split; [exact Hc|].
    intros g. unfold semantic_router. now rewrite Hc. }
  split.
  { intros c Hd.
    destruct (decide (operation a ∈ known_operations)) as [Hin|Hn].
    - split; [exact Hin|]. specialize (Hknown Hin).
      destruct (all_given a); [reflexivity|].
      rewrite Hknown in Hd. discriminate.
    - rewrite (Hunknown Hn) in Hd. discriminate. }
  intros r Hd. split.
  { intros g. unfold semantic_router. now rewrite Hd. }
  destruct (decide (operation a ∈ known_operations)) as [Hin|Hn].
  - right. split; [exact Hin|]. specialize (Hknown Hin).
    destruct (all_given a).
    + destruct Hknown as [c Hc]. rewrite Hc in Hd. discriminate.
    + rewrite Hknown in Hd. injection Hd as <-. auto.
  - left. split; [exact Hn|].
    rewrite (Hunknown Hn) in Hd. now injection Hd as <-.
Qed.

(** X12: no error leaves [semantic_router].  What the delegated tool
    returns is returned as it is; what it raises comes back as the one
    text ["Router failed: <message>"]. *)
Theorem X12_router_never_raises (a : RouterArgs) (g : S) :
  (forall e g', semantic_router call_tool a g <> (Raised (Error e), g'))
  /\ (forall c r g',
        dispatch a = Delegate c -> call_tool c g = (Returned r, g') ->
        semantic_router call_tool a g = (Returned r, g'))
  /\ (forall c e g',
        dispatch a = Delegate c -> call_tool c g = (Raised (Error e), g') ->
        semantic_router call_tool a g
        = (Returned ["Router failed: " +:+ exn_str e], g')).
Proof.
  split.
  { intros e g'. apply try_except_no_error.
    intros e0 g1. eexists _, _. reflexivity. }
  split; intros c r g' Hd Hc; unfold semantic_router, try_except;
    rewrite Hd, Hc; reflexivity.
Qed.

End WithTools.

(** X13: called with the operation alone, every other parameter at its
    default, the router delegates for exactly three operations —
    ["list_servers"], ["list_running_servers"], ["get_statistics"] — and
    [list_servers] is then asked for 50 entries from offset 0.  Every other
    operation is answered with one error text: the missing-argument text
    of the operation when it is known, ["Unknown operation: <op>"] when it
    is not. *)
Theorem X13_router_operation_alone (op : string) :
  ((exists c, dispatch (default_args op) = Delegate c)
   <-> op ∈ ["list_servers"; "list_running_servers"; "get_statistics"])
  /\ dispatch (default_args "list_servers")
     = Delegate (CallListServers 50 0)
  /\ dispatch (default_args "list_running_servers")
     = Delegate CallListRunningServers
  /\ dispatch (default_args "get_statistics") = Delegate CallGetStatistics
  /\ ((op ∉ ["list_servers"; "list_running_servers"; "get_statistics"]) ->
      exists text,
        dispatch (default_args op) = Respond [text]
        /\ (((op ∈ known_operations) /\ text = missing_answer op)
            \/ ((op ∉ known_operations)
                /\ text = "Unknown operation: " +:+ op))).
Proof.
  split.
  { split.
    - intros [c Hd]. revert Hd. unfold dispatch, required. simpl.
      repeat match goal with
             | |- context [if ?s =? ?t then _ else _] =>
                 destruct (String.eqb_spec s t)
             end; intros Hd; try discriminate; subst op.
      + apply list_elem_of_here.
      + apply list_elem_of_further, list_elem_of_here.
      + do 2 apply list_elem_of_further. apply list_elem_of_here.
    - intros Hin.
      repeat (apply elem_of_cons in Hin as [->|Hin]; [eexists; reflexivity|]).
      inversion Hin. }
  split; [reflexivity|]. split; [reflexivity|]. split; [reflexivity|].
  intros Hnot.
  destruct (decide (op ∈ known_operations)) as [Hin|Hn].
  - pose proof Hin as Hin'. unfold known_operations in Hin'.
    repeat (apply elem_of_cons in Hin' as [Hop|Hin']);
      [..|inversion Hin']; subst op;
      try (eexists; split; [reflexivity|]; left; split;
           [exact Hin | reflexivity]);
      exfalso; apply Hnot;
      repeat first [apply list_elem_of_here | apply list_elem_of_further].
  - exists ("Unknown operation: " +:+ op). split.
    + exact (dispatch_unknown (default_args op) Hn).
    + right. auto.
Qed.

End RouterDelegation.

Lemma X10_router_passes_arguments_witness :
  (Router.operation MoreSamples.execute_request = "execute_tool"
   /\ Router.server_name MoreSamples.execute_request = Some "fs"
   /\ Router.tool_name MoreSamples.execute_request = Some "read"
   /\ Some (VDict [("path", VStr "/etc/hosts")])
      = Router.arguments MoreSamples.execute_request
   /\ (5 # 1)%Q = Router.timeout MoreSamples.execute_request
   /\ true = Router.in_background MoreSamples.execute_request
   /\ 3%Z = Router.priority MoreSamples.execute_request)
  /\ (Router.operation MoreSamples.search_request = "search_tools"
      /\ Router.query MoreSamples.search_request = Some "read a file"
      /\ 10%Z = Router.limit MoreSamples.search_request
      /\ (1 # 2)%Q = Router.min_score MoreSamples.search_request
      /\ Some ["fs"; "web"] = Router.server_names MoreSamples.search_request
      /\ Some "mcp" = Router.tool_type MoreSamples.search_request
      /\ false = Router.enabled MoreSamples.search_request).
Proof.
  split.
  - exact (X10_router_passes_arguments MoreSamples.execute_request
             (Router.CallExecuteTool "fs" "read"
                (Some (VDict [("path", VStr "/etc/hosts")])) (5 # 1)%Q true 3)
             eq_refl).
  - exact (X10_router_passes_arguments MoreSamples.search_request
             (Router.CallSearchTools "read a file" 10 (1 # 2)%Q
                (Some ["fs"; "web"]) (Some "mcp") false)
             eq_refl).
Defined.

Lemma X11_router_own_answers_witness :
  (exists c,
      Router.dispatch MoreSamples.execute_request = Router.Delegate c
      /\ forall g : unit,
           Router.semantic_router (fun _ => mret ["called"])
             MoreSamples.execute_request g
           = try_except (mret ["called"])
               (fun e => mret ["Router failed: " +:+ exn_str e]) g)
  /\ (Router.dispatch (Router.default_args "execute_tool")
      = Router.Respond
          ["Error: 'server_name' and 'tool_name' are required for execute_tool"]
      /\ forall g : unit,
           Router.semantic_router (fun _ => mret ["called"])
             (Router.default_args "execute_tool") g
           = (Returned
                ["Error: 'server_name' and 'tool_name' are required for execute_tool"],
              g))
  /\ (Router.dispatch (Router.default_args "restart_server")
      = Router.Respond ["Unknown operation: restart_server"]
      /\ forall g : unit,
           Router.semantic_router (fun _ => mret ["called"])
             (Router.default_args "restart_server") g
           = (Returned ["Unknown operation: restart_server"], g)).
Proof.
  split; [|split].
  - destruct (X11_router_own_answers (S := unit) (fun _ => mret ["called"])
                MoreSamples.execute_request) as (_ & _ & H3 & _).
    apply H3; [|reflexivity].
    unfold RouterTable.known_operations.
    repeat first [apply list_elem_of_here | apply list_elem_of_further].
  - destruct (X11_router_own_answers (S := unit) (fun _ => mret ["called"])
                (Router.default_args "execute_tool")) as (_ & H2 & _).
    apply H2; [|reflexivity].
    unfold RouterTable.known_operations.
    repeat first [apply list_elem_of_here | apply list_elem_of_further].
  - destruct (X11_router_own_answers (S := unit) (fun _ => mret ["called"])
                (Router.default_args "restart_server")) as (H1 & _).
    apply H1. intros Hin. unfold RouterTable.known_operations in Hin.
    repeat (apply elem_of_cons in Hin as [Hin|Hin]; [discriminate|]).
    inversion Hin.
Defined.

Lemma X13_router_operation_alone_witness :
  exists text,
    Router.dispatch (Router.default_args "get_content")
    = Router.Respond [text]
    /\ ((("get_content" ∈ RouterTable.known_operations)
         /\ text = "Error: 'ref_id' is required for get_content")
        \/ (("get_content" ∉ RouterTable.known_operations)
            /\ text = "Unknown operation: get_content")).
Proof.
  destruct (X13_router_operation_alone "get_content") as (_ & _ & _ & _ & H5).
  apply H5. intros Hin.
  repeat (apply elem_of_cons in Hin as [Hin|Hin]; [discriminate|]).
  inversion Hin.
Defined.

(* ===================================================================== *)
(** * Properties: what [lifespan] asks for and what it tells the router *)
(* ===================================================================== *)

Section LifespanFacts.
Import PyDict DiscoveryHandlers Lifespan.
Context {S : Type} (C : DiscoveryClient S).
Variable yaml_dump : value -> string.

Lemma listing_limit_positive (total : Z) : (0 < listing_limit total)%Z.
Proof.
  unfold listing_limit. destruct (Z.gtb_spec total 0); lia.
Qed.

(** X14: [lifespan] never asks the discovery service for zero or a
    negative number of servers: it asks for [total_servers] entries when
    the statistics give a positive count and for 50 otherwise — also when
    the statistics carry no count — always from offset 0.  A count that is
    not a number stops the start-up with a [TypeError] before any listing
    is asked for. *)
Theorem X14_lifespan_listing_limit (s s1 : S) (stats : dict) :
  dc_get_statistics s = (Returned stats, s1) ->
  (forall total,
      total_servers stats = inr total ->
      (0 < listing_limit total)%Z
      /\ ((0 < total)%Z -> listing_limit total = total)
      /\ ((total <= 0)%Z -> listing_limit total = 50%Z)
      /\ (forall r s2,
            dc_list_servers (listing_limit total) 0 s1 = (Raised r, s2) ->
            router_listing yaml_dump s = (Raised r, s2))
      /\ (forall info s2,
            dc_list_servers (listing_limit total) 0 s1
            = (Returned info, s2) ->
            router_listing yaml_dump s
            = match indexed_servers yaml_dump info with
              | inr indexed => (Returned (total, servers_list_msg indexed), s2)
              | inl e => (Raised (Error e), s2)
              end))
  /\ (dict_get "total_servers" stats = None ->
      total_servers stats = inr 0%Z)
  /\ (forall e,
        total_servers stats = inl e ->
        router_listing yaml_dump s = (Raised (Error e), s1)
        /\ exn_type e = "TypeError").
Proof.
  intros Hstats. split.
  { intros total Ht.
    split; [apply listing_limit_positive|].
    split.
    { intros Hp. unfold listing_limit.
      destruct (Z.gtb_spec total 0); [reflexivity | lia]. }
    split.
    { intros Hp. unfold listing_limit.
      destruct (Z.gtb_spec total 0); [lia | reflexivity]. }
    split.
    - intros r s2 Hl. unfold router_listing, mbind, M_bind, bind.
      rewrite Hstats, Ht. simpl. now rewrite Hl.
    - intros info s2 Hl. unfold router_listing, mbind, M_bind, bind.
      rewrite Hstats, Ht. simpl. rewrite Hl.
      destruct (indexed_servers yaml_dump info); reflexivity. }
  split.
  { intros Hn. unfold total_servers, dict_get_default. now rewrite Hn. }
  intros e He. split.
  - unfold router_listing, mbind, M_bind, bind. now rewrite Hstats, He.
  - unfold total_servers in He.
    destruct (dict_get_default "total_servers" (VInt 0) stats);
      try discriminate; now injection He as <-.
Qed.

(** X15: the message for the router has one YAML document per server of
    the listing, in order; each document is the dump of a dict with
    exactly the keys [server_name], [title], [nb_tools], taken from the
    server's [name], [title] and [nbTools], with [None] for a missing name
    or title and 0 for a missing tool count.  A listing without servers
    gives ["No servers indexed yet"]; an entry that is not a dict stops
    the loop with an [AttributeError]. *)
Theorem X15_lifespan_indexed_servers (info : dict) :
  (forall indexed,
      indexed_servers yaml_dump info = inr indexed ->
      exists servers,
        py_iter (dict_get_default "servers" (VList []) info) = inr servers
        /\ length indexed = length servers
        /\ forall i doc,
             indexed !! i = Some doc ->
             exists d,
               servers !! i = Some (VDict d)
               /\ doc = yaml_dump
                          (VDict [("server_name",
                                   default VNone (dict_get "name" d));
                                  ("title",
                                   default VNone (dict_get "title" d));
                                  ("nb_tools",
                                   default (VInt 0) (dict_get "nbTools" d))]))
  /\ (dict_get "servers" info = None \/
      dict_get "servers" info = Some (VList []) ->
      indexed_servers yaml_dump info = inr []
      /\ servers_list_msg [] = "No servers indexed yet")
  /\ (forall x y rest,
        servers_list_msg (x :: y :: rest)
        = x +:+ nl +:+ "###" +:+ nl +:+ servers_list_msg (y :: rest))
  /\ (forall x, servers_list_msg [x] = x)
  /\ (forall e,
        indexed_servers yaml_dump info = inl e ->
        exn_type e = "TypeError" \/ exn_type e = "AttributeError").
Proof.
  split.
  { unfold indexed_servers. intros indexed Hi.
    destruct (py_iter (dict_get_default "servers" (VList []) info))
      as [e|servers]; [discriminate|].
    exists servers. split; [reflexivity|].
    apply py_map_inr in Hi as [Hlen Hall]. split; [exact Hlen|].
    intros i doc Hdoc.
    destruct (servers !! i) as [x|] eqn:Hx.
    - destruct (Hall i x Hx) as (y & Hy & Hiy).
      rewrite Hdoc in Hiy. injection Hiy as <-.
      destruct x as [| | | | |d]; simpl in Hy; try discriminate.
      injection Hy as <-. exists d. split; reflexivity.
    - apply lookup_ge_None in Hx. apply lookup_lt_Some in Hdoc. lia. }
  split.
  { intros [Hn|Hn]; unfold indexed_servers, dict_get_default; rewrite Hn;
      split; reflexivity. }
  split; [reflexivity|]. split; [reflexivity|].
  unfold indexed_servers. intros e He.
  destruct (py_iter (dict_get_default "servers" (VList []) info))
    as [e0|servers] eqn:Hit.
  - injection He as <-. left.
    destruct (dict_get_default "servers" (VList []) info);
      simpl in Hit; try discriminate; now injection Hit as <-.
  - right. apply py_map_inl in He as (pre & x & suf & _ & _ & Hx).
    destruct x; simpl in Hx; try discriminate; now injection Hx as <-.
Qed.

End LifespanFacts.

Lemma X14_lifespan_listing_limit_witness :
  Lifespan.router_listing (H := MoreSamples.client) MoreSamples.show tt
  = (Returned (2%Z, "dict" +:+ PyDict.nl +:+ "###" +:+ PyDict.nl +:+ "dict"),
     tt).
Proof.
  destruct (X14_lifespan_listing_limit MoreSamples.client MoreSamples.show
              tt tt MoreSamples.stats_answer eq_refl) as [H1 _].
  destruct (H1 2%Z eq_refl) as (_ & _ & _ & _ & H5).
  exact (H5 MoreSamples.servers_answer tt eq_refl).
Defined.

Lemma X15_lifespan_indexed_servers_witness :
  exists servers,
    PyDict.py_iter
      (PyDict.dict_get_default "servers" (VList []) MoreSamples.servers_answer)
    = inr servers
    /\ 2 = length servers.
Proof.
  destruct (X15_lifespan_indexed_servers MoreSamples.show
              MoreSamples.servers_answer) as [H1 _].
  destruct (H1 ["dict"; "dict"] eq_refl) as (servers & Hit & Hlen & _).
  exists servers. split; [exact Hit | exact Hlen].
Defined.

(* ===================================================================== *)
(** * The poll handlers on a task that failed with an empty message *)
(* ===================================================================== *)


